(** * Anomaly-detection workshop notebook: scoring, thresholding, evaluation

    Shallow embedding of the computational cells of
    [notebooks/Model-Development.ipynb]: the feature scaler, the
    per-sample reconstruction error, the percentile threshold, the two
    label binarizations and the [performance] function.

    Numbers.  The notebook computes on float64 arrays.  Features and
    scores are modelled as rationals [Q] (the data model speaks of "a
    real number per sample"): the finite float64 numbers are among
    them; infinities and nan inputs are outside the model.  The single
    nan that finite inputs can produce, the mean of an empty array, is
    kept as [NaN] in [num].

    The scaler, the reconstruction error and the metrics are modelled in
    exact arithmetic: what is stated about them is which entries are
    read, which formula is evaluated and when an exception is raised,
    not the last digit of a result.  The threshold is modelled twice.
    Whether a score is labelled 0 or 1 can depend on how [np.percentile]
    rounds, so [Numpy64.percentile] and the cells of [Autoencoder]
    follow the float64 arithmetic operation by operation ([Float64]);
    [Numpy.percentile] and the cells of the section [Notebook] are
    their exact-arithmetic counterparts, used for the scaler's quartiles
    and for the flow of the data between the cells.

    Library calls (numpy, scikit-learn, keras) are modelled by what they
    compute on such arrays, with the exceptions they raise as [Raise]. *)

From Stdlib Require Import ZArith QArith Qround Qpower Lqa Lia List.
From Stdlib Require Import Sorting.Permutation Sorting.Sorted.
From stdpp Require Import gmap strings pretty.
Import ListNotations.

(** ** Python results: a value or a raised exception *)

Inductive exn : Type :=
| ValueError
| IndexError
| NameError
| NotFittedError.

Inductive result (A : Type) : Type :=
| Ok (a : A)
| Raise (e : exn).
Arguments Ok {A} a.
Arguments Raise {A} e.

Global Instance result_ret : MRet result := fun A a => Ok a.

Global Instance result_bind : MBind result := fun A B k r =>
  match r with
  | Ok a => k a
  | Raise e => Raise e
  end.

Global Instance result_fmap : FMap result := fun A B f r =>
  match r with
  | Ok a => Ok (f a)
  | Raise e => Raise e
  end.

(** A float that may be nan. *)
Inductive num : Type :=
| NaN
| Fin (q : Q).

(** Two-dimensional arrays, as the list of their rows. *)
Definition matrix : Type := list (list Q).

Definition nrows (m : matrix) : nat := length m.
Definition ncols (m : matrix) : nat :=
  match m with
  | [] => 0
  | r :: _ => length r
  end.

Definition rectangular (m : matrix) : bool :=
  forallb (fun r => Nat.eqb (length r) (ncols m)) m.

Definition column (j : nat) (m : matrix) : list Q :=
  map (fun r => nth j r 0%Q) m.

(** [m.T] *)
Definition transpose (m : matrix) : matrix :=
  map (fun j => column j m) (seq 0 (ncols m)).

Fixpoint map2 {A B C : Type} (f : A -> B -> C) (l : list A) (l' : list B) : list C :=
  match l, l' with
  | a :: t, b :: t' => f a b :: map2 f t t'
  | _, _ => []
  end.

Definition Qsum (l : list Q) : Q := fold_right Qplus 0%Q l.

(** [(a - b) ** 2] *)
Definition sqdiff (a b : Q) : Q := ((a - b) ^ 2)%Q.

(** [a == b] on two labels, as the float it averages to. *)
Definition agree (a b : Z) : Q := if (a =? b)%Z then 1%Q else 0%Q.

(** ** numpy *)

Module Numpy.

(** [np.take(ap, i)] on a one-dimensional array: negative indices count
    from the end, anything out of bounds raises [IndexError] (on an
    empty array: "cannot do a non-empty take from an empty axes"). *)
Definition take (ap : list Q) (i : Z) : result Q :=
  let n := Z.of_nat (length ap) in
  if ((i <? - n) || (n <=? i))%Z then Raise IndexError
  else Ok (nth (Z.to_nat (if (i <? 0)%Z then i + n else i)%Z) ap 0%Q).

Fixpoint insert_sorted (x : Q) (l : list Q) : list Q :=
  match l with
  | [] => [x]
  | y :: l' => if Qle_bool x y then x :: l else y :: insert_sorted x l'
  end.

(** The array in ascending order.  [np.percentile] only partitions
    ([ap.partition(kth)]); the entries it then reads at the [kth]
    positions are those of the sorted array. *)
Definition sort (a : list Q) : list Q := fold_right insert_sorted [] a.

(** [np.percentile(a, q)] for a one-dimensional [a] and a scalar [q],
    default [interpolation='linear'], in exact arithmetic: the positions
    it reads and the formula it evaluates.  [Numpy64.percentile] is the
    same computation with every operation rounded to float64. *)
Definition percentile (a : list Q) (q : Q) : result Q :=
  let q := (q / 100)%Q in
  if negb (Qle_bool 0 q && Qle_bool q 1) then Raise ValueError
  else
    let ap := sort a in
    let Nx := Z.of_nat (length ap) in
    let indices := (q * inject_Z (Nx - 1))%Q in
    let indices_below := Qfloor indices in
    let indices_above :=
      (if Nx - 1 <? indices_below + 1 then Nx - 1 else indices_below + 1)%Z in
    let weights_above := (indices - inject_Z indices_below)%Q in
    let weights_below := (1 - weights_above)%Q in
    x1 ← take ap indices_below;
    x2 ← take ap indices_above;
    Ok (x1 * weights_below + x2 * weights_above)%Q.

(** [np.mean(a)] of a one-dimensional array; nan on an empty one. *)
Definition mean (a : list Q) : num :=
  match a with
  | [] => NaN
  | _ => Fin (Qsum a / inject_Z (Z.of_nat (length a)))
  end.

(** [np.median(a)] of a non-empty one-dimensional array: the middle
    entry of the sorted array, or the mean of the two middle entries.
    (Of an empty array numpy returns nan; the scaler rejects empty
    input before it gets here.) *)
Definition median (a : list Q) : Q :=
  let part := sort a in
  let sz := length a in
  let index := Nat.div sz 2 in
  if Nat.even sz
  then ((nth (index - 1) part 0 + nth index part 0) / 2)%Q
  else nth index part 0%Q.

(** [arr == v] against a scalar, element by element. *)
Definition eq_scalar (arr : list Z) (v : Z) : list bool :=
  map (fun p => (p =? v)%Z) arr.

(** [np.where(cond, x, y)] with scalar [x] and [y]. *)
Definition where_ (cond : list bool) (x y : Z) : list Z :=
  map (fun c : bool => if c then x else y) cond.

(** [np.average(m, axis=0)] of a two-dimensional array with at least
    one row: the mean of every column. *)
Definition average_axis0 (m : matrix) : list Q :=
  map (fun j => (Qsum (column j m) / inject_Z (Z.of_nat (nrows m)))%Q)
      (seq 0 (ncols m)).

End Numpy.

(** ** scikit-learn *)

Module Sklearn.

(** [check_array]: the input must convert to a two-dimensional float
    array (so it cannot be ragged) with at least one sample and at
    least one feature. *)
Definition check_array (X : matrix) : result matrix :=
  if negb (rectangular X) then Raise ValueError
  else if Nat.eqb (nrows X) 0 then Raise ValueError
  else if Nat.eqb (ncols X) 0 then Raise ValueError
  else Ok X.

(** *** [sklearn.preprocessing.RobustScaler]
    with its defaults: centering, scaling, [quantile_range=(25, 75)].
    The attributes [center_] and [scale_] exist only once fitted. *)
Record RobustScaler : Type := mkRobustScaler {
  center_ : option (list Q);
  scale_ : option (list Q)
}.

(** [RobustScaler()] *)
Definition RobustScaler_new : RobustScaler :=
  {| center_ := None; scale_ := None |}.

(** [_handle_zeros_in_scale]: [scale[scale == 0.0] = 1.0] *)
Definition handle_zeros_in_scale (scale : list Q) : list Q :=
  map (fun s => if Qeq_bool s 0 then 1%Q else s) scale.

(** [RobustScaler.fit(X)]: mutates and returns [self]. *)
Definition fit (self : RobustScaler) (X : matrix) : result RobustScaler :=
  X ← check_array X;
  let center := map (fun j => Numpy.median (column j X)) (seq 0 (ncols X)) in
  quantiles ← mapM (fun feature_idx =>
                 let column_data := column feature_idx X in
                 lo ← Numpy.percentile column_data 25;
                 hi ← Numpy.percentile column_data 75;
                 Ok (lo, hi)) (seq 0 (ncols X));
  let scale := map (fun '(lo, hi) => (hi - lo)%Q) quantiles in
  Ok {| center_ := Some center;
        scale_ := Some (handle_zeros_in_scale scale) |}.

(** [X op v] for a two-dimensional [X] and a one-dimensional [v]: the
    shapes must broadcast, that is [v] has one entry per column of [X]
    or a single entry. *)
Definition broadcast (op : Q -> Q -> Q) (X : matrix) (v : list Q) : result matrix :=
  if Nat.eqb (length v) (ncols X) then Ok (map (fun r => map2 op r v) X)
  else match v with
       | [c] => Ok (map (map (fun x => op x c)) X)
       | _ => Raise ValueError
       end.

(** [RobustScaler.transform(X)]: reads [self], works on a copy of [X].
    The subtraction and the division are exact: a float64 quotient that
    overflows to an infinity is outside the model. *)
Definition transform (self : RobustScaler) (X : matrix) : result matrix :=
  match center_ self, scale_ self with
  | Some center, Some scale =>
      X ← check_array X;
      X ← broadcast Qminus X center;
      broadcast Qdiv X scale
  | _, _ => Raise NotFittedError
  end.

(** *** [sklearn.metrics] *)

(** [accuracy_score(y_true, y_pred)] on integer labels: the arrays must
    have the same length; the score is the mean of [y_true == y_pred]. *)
Definition accuracy_score (y_true y_pred : list Z) : result num :=
  if negb (Nat.eqb (length y_true) (length y_pred)) then Raise ValueError
  else Ok (Numpy.mean
             (map2 agree y_true y_pred)).

(** [mean_squared_error(y_true, y_pred, multioutput='raw_values')] on
    two-dimensional arrays: both are checked, must have the same shape,
    and the squared differences are averaged over axis 0, which leaves
    one value per column. *)
Definition mean_squared_error (y_true y_pred : matrix) : result (list Q) :=
  if negb (Nat.eqb (nrows y_true) (nrows y_pred)) then Raise ValueError
  else
    y_true ← check_array y_true;
    y_pred ← check_array y_pred;
    if negb (Nat.eqb (ncols y_true) (ncols y_pred)) then Raise ValueError
    else
      Ok (Numpy.average_axis0 (map2 (map2 sqdiff) y_true y_pred)).

(** The part of the estimator interface the notebook calls on a fitted
    outlier detector ([OneClassSVM], [EllipticEnvelope]): [predict]
    returns one raw prediction per row, [decision_function] one
    decision value per row. *)
Class OutlierDetector (M : Type) : Type := {
  predict : M -> matrix -> list Z;
  decision_function : M -> matrix -> list Q
}.

End Sklearn.

(** ** The notebook *)

(** Python's [a < b] on two scores. *)
Definition Qltb (a b : Q) : bool := negb (Qle_bool b a).

(** The values stored in a metric dictionary. *)
Inductive pyval : Type :=
| PyFloat (x : num)
| PyCurve (FP TP : list num)
| PyLabels (labels : list Z).

(** Reading a global name that may not be bound yet. *)
Definition name {A : Type} (v : option A) : result A :=
  match v with
  | Some a => Ok a
  | None => Raise NameError
  end.

Fixpoint foldM {S A : Type} (f : S -> A -> result S) (s : S) (l : list A) : result S :=
  match l with
  | [] => Ok s
  | a :: l' => s' ← f s a; foldM f s' l'
  end.

Section Notebook.

(** [metrics.roc_curve] and [metrics.auc]: library routines whose
    results the notebook only stores. *)
Variable roc_curve : list Z -> list Q -> result (list num * list num * list Q).
Variable auc : list num -> list num -> result num.

(** The fitted unsupervised models ([OneClassSVM], [EllipticEnvelope]). *)
Context {M : Type} `{Sklearn.OutlierDetector M}.

(** [trained_model.predict]: the autoencoder loaded from [model.h5]. *)
Variable trained_model_predict : matrix -> matrix.

(** [performance(yhat, y, score=None)] *)
Definition performance (yhat y : list Z) (score : option (list Q))
  : result (gmap string pyval) :=
  let performance : gmap string pyval := ∅ in
  acc ← Sklearn.accuracy_score y yhat;
  let performance := <["accuracy" := PyFloat acc]> performance in
  match score with
  | Some score =>
      '(FP, TP, _) ← roc_curve y score;
      let performance := <["FP_TP" := PyCurve FP TP]> performance in
      a ← auc FP TP;
      let performance := <["AUC" := PyFloat a]> performance in
      let performance := <["yhat" := PyLabels yhat]> performance in
      Ok performance
  | None => Ok performance
  end.

(** [np.where(pred == -1, 1, 0)] *)
Definition unsupervised_yhat (pred : list Z) : list Z :=
  Numpy.where_ (Numpy.eq_scalar pred (-1)) 1 0.

(** [- model.decision_function(X)] *)
Definition unsupervised_anomaly_score (model : M) (X : matrix) : list Q :=
  map Qopp (Sklearn.decision_function model X).

(** [mean_squared_error(predicted.T, X.T, multioutput='raw_values')]
    with [predicted = trained_model.predict(X)] *)
Definition reconstruction_mse (X : matrix) : result (list Q) :=
  let predicted := trained_model_predict X in
  Sklearn.mean_squared_error (transpose predicted) (transpose X).

(** [[0 if imse < thresh_train else 1 for imse in val_mse]] *)
Definition threshold_yhat (thresh_train : Q) (val_mse : list Q) : list Z :=
  map (fun imse => if Qltb imse thresh_train then 0%Z else 1%Z) val_mse.

(** The global names of the kernel that the modelled cells read and
    write; [None] is a name not bound yet.  The three data sets are
    bound by the loading cells. *)
Record kernel : Type := mkKernel {
  X_train : matrix;
  X_validation : matrix;
  y_validation : list Z;
  scaler : option Sklearn.RobustScaler;
  X_train_norm : option matrix;
  X_validation_norm : option matrix;
  yhat : option (list Z);
  results_unsupervised : option (gmap string (gmap string pyval));
  train_mse : option (list Q);
  thresh_train : option Q;
  val_mse : option (list Q);
  out : option (gmap string pyval)
}.

Definition loaded (Xt Xv : matrix) (yv : list Z) : kernel :=
  mkKernel Xt Xv yv None None None None None None None None None.

(** Cell "Preprocessing": a new scaler, fitted on [X_train], applied to
    both sets. *)
Definition cell_scale (k : kernel) : result kernel :=
  let scaler0 := Sklearn.RobustScaler_new in
  scaler1 ← Sklearn.fit scaler0 (X_train k);
  Xtn ← Sklearn.transform scaler1 (X_train k);
  Xvn ← Sklearn.transform scaler1 (X_validation k);
  Ok (mkKernel (X_train k) (X_validation k) (y_validation k)
        (Some scaler1) (Some Xtn) (Some Xvn)
        (yhat k) (results_unsupervised k)
        (train_mse k) (thresh_train k) (val_mse k) (out k)).

(** One turn of the loop of the cell that evaluates the unsupervised
    models on the validation set. *)
Definition cell_unsupervised_body (k : kernel) (item : string * M) : result kernel :=
  let '(model_name, model) := item in
  Xvn ← name (X_validation_norm k);
  let pred := Sklearn.predict model Xvn in
  let yhat1 := unsupervised_yhat pred in
  let anomaly_score := unsupervised_anomaly_score model Xvn in
  perf ← performance yhat1 (y_validation k) (Some anomaly_score);
  results ← name (results_unsupervised k);
  Ok (mkKernel (X_train k) (X_validation k) (y_validation k)
        (scaler k) (X_train_norm k) (X_validation_norm k)
        (Some yhat1) (Some (<[model_name := perf]> results))
        (train_mse k) (thresh_train k) (val_mse k) (out k)).

Definition cell_unsupervised (models_unsupervised : list (string * M)) (k : kernel)
  : result kernel :=
  let k0 := mkKernel (X_train k) (X_validation k) (y_validation k)
              (scaler k) (X_train_norm k) (X_validation_norm k)
              (yhat k) (Some ∅)
              (train_mse k) (thresh_train k) (val_mse k) (out k) in
  foldM cell_unsupervised_body k0 models_unsupervised.

(** The flow of the data through the cell that determines the threshold
    from the training data, in exact arithmetic: the reconstruction
    errors of the scaled training data and their 95th percentile.  The
    cell as it runs, with [K.clear_session()], [load_model] and the
    float64 percentile, is [Autoencoder.cell_threshold]. *)
Definition cell_threshold (k : kernel) : result kernel :=
  Xtn ← name (X_train_norm k);
  train_mse1 ← reconstruction_mse Xtn;
  thresh ← Numpy.percentile train_mse1 95;
  Ok (mkKernel (X_train k) (X_validation k) (y_validation k)
        (scaler k) (X_train_norm k) (X_validation_norm k)
        (yhat k) (results_unsupervised k)
        (Some train_mse1) (Some thresh) (val_mse k) (out k)).

(** The flow of the data through the cell that propagates the
    validation data through the model and binarizes its scores, for a
    model [trained_model] that is bound; the cell with its read of that
    name is [Autoencoder.cell_validate]. *)
Definition cell_validate (k : kernel) : result kernel :=
  Xvn ← name (X_validation_norm k);
  val_mse1 ← reconstruction_mse Xvn;
  thresh ← name (thresh_train k);
  let yhat1 := threshold_yhat thresh val_mse1 in
  perf ← performance yhat1 (y_validation k) None;
  Ok (mkKernel (X_train k) (X_validation k) (y_validation k)
        (scaler k) (X_train_norm k) (X_validation_norm k)
        (Some yhat1) (results_unsupervised k)
        (train_mse k) (thresh_train k) (Some val_mse1) (Some perf)).

End Notebook.

(** ** Notions used in the statements *)

(** A binary label. *)
Definition is_label (l : Z) : Prop := l = 0%Z \/ l = 1%Z.

(** The position below the virtual index [q/100 * (n-1)] that
    [np.percentile] interpolates from. *)
Definition index_below (n : nat) (q : Q) : Z :=
  Qfloor (q / 100 * inject_Z (Z.of_nat n - 1)).

(** The score of one sample in the words of the specification: the mean,
    over the 24 feature columns, of the squared differences between the
    sample's scaled feature values and their reconstruction. *)
Definition spec_sample_error (features reconstruction : list Q) : Q :=
  (Qsum (map2 (fun v r => (v - r) ^ 2) features reconstruction) / 24)%Q.

(** [x] is strictly above every entry of [lo]. *)
Definition above_all (lo : list Q) (x : Q) : bool :=
  forallb (fun y => Qltb y x) lo.

(** Every entry of [hi] is strictly above every entry of [lo]. *)
Definition separated (hi lo : list Q) : bool :=
  forallb (above_all lo) hi.

(** ** Example data *)

Module Example.

(** A detector in the style of the two statistical scorers: the
    decision value of a row is an offset minus the sum of its squared
    entries, and the raw prediction is -1 where that is negative. *)
Definition decision (offset : Q) (X : matrix) : list Q :=
  map (fun r => (offset - Qsum (map (fun v => v * v) r))%Q) X.

Global Instance detector : Sklearn.OutlierDetector Q := {|
  Sklearn.predict offset X :=
    map (fun d => if Qltb d 0 then (-1)%Z else 1%Z) (decision offset X);
  Sklearn.decision_function := decision
|}.

(** A reconstruction that halves every entry. *)
Definition halve (X : matrix) : matrix := map (map (fun v => (v / 2)%Q)) X.

(** What [roc_curve] and [auc] return on the labels [[1, 0]] with the
    scores [[0.9, 0.1]]. *)
Definition roc_curve (y : list Z) (score : list Q)
  : result (list num * list num * list Q) :=
  Ok ([Fin 0; Fin 0; Fin 1], [Fin 0; Fin 1; Fin 1], [19 # 10; 9 # 10; 1 # 10]).

Definition auc (FP TP : list num) : result num := Ok (Fin 1).

Definition Xt : matrix := [[1; 2]; [3; 5]; [4; 4]; [2; 7]]%Q.
Definition Xv : matrix := [[2; 2]; [9; 1]]%Q.
Definition yv : list Z := [0; 1]%Z.

(** Two rows of 24 features. *)
Definition wide : matrix :=
  [map (fun n => inject_Z (Z.of_nat n)) (seq 0 24);
   map (fun n => inject_Z (Z.of_nat (2 * n))) (seq 0 24)].

(** A kernel in which the scaled arrays are bound. *)
Definition scaled : kernel :=
  mkKernel Xt Xv yv None (Some Xt) (Some Xv) None None None None None None.

(** 95 low scores 0..94 followed by 5 high scores 100..104. *)
Definition lo : list Q := map (fun n => inject_Z (Z.of_nat n)) (seq 0 95).
Definition hi : list Q := map (fun n => inject_Z (Z.of_nat n)) (seq 100 5).

End Example.

(** ** Further cells of the notebook *)

(** The feature columns:
    [['setting{}'.format(i) for i in range(1, 4)]] followed by
    [['s{}'.format(i) for i in range(1, 22)]]. *)
Definition features : list string :=
  map (fun i : nat => "setting" +:+ pretty i) (seq 1 3)
  ++ map (fun i : nat => "s" +:+ pretty i) (seq 1 21).

(** *** keras: the forward pass of the trained autoencoder *)

Module Keras.

(** [activation='relu']: [max(x, 0)] *)
Definition relu (x : Q) : Q := if Qltb x 0 then 0%Q else x.

(** The weights of a [Dense] layer: a kernel with one row per input and
    one column per unit, and a bias with one entry per unit. *)
Record Dense : Type := mkDense {
  dense_kernel : matrix;
  dense_bias : list Q
}.

(** [K.dot(inputs, kernel)] for one input row. *)
Definition dot (inputs : list Q) (kernel : matrix) : list Q :=
  map (fun j => Qsum (map2 Qmult inputs (column j kernel))) (seq 0 (ncols kernel)).

(** [Dense.call]: [activation(dot(inputs, kernel) + bias)] *)
Definition call (layer : Dense) (activation : Q -> Q) (inputs : list Q) : list Q :=
  map activation (map2 Qplus (dot inputs (dense_kernel layer)) (dense_bias layer)).

(** The model of the notebook: [Input], [Dense(20, activation="relu")]
    (its activity regularizer only enters the training loss),
    [Dense(len(features), activation='relu')]. *)
Record Model : Type := mkModel {
  encoder : Dense;
  decoder : Dense
}.

(** [Model.predict(X)]: every row goes through both layers. *)
Definition predict (model : Model) (X : matrix) : matrix :=
  map (fun row => call (decoder model) relu (call (encoder model) relu row)) X.

(** The weights have the shapes keras builds for [n_inputs] input
    columns and [units] hidden units. *)
Definition built (model : Model) (n_inputs units : nat) : Prop :=
  rectangular (dense_kernel (encoder model)) = true /\
  nrows (dense_kernel (encoder model)) = n_inputs /\
  ncols (dense_kernel (encoder model)) = units /\
  length (dense_bias (encoder model)) = units /\
  rectangular (dense_kernel (decoder model)) = true /\
  nrows (dense_kernel (decoder model)) = units /\
  ncols (dense_kernel (decoder model)) = n_inputs /\
  length (dense_bias (decoder model)) = n_inputs.

End Keras.

(** The part of a row's squared error no non-negative reconstruction can
    avoid: the squares of its negative entries. *)
Definition negative_energy (row : list Q) : Q :=
  Qsum (map (fun v => if Qltb v 0 then (v ^ 2)%Q else 0%Q) row).

(** *** The confusion matrix of [plot_confmat] *)

Module Metrics.

Fixpoint insert_label (x : Z) (l : list Z) : list Z :=
  match l with
  | [] => [x]
  | y :: l' =>
      if (x <? y)%Z then x :: l
      else if (x =? y)%Z then l
      else y :: insert_label x l'
  end.

(** [unique_labels(y_true, y_pred)]: the labels that occur in either
    vector, each once, in ascending order. *)
Definition unique_labels (y_true y_pred : list Z) : list Z :=
  fold_right insert_label [] (y_true ++ y_pred).

(** The number of samples with true label [li] and predicted label [lj]. *)
Definition cell (y_true y_pred : list Z) (li lj : Z) : nat :=
  length (List.filter (fun '(t, p) => (t =? li)%Z && (p =? lj)%Z)
            (combine y_true y_pred)).

(** [confusion_matrix(y_true, y_pred)] on integer labels: the vectors
    must have the same length; row [i], column [j] counts the samples
    whose true label is the [i]-th and whose predicted label is the
    [j]-th of the labels in ascending order.  Without any sample there
    is no label, and the array has no row. *)
Definition confusion_matrix (y_true y_pred : list Z) : result (list (list nat)) :=
  if negb (Nat.eqb (length y_true) (length y_pred)) then Raise ValueError
  else
    let labels := unique_labels y_true y_pred in
    Ok (map (fun li => map (fun lj => cell y_true y_pred li lj) labels) labels).

End Metrics.

(** [sns.heatmap(data, annot=True, fmt='.0f')]: the array it draws.  An
    array without entries has no smallest entry to start the colour
    scale from, which is a [ValueError]. *)
Definition heatmap (data : list (list nat)) : result (list (list nat)) :=
  match data with
  | [] => Raise ValueError
  | _ => Ok data
  end.

(** [plot_confmat(y_true, y_pred)]: the array [sns.heatmap] draws, whose
    vertical axis the function labels 'True' and whose horizontal axis
    'Predicted'. *)
Definition plot_confmat (y_true y_pred : list Z) : result (list (list nat)) :=
  conf_matrix ← Metrics.confusion_matrix y_true y_pred;
  heatmap conf_matrix.

(** The three calls of [plot_confmat]: on the results of a model of one
    of the loops, and, in the autoencoder section,
    [plot_confmat(yhat, y_validation)]. *)
Definition plot_confmat_of_results (y_validation : list Z)
    (results : gmap string (gmap string pyval)) (model_name : string)
  : option (result (list (list nat))) :=
  perf ← results !! model_name;
  v ← perf !! "yhat";
  match v with
  | PyLabels labels => Some (plot_confmat y_validation labels)
  | _ => None
  end.

Definition plot_confmat_autoencoder (yhat y_validation : list Z)
  : result (list (list nat)) :=
  plot_confmat yhat y_validation.

(** *** The class ratio and the comparison of the models

    A dictionary or index lookup that fails raises [KeyError]; the cells
    below can raise nothing else, and are modelled with [option], [None]
    standing for the [KeyError]. *)

(** [y.value_counts()]: how often each value occurs. *)
Definition value_counts (y : list Z) : gmap Z nat :=
  fold_right (fun v m => <[v := S (default 0%nat (m !! v))]> m) ∅ y.

(** [class_ratio = y_train.value_counts()[1] / len(y_train)] *)
Definition class_ratio (y_train : list Z) : option Q :=
  ones ← value_counts y_train !! 1%Z;
  Some (inject_Z (Z.of_nat ones) / inject_Z (Z.of_nat (length y_train)))%Q.

(** [results = {**results_supervised, **results_unsupervised}]: on a
    name in both, the entry of the second dictionary is kept. *)
Definition merge_results
    (results_supervised results_unsupervised : gmap string (gmap string pyval))
  : gmap string (gmap string pyval) :=
  results_unsupervised ∪ results_supervised.

(** [{ key: result[key] for key in metrics_ }] with
    [metrics_ = ['accuracy', 'AUC']] *)
Definition metrics_row (result : gmap string pyval) : option (pyval * pyval) :=
  acc ← result !! "accuracy";
  area ← result !! "AUC";
  Some (acc, area).

(** The data frame built by the loop over [results.items()]: one row per
    model, indexed by the model name (the order of the rows is not
    modelled). *)
Definition comparison_table (results : gmap string (gmap string pyval))
  : option (gmap string (pyval * pyval)) :=
  rows ← mapM (fun item : string * gmap string pyval =>
                 row ← metrics_row item.2; Some (item.1, row))
              (map_to_list results);
  Some (list_to_map rows).

Definition cell_compare
    (results_supervised results_unsupervised : gmap string (gmap string pyval))
  : option (gmap string (pyval * pyval)) :=
  comparison_table (merge_results results_supervised results_unsupervised).


(** ** Further notions used in the statements *)

(** The value [np.percentile] interpolates on a non-empty array: between
    the entries of the sorted array at the positions around the virtual
    index [q/100 * (n-1)], weighted by its fractional part. *)
Definition quantile_value (a : list Q) (q : Q) : Q :=
  let n := length a in
  let i := index_below n q in
  let w := (q / 100 * inject_Z (Z.of_nat n - 1) - inject_Z i)%Q in
  (nth (Z.to_nat i) (Numpy.sort a) 0 * (1 - w)
   + nth (Z.to_nat (Z.min (i + 1) (Z.of_nat n - 1))) (Numpy.sort a) 0 * w)%Q.

(** [(v < x)] as a predicate on [x]. *)
Definition above (v x : Q) : bool := Qltb v x.

(** The centre and the interquartile range the scaler computes for one
    column, and the scale it keeps (1 in place of a zero range). *)
Definition column_centre (col : list Q) : Q := Numpy.median col.

Definition column_iqr (col : list Q) : Q :=
  (quantile_value col 75 - quantile_value col 25)%Q.

Definition column_scale (col : list Q) : Q :=
  if Qeq_bool (column_iqr col) 0 then 1%Q else column_iqr col.

(** An array [check_array] accepts: rectangular, with at least one row
    and one column. *)
Definition well_formed (X : matrix) : Prop :=
  rectangular X = true /\ (0 < nrows X)%nat /\ (0 < ncols X)%nat.

(** The number of positions at which two label vectors agree. *)
Definition agreements (y_true y_pred : list Z) : nat :=
  length (List.filter (fun '(a, b) => (a =? b)%Z) (combine y_true y_pred)).

(** What one sample with true label [t] and predicted label [p] adds to
    the entry of the confusion matrix for the labels [li], [lj]. *)
Definition hit (t p li lj : Z) : nat :=
  if (t =? li)%Z && (p =? lj)%Z then 1%nat else 0%nat.

(** The metrics the unsupervised loop stores for one model. *)
Definition loop_metrics
    (roc_curve : list Z -> list Q -> result (list num * list num * list Q))
    (auc : list num -> list num -> result num)
    {M : Type} `{Sklearn.OutlierDetector M}
    (Xvn : matrix) (yv : list Z) (model : M) : result (gmap string pyval) :=
  performance roc_curve auc
    (unsupervised_yhat (Sklearn.predict model Xvn)) yv
    (Some (unsupervised_anomaly_score model Xvn)).

(** ** More example data *)

Module Sample.

(** A network of the notebook's shape: 24 inputs, 20 hidden units, 24
    outputs. *)
Definition model : Keras.Model :=
  Keras.mkModel
    (Keras.mkDense (repeat (repeat (1 # 24) 20) 24) (repeat 0%Q 20))
    (Keras.mkDense (repeat (repeat (1 # 20) 24) 20) (repeat (-1)%Q 24)).

(** The two statistical scorers of the notebook, by name. *)
Definition models : list (string * Q) :=
  [("OneClassSVM", 10%Q); ("RobustCovariance", 3%Q)].

(** Result dictionaries of a supervised and an unsupervised model. *)
Definition entry (acc area : Q) : gmap string pyval :=
  <["yhat" := PyLabels [1; 0]%Z]>
    (<["AUC" := PyFloat (Fin area)]>
       (<["FP_TP" := PyCurve [Fin 0; Fin 1] [Fin 0; Fin 1]]>
          {["accuracy" := PyFloat (Fin acc)]})).

Definition supervised : gmap string (gmap string pyval) :=
  {["LogisticRegression" := entry (9 # 10) (8 # 10)]}.

Definition unsupervised : gmap string (gmap string pyval) :=
  {["OneClassSVM" := entry (6 # 10) (5 # 10)]}.

End Sample.

(** ** float64 arithmetic

    The threshold is the one place of the notebook where a label depends
    on how float64 operations round: [np.percentile] interpolates
    between two scores, and the scores are then compared with the
    rounded result.  For that step the arithmetic is modelled as
    IEEE 754 binary64 does it: the exact result of an operation on
    finite numbers, rounded to the nearest number with a 53-bit
    significand (ties to the even significand), with subnormal numbers
    below [2^-1022] and overflow to an infinity from [2^1024 - 2^970]
    on.  The sign of a zero is not kept: no operation modelled here
    tells the two zeros apart. *)

Module Float64.

Inductive float64 : Type :=
| Finite (q : Q)
| Infinity (negative : bool)
| NotANumber.

Definition pow2 (e : Z) : Q := (2 ^ e)%Q.

(** The exponent of the leading binary digit of a positive number:
    [2^e <= x < 2^(e+1)]. *)
Definition exponent (x : Q) : Z :=
  let e0 := (Z.log2 (Qnum x) - Z.log2 (Zpos (Qden x)))%Z in
  if Qle_bool (pow2 e0) x then e0 else (e0 - 1)%Z.

(** The nearest integer, the even one of two that are equally near. *)
Definition nearest_even (y : Q) : Z :=
  let lo := Qfloor y in
  match (y - inject_Z lo ?= 1 # 2)%Q with
  | Lt => lo
  | Gt => (lo + 1)%Z
  | Eq => if Z.even lo then lo else (lo + 1)%Z
  end.

(** Rounding of a positive number: to the nearest multiple of the unit
    in the last place [2^u], where [u] is 52 below the exponent and at
    least -1074. *)
Definition round_pos (x : Q) : float64 :=
  let u := Z.max (exponent x - 52) (-1074) in
  let v := (inject_Z (nearest_even (x / pow2 u)) * pow2 u)%Q in
  if Qle_bool (pow2 1024) v then Infinity false else Finite (Qred v).

Definition round64 (x : Q) : float64 :=
  match (x ?= 0)%Q with
  | Eq => Finite 0
  | Gt => round_pos x
  | Lt => match round_pos (- x) with
          | Finite v => Finite (Qred (- v))
          | Infinity _ => Infinity true
          | NotANumber => NotANumber
          end
  end.

Definition mul64 (a b : float64) : float64 :=
  match a, b with
  | Finite x, Finite y => round64 (x * y)
  | Finite x, Infinity s | Infinity s, Finite x =>
      match (x ?= 0)%Q with
      | Eq => NotANumber
      | Gt => Infinity s
      | Lt => Infinity (negb s)
      end
  | Infinity s, Infinity s' => Infinity (xorb s s')
  | _, _ => NotANumber
  end.

Definition add64 (a b : float64) : float64 :=
  match a, b with
  | Finite x, Finite y => round64 (x + y)
  | Finite _, Infinity s | Infinity s, Finite _ => Infinity s
  | Infinity s, Infinity s' => if Bool.eqb s s' then Infinity s else NotANumber
  | _, _ => NotANumber
  end.

Definition opp64 (a : float64) : float64 :=
  match a with
  | Finite x => Finite (Qred (- x))
  | Infinity s => Infinity (negb s)
  | NotANumber => NotANumber
  end.

Definition sub64 (a b : float64) : float64 := add64 a (opp64 b).

Definition div64 (a b : float64) : float64 :=
  match a, b with
  | Finite x, Finite y =>
      match (y ?= 0)%Q, (x ?= 0)%Q with
      | Eq, Eq => NotANumber
      | Eq, Gt => Infinity false
      | Eq, Lt => Infinity true
      | _, _ => round64 (x / y)
      end
  | Finite _, Infinity _ => Finite 0
  | Infinity s, Finite y => Infinity (xorb s (Qltb y 0))
  | _, _ => NotANumber
  end.

(** [a < b]: false as soon as one side is nan. *)
Definition lt64 (a b : float64) : bool :=
  match a, b with
  | Finite x, Finite y => Qltb x y
  | Finite _, Infinity s => negb s
  | Infinity s, Finite _ => s
  | Infinity s, Infinity s' => s && negb s'
  | _, _ => false
  end.

(** A Python or numpy integer as a float64. *)
Definition of_int (z : Z) : float64 := round64 (inject_Z z).

(** [floor(x).astype(intp)]; what the cast makes of an infinity or a
    nan is the smallest [intp]. *)
Definition floor_intp (x : float64) : Z :=
  match x with
  | Finite q => Qfloor q
  | _ => (- 2 ^ 63)%Z
  end.

End Float64.

(** ** [np.percentile] and the binarization in float64 arithmetic *)

Module Numpy64.

Import Float64.

(** [np.percentile(a, q)] for a one-dimensional array [a] of finite
    float64 numbers and a scalar [q], default [interpolation='linear'],
    operation by operation:
    [q = np.true_divide(q, 100.0)];
    [indices = q * (Nx - 1)];
    [indices_below = floor(indices).astype(intp)];
    [indices_above = indices_below + 1], capped at [Nx - 1];
    [weights_above = indices - indices_below];
    [weights_below = 1.0 - weights_above];
    [x1 = take(ap, indices_below) * weights_below];
    [x2 = take(ap, indices_above) * weights_above];
    [r = add(x1, x2)]. *)
Definition percentile (a : list Q) (q : Q) : result float64 :=
  let q := div64 (Finite q) (Finite 100) in
  if lt64 q (Finite 0) || lt64 (Finite 1) q then Raise ValueError
  else
    let ap := Numpy.sort a in
    let Nx := Z.of_nat (length ap) in
    let indices := mul64 q (of_int (Nx - 1)) in
    let indices_below := floor_intp indices in
    let indices_above :=
      (if Nx - 1 <? indices_below + 1 then Nx - 1 else indices_below + 1)%Z in
    let weights_above := sub64 indices (of_int indices_below) in
    let weights_below := sub64 (Finite 1) weights_above in
    x1 ← Numpy.take ap indices_below;
    x2 ← Numpy.take ap indices_above;
    Ok (add64 (mul64 (Finite x1) weights_below) (mul64 (Finite x2) weights_above)).

End Numpy64.

(** ** The two scoring cells of the autoencoder section

    The cells that determine the threshold and apply it, statement by
    statement: with the names they read that an earlier cell of the
    section binds ([K], by the cell that builds the model;
    [trained_model], by the threshold cell itself), the model file, and
    the float64 arithmetic of the threshold.  The cells of the first
    sections (the imports, the definition of [performance], the loading
    of the data) are taken to have run.  The reconstruction errors are
    the exact ones of [reconstruction_mse]. *)

Module Autoencoder.

(** [[0 if imse < thresh_train else 1 for imse in val_mse]] *)
Definition threshold_yhat (thresh_train : Float64.float64) (val_mse : list Q) : list Z :=
  map (fun imse => if Float64.lt64 (Float64.Finite imse) thresh_train then 0%Z else 1%Z)
      val_mse.

(** The names of the section; [None] is a name not bound yet. *)
Record kernel : Type := mkKernel {
  K : option unit;
  X_train_norm : option matrix;
  X_validation_norm : option matrix;
  y_validation : list Z;
  trained_model : option (matrix -> matrix);
  train_mse : option (list Q);
  thresh_train : option Float64.float64;
  val_mse : option (list Q);
  yhat : option (list Z);
  out : option (gmap string pyval)
}.

Section Cells.

Variable roc_curve : list Z -> list Q -> result (list num * list num * list Q).
Variable auc : list num -> list num -> result num.

(** [load_model('model.h5')]: the [predict] of the model saved in the
    file, or the exception raised when the file cannot be loaded. *)
Variable load_model : result (matrix -> matrix).

(** The last two statements of the threshold cell,
    [thresh_train = np.percentile(train_mse, 95)] and
    [print(thresh_train)], once [trained_model] and [train_mse] have
    their values. *)
Definition bind_thresh_train (k : kernel) (model : matrix -> matrix)
    (train_mse1 : list Q) : result kernel :=
  thresh ← Numpy64.percentile train_mse1 95;
  Ok (mkKernel (K k) (X_train_norm k) (X_validation_norm k) (y_validation k)
        (Some model) (Some train_mse1) (Some thresh)
        (val_mse k) (yhat k) (out k)).

(** The threshold cell: [K.clear_session()],
    [trained_model = load_model('model.h5')],
    [train_predicted = trained_model.predict(X_train_norm)],
    [train_mse = mean_squared_error(...)], and the two statements
    above. *)
Definition cell_threshold (k : kernel) : result kernel :=
  _ ← name (K k);
  model ← load_model;
  Xtn ← name (X_train_norm k);
  train_mse1 ← reconstruction_mse model Xtn;
  bind_thresh_train k model train_mse1.

(** The validation cell.  The comprehension reads [thresh_train] once
    for every entry of [val_mse]. *)
Definition cell_validate (k : kernel) : result kernel :=
  model ← name (trained_model k);
  Xvn ← name (X_validation_norm k);
  val_mse1 ← reconstruction_mse model Xvn;
  yhat1 ← match val_mse1 with
          | [] => Ok []
          | _ => thresh ← name (thresh_train k); Ok (threshold_yhat thresh val_mse1)
          end;
  perf ← performance roc_curve auc yhat1 (y_validation k) None;
  Ok (mkKernel (K k) (X_train_norm k) (X_validation_norm k) (y_validation k)
        (trained_model k) (train_mse k) (thresh_train k)
        (Some val_mse1) (Some yhat1) (Some perf)).

End Cells.

End Autoencoder.

(** ** Notions used in the statements about the float64 threshold *)

(** The 95th of a hundred: [q = 95 / 100.0] as float64. *)
Definition q95 : Float64.float64 :=
  Float64.div64 (Float64.Finite 95) (Float64.Finite 100).

(** The virtual index [q * (n - 1)] of the 95th percentile of [n]
    scores, and the weight of the upper neighbour, as float64. *)
Definition indices95 (n : nat) : Float64.float64 :=
  Float64.mul64 q95 (Float64.of_int (Z.of_nat n - 1)).

Definition weights_above95 (n : nat) : Float64.float64 :=
  Float64.sub64 (indices95 n) (Float64.of_int (Float64.floor_intp (indices95 n))).

(** The float64 interpolation between two scores [x1 <= x2] with the
    weight [w] on the upper one: [x1 * (1.0 - w) + x2 * w], every
    operation rounded. *)
Definition interpolate64 (x1 x2 : Q) (w : Float64.float64) : Float64.float64 :=
  Float64.add64
    (Float64.mul64 (Float64.Finite x1) (Float64.sub64 (Float64.Finite 1) w))
    (Float64.mul64 (Float64.Finite x2) w).

(** The value of the 95th percentile of a non-empty list in float64
    arithmetic, in terms of the sorted scores: the interpolation between
    the score at the position [floor(indices)] and the next one (the
    last score, if there is no next). *)
Definition percentile95_64 (scores : list Q) : Float64.float64 :=
  let n := length scores in
  let i := Float64.floor_intp (indices95 n) in
  interpolate64
    (nth (Z.to_nat i) (Numpy.sort scores) 0%Q)
    (nth (Z.to_nat (Z.min (i + 1) (Z.of_nat n - 1))) (Numpy.sort scores) 0%Q)
    (weights_above95 n).

(** The number of labels 1. *)
Definition positives (labels : list Z) : nat := count_occ Z.eq_dec labels 1%Z.

(** A hundred scores that are float64 numbers: 94 small ones, then
    [10^16], and five scores from [10^16 + 2] on.  Next to [10^16] the
    float64 numbers are 2 apart. *)
Module Close.

Definition lo : list Q :=
  map (fun n => inject_Z (Z.of_nat n)) (seq 0 94) ++ [inject_Z (10 ^ 16)].

Definition hi : list Q :=
  map (fun n => inject_Z (10 ^ 16 + 2 * Z.of_nat n)) (seq 1 5).

Definition scores : list Q := lo ++ hi.

End Close.

(** States of the autoencoder section: after the cell that builds the
    model and the preprocessing have run, and in a fresh kernel in which
    only the data are loaded. *)
Module Session.

Definition built : Autoencoder.kernel :=
  Autoencoder.mkKernel (Some tt) (Some Example.Xt) (Some Example.Xv) Example.yv
    None None None None None None.

Definition fresh : Autoencoder.kernel :=
  Autoencoder.mkKernel None None None Example.yv None None None None None None.

End Session.

(** A bound on the distance between a non-negative number and its
    float64 rounding: half a unit in the last place, which is at most
    [2^-53] of the number, or [2^-1075] for a subnormal one. *)
Definition rounding_error (x : Q) : Q :=
  (x * Float64.pow2 (-53) + Float64.pow2 (-1075))%Q.

(** [2^-53] *)
Definition epsilon : Q := 1 # 9007199254740992.

(** * Properties *)

(** ** Sorting and the percentile *)

Lemma Qltb_lt (a b : Q) : Qltb a b = true <-> (a < b)%Q.
Proof.
  unfold Qltb. rewrite negb_true_iff. split.
  - intros Hb. apply Qnot_le_lt. intros Hle.
    apply Qle_bool_iff in Hle. congruence.
  - intros Hlt. destruct (Qle_bool b a) eqn:E; [|reflexivity].
    apply Qle_bool_iff in E. lra.
Qed.

Lemma Qltb_ge (a b : Q) : Qltb a b = false <-> (b <= a)%Q.
Proof.
  unfold Qltb. rewrite negb_false_iff. apply Qle_bool_iff.
Qed.

Lemma insert_sorted_perm (x : Q) (l : list Q) :
  Permutation (Numpy.insert_sorted x l) (x :: l).
Proof.
  induction l as [|y l IH]; simpl.
  - apply Permutation_refl.
  - destruct (Qle_bool x y).
    + apply Permutation_refl.
    + eapply perm_trans; [apply perm_skip, IH | apply perm_swap].
Qed.

Lemma sort_perm (a : list Q) : Permutation (Numpy.sort a) a.
Proof.
  induction a as [|x a IH]; simpl.
  - apply perm_nil.
  - eapply perm_trans; [apply insert_sorted_perm | apply perm_skip, IH].
Qed.

Lemma sort_length (a : list Q) : length (Numpy.sort a) = length a.
Proof. apply Permutation_length, sort_perm. Qed.

Lemma insert_sorted_sorted (x : Q) (l : list Q) :
  StronglySorted Qle l -> StronglySorted Qle (Numpy.insert_sorted x l).
Proof.
  induction 1 as [|y l Hs IH Hall]; simpl.
  - repeat constructor.
  - destruct (Qle_bool x y) eqn:E.
    + apply Qle_bool_iff in E.
      constructor; [constructor; assumption|].
      constructor; [assumption|].
      eapply Forall_impl; [exact Hall|]. intros z Hz. simpl in Hz. lra.
    + assert (Hyx : (y <= x)%Q).
      { destruct (Qlt_le_dec y x) as [Hlt|Hle]; [lra|].
        apply Qle_bool_iff in Hle. congruence. }
      constructor; [exact IH|].
      eapply Permutation_Forall.
      * apply Permutation_sym, insert_sorted_perm.
      * constructor; assumption.
Qed.

Lemma sort_sorted (a : list Q) : StronglySorted Qle (Numpy.sort a).
Proof.
  induction a as [|x a IH]; simpl.
  - constructor.
  - apply insert_sorted_sorted, IH.
Qed.

Lemma sorted_nth_le (s : list Q) :
  StronglySorted Qle s ->
  forall i j, (i <= j)%nat -> (j < length s)%nat ->
              (nth i s 0 <= nth j s 0)%Q.
Proof.
  induction 1 as [|x s Hs IH Hall]; intros i j Hij Hj; simpl in Hj.
  - lia.
  - destruct i as [|i], j as [|j]; simpl; try lia.
    + lra.
    + rewrite Forall_forall in Hall. apply Hall, list_elem_of_In, nth_In. lia.
    + apply IH; lia.
Qed.

Lemma take_nat (ap : list Q) (i : Z) :
  (0 <= i < Z.of_nat (length ap))%Z ->
  Numpy.take ap i = Ok (nth (Z.to_nat i) ap 0%Q).
Proof.
  intros Hi. unfold Numpy.take.
  replace ((i <? - Z.of_nat (length ap)) || (Z.of_nat (length ap) <=? i))%Z
    with false by (symmetry; apply orb_false_iff; split; lia).
  replace (i <? 0)%Z with false by (symmetry; lia).
  reflexivity.
Qed.

Lemma index_below_range (n : nat) (q : Q) :
  (0 < n)%nat -> (0 <= q)%Q -> (q <= 100)%Q ->
  (0 <= index_below n q <= Z.of_nat n - 1)%Z.
Proof.
  intros Hn H0 H100. unfold index_below.
  set (m := (Z.of_nat n - 1)%Z).
  assert (Hm : (0 <= inject_Z m)%Q).
  { unfold Qle; simpl. subst m. lia. }
  assert (Hlo : (0 <= q / 100 * inject_Z m)%Q).
  { apply Qmult_le_0_compat; [|exact Hm].
    apply Qle_shift_div_l; lra. }
  assert (Hhi : (q / 100 * inject_Z m <= inject_Z m)%Q).
  { rewrite <- (Qmult_1_l (inject_Z m)) at 2.
    apply Qmult_le_compat_r; [|exact Hm].
    apply Qle_shift_div_r; lra. }
  split.
  - pose proof (Qfloor_resp_le _ _ Hlo) as Hf.
    change (Qfloor 0) with 0%Z in Hf. exact Hf.
  - pose proof (Qfloor_resp_le _ _ Hhi) as Hf.
    rewrite Qfloor_Z in Hf. exact Hf.
Qed.

(** What [np.percentile] returns on a non-empty array. *)
Lemma percentile_nonempty (a : list Q) (q : Q) :
  a <> [] -> (0 <= q)%Q -> (q <= 100)%Q ->
  let n := length a in
  let i := index_below n q in
  let w := (q / 100 * inject_Z (Z.of_nat n - 1) - inject_Z i)%Q in
  Numpy.percentile a q =
    Ok (nth (Z.to_nat i) (Numpy.sort a) 0 * (1 - w)
        + nth (Z.to_nat (Z.min (i + 1) (Z.of_nat n - 1))) (Numpy.sort a) 0 * w)%Q.
Proof.
  intros Hne H0 H100. cbv zeta.
  assert (Hn : (0 < length a)%nat).
  { destruct a; [congruence | simpl; lia]. }
  pose proof (index_below_range (length a) q Hn H0 H100) as Hi.
  unfold Numpy.percentile.
  assert (Hq : Qle_bool 0 (q / 100) && Qle_bool (q / 100) 1 = true).
  { apply andb_true_iff; split; apply Qle_bool_iff.
    - apply Qle_shift_div_l; lra.
    - apply Qle_shift_div_r; lra. }
  rewrite Hq. simpl negb. cbv iota.
  rewrite sort_length.
  change (Qfloor (q / 100 * inject_Z (Z.of_nat (length a) - 1)))
    with (index_below (length a) q).
  set (i := index_below (length a) q) in *.
  assert (Habove : (if (Z.of_nat (length a) - 1 <? i + 1)%Z
                    then (Z.of_nat (length a) - 1)%Z
                    else (i + 1)%Z) = Z.min (i + 1) (Z.of_nat (length a) - 1)).
  { destruct (Z.ltb_spec (Z.of_nat (length a) - 1) (i + 1)); lia. }
  rewrite Habove.
  rewrite !take_nat by (rewrite sort_length; lia).
  reflexivity.
Qed.

(** ** Thresholding *)

(** C1: the thresholding step labels a score 1 (anomaly) exactly when it
    is greater than or equal to the threshold and 0 (normal) exactly when
    it is strictly below; a score equal to the threshold is labelled 1.
    This holds for any threshold, so for the one computed from the
    training scores. *)
Theorem threshold_yhat_boundary_inclusive
    (thresh_train : Q) (val_mse : list Q) (i : nat) (imse : Q) :
  nth_error val_mse i = Some imse ->
  exists label,
    nth_error (threshold_yhat thresh_train val_mse) i = Some label /\
    (label = 1%Z <-> (thresh_train <= imse)%Q) /\
    (label = 0%Z <-> (imse < thresh_train)%Q) /\
    ((imse == thresh_train)%Q -> label = 1%Z).
Proof.
  intros Hi. unfold threshold_yhat.
  exists (if Qltb imse thresh_train then 0%Z else 1%Z).
  split; [rewrite nth_error_map, Hi; reflexivity|].
  destruct (Qltb imse thresh_train) eqn:E.
  - apply Qltb_lt in E. repeat split; intros; try lra; try discriminate.
  - apply Qltb_ge in E. repeat split; intros; try lra; try discriminate.
Qed.

(** C10: both binarizations give exactly one label per input entry, and
    every label is 0 or 1. *)
Theorem yhat_total_and_binary (pred : list Z) (thresh_train : Q) (val_mse : list Q) :
  (length (unsupervised_yhat pred) = length pred /\
   Forall is_label (unsupervised_yhat pred)) /\
  (length (threshold_yhat thresh_train val_mse) = length val_mse /\
   Forall is_label (threshold_yhat thresh_train val_mse)).
Proof.
  unfold unsupervised_yhat, Numpy.where_, Numpy.eq_scalar, threshold_yhat.
  repeat split.
  - rewrite !length_map. reflexivity.
  - rewrite map_map. apply Forall_forall. intros l Hl.
    apply list_elem_of_In, in_map_iff in Hl. destruct Hl as [p [<- _]].
    unfold is_label. destruct (p =? -1)%Z; auto.
  - apply length_map.
  - apply Forall_forall. intros l Hl.
    apply list_elem_of_In, in_map_iff in Hl. destruct Hl as [x [<- _]].
    unfold is_label. destruct (Qltb x thresh_train); auto.
Qed.

(** ** The statistical scorers *)

(** C5: for every row, the anomaly score is the negated decision value,
    and the label is 1 for a raw prediction of -1 and 0 for any other. *)
Theorem unsupervised_score_and_label
    {M : Type} `{Sklearn.OutlierDetector M} (model : M) (X : matrix) (i : nat) :
  (forall d, nth_error (Sklearn.decision_function model X) i = Some d ->
             nth_error (unsupervised_anomaly_score model X) i = Some (- d)%Q) /\
  (forall p, nth_error (Sklearn.predict model X) i = Some p ->
             exists label,
               nth_error (unsupervised_yhat (Sklearn.predict model X)) i = Some label /\
               (p = (-1)%Z -> label = 1%Z) /\
               (p <> (-1)%Z -> label = 0%Z)).
Proof.
  split.
  - intros d Hd. unfold unsupervised_anomaly_score.
    rewrite nth_error_map, Hd. reflexivity.
  - intros p Hp. exists (if (p =? -1)%Z then 1%Z else 0%Z). split.
    + unfold unsupervised_yhat, Numpy.where_, Numpy.eq_scalar.
      rewrite map_map, nth_error_map, Hp. reflexivity.
    + destruct (Z.eqb_spec p (-1)); split; intros; congruence.
Qed.

(** ** Evaluation *)

Lemma accuracy_score_eq (y_true y_pred : list Z) :
  length y_true = length y_pred ->
  Sklearn.accuracy_score y_true y_pred = Ok (Numpy.mean (map2 agree y_true y_pred)).
Proof.
  intros Hlen. unfold Sklearn.accuracy_score.
  rewrite Hlen, Nat.eqb_refl. reflexivity.
Qed.

Lemma Qsum_agree_same (y : list Z) :
  (Qsum (map2 agree y y) == inject_Z (Z.of_nat (length y)))%Q.
Proof.
  induction y as [|a y IH].
  - reflexivity.
  - cbn [map2 Qsum fold_right length]. fold (Qsum (map2 agree y y)).
    rewrite IH. unfold agree. rewrite Z.eqb_refl.
    rewrite Nat2Z.inj_succ, <- Z.add_1_l, inject_Z_plus. reflexivity.
Qed.

Lemma Qsum_agree_inverted (y : list Z) :
  (Qsum (map2 agree y (map (fun b => 1 - b)%Z y)) == 0)%Q.
Proof.
  induction y as [|a y IH].
  - reflexivity.
  - cbn [map map2 Qsum fold_right].
    fold (Qsum (map2 agree y (map (fun b => (1 - b)%Z) y))).
    rewrite IH. unfold agree.
    destruct (Z.eqb_spec a (1 - a)); [lia | reflexivity].
Qed.

Lemma map2_length {A B C : Type} (f : A -> B -> C) (l : list A) (l' : list B) :
  length l = length l' -> length (map2 f l l') = length l.
Proof.
  revert l'. induction l as [|a l IH]; intros [|b l'] Hlen; simpl in *;
    try reflexivity; try discriminate.
  f_equal. apply IH. lia.
Qed.

Lemma mean_nonempty (a : list Q) :
  a <> [] -> Numpy.mean a = Fin (Qsum a / inject_Z (Z.of_nat (length a))).
Proof. destruct a; [congruence | reflexivity]. Qed.

(** C8: on a non-empty label list, predictions equal to the true labels
    have accuracy 1, and predictions that invert every binary true label
    have accuracy 0 (whatever the class proportions, so also with
    balanced classes). *)
Theorem accuracy_perfect_and_inverted
    (roc_curve : list Z -> list Q -> result (list num * list num * list Q))
    (auc : list num -> list num -> result num) (y : list Z) :
  y <> [] ->
  (exists acc, performance roc_curve auc y y None
                 = Ok {["accuracy" := PyFloat (Fin acc)]} /\
               Sklearn.accuracy_score y y = Ok (Fin acc) /\ (acc == 1)%Q) /\
  (Forall is_label y ->
   exists acc, performance roc_curve auc (map (fun b => 1 - b)%Z y) y None
                 = Ok {["accuracy" := PyFloat (Fin acc)]} /\
               Sklearn.accuracy_score y (map (fun b => 1 - b)%Z y) = Ok (Fin acc) /\
               (acc == 0)%Q).
Proof.
  intros Hne.
  assert (Hpos : ~ (inject_Z (Z.of_nat (length y)) == 0)%Q).
  { destruct y; [congruence|]. unfold Qeq; simpl. lia. }
  split.
  - eexists. unfold performance.
    rewrite accuracy_score_eq by reflexivity.
    rewrite mean_nonempty by (destruct y; [congruence | discriminate]).
    split; [reflexivity|]. split; [reflexivity|].
    rewrite map2_length by reflexivity.
    rewrite Qsum_agree_same. field. exact Hpos.
  - intros _. eexists. unfold performance.
    rewrite accuracy_score_eq by (rewrite length_map; reflexivity).
    rewrite mean_nonempty by (destruct y; [congruence | discriminate]).
    split; [reflexivity|]. split; [reflexivity|].
    rewrite Qsum_agree_inverted. field.
    rewrite map2_length by (rewrite length_map; reflexivity). exact Hpos.
Qed.

(** C4 (as the code has it): on equally long label vectors, and when the
    curve and area computations return for a supplied score,
    [performance] returns a mapping whose entries are exactly: the
    accuracy; and, if and only if a score is supplied, the FP/TP curve,
    its area and the predicted labels under "yhat". *)
Theorem performance_entries
    (roc_curve : list Z -> list Q -> result (list num * list num * list Q))
    (auc : list num -> list num -> result num)
    (yhat y : list Z) (score : option (list Q)) :
  length y = length yhat ->
  (forall s, score = Some s ->
     exists FP TP th a, roc_curve y s = Ok (FP, TP, th) /\ auc FP TP = Ok a) ->
  exists m acc,
    performance roc_curve auc yhat y score = Ok m /\
    Sklearn.accuracy_score y yhat = Ok acc /\
    m !! "accuracy" = Some (PyFloat acc) /\
    (forall key, is_Some (m !! key) <->
       key = "accuracy" \/
       (is_Some score /\ (key = "FP_TP" \/ key = "AUC" \/ key = "yhat"))) /\
    (forall s FP TP th a,
       score = Some s -> roc_curve y s = Ok (FP, TP, th) -> auc FP TP = Ok a ->
       m !! "FP_TP" = Some (PyCurve FP TP) /\
       m !! "AUC" = Some (PyFloat a) /\
       m !! "yhat" = Some (PyLabels yhat)).
Proof.
  intros Hlen Hroc. unfold performance.
  rewrite (accuracy_score_eq y yhat Hlen). simpl.
  destruct score as [s|].
  - destruct (Hroc s eq_refl) as (FP & TP & th & a & Hr & Ha).
    rewrite Hr. simpl. rewrite Ha. simpl.
    eexists _, _. split; [reflexivity|]. split; [reflexivity|].
    split; [by simplify_map_eq|]. split.
    + intros key. rewrite <- elem_of_dom, !dom_insert_L, dom_empty_L.
      rewrite !elem_of_union, !elem_of_singleton, elem_of_empty.
      split.
      * intros [->|[->|[->|[->|[]]]]]; eauto 6.
      * intros [->|[_ [->|[->| ->]]]]; auto 6.
    + intros s' FP' TP' th' a' Hs' Hr' Ha'.
      injection Hs' as <-. rewrite Hr in Hr'. injection Hr' as <- <- <-.
      rewrite Ha in Ha'. injection Ha' as <-.
      by simplify_map_eq.
  - eexists _, _. split; [reflexivity|]. split; [reflexivity|].
    split; [by simplify_map_eq|]. split.
    + intros key. rewrite <- elem_of_dom, dom_insert_L, dom_empty_L.
      rewrite elem_of_union, elem_of_singleton, elem_of_empty.
      split.
      * intros [->|[]]. auto.
      * intros [->|[[? ?] _]]; [auto | discriminate].
    + intros s' FP' TP' th' a' Hs'. discriminate.
Qed.

(** ** Arrays and their transposes *)

Lemma rectangular_row (m : matrix) (r : list Q) :
  rectangular m = true -> In r m -> length r = ncols m.
Proof.
  unfold rectangular. rewrite forallb_forall. intros Hall Hin.
  apply Nat.eqb_eq, Hall, Hin.
Qed.

Lemma rectangular_nth (m : matrix) (j : nat) :
  rectangular m = true -> (j < nrows m)%nat -> length (nth j m []) = ncols m.
Proof.
  intros Hrect Hj. apply rectangular_row; [exact Hrect|].
  apply nth_In. exact Hj.
Qed.

Lemma column_length (j : nat) (m : matrix) : length (column j m) = nrows m.
Proof. apply length_map. Qed.

Lemma column_nth (i j : nat) (m : matrix) :
  nth j (column i m) 0%Q = nth i (nth j m []) 0%Q.
Proof.
  unfold column.
  rewrite <- (map_nth (fun r => nth i r 0%Q) m [] j).
  destruct i; reflexivity.
Qed.

Lemma transpose_nrows (m : matrix) : nrows (transpose m) = ncols m.
Proof. unfold nrows, transpose. rewrite length_map, length_seq. reflexivity. Qed.

Lemma transpose_ncols (m : matrix) :
  (0 < ncols m)%nat -> ncols (transpose m) = nrows m.
Proof.
  intros Hc. unfold transpose.
  destruct (ncols m) as [|c]; [lia|].
  simpl. apply column_length.
Qed.

Lemma transpose_rectangular (m : matrix) : rectangular (transpose m) = true.
Proof.
  destruct (Nat.eq_dec (ncols m) 0) as [Hz|Hnz].
  - unfold transpose. rewrite Hz. reflexivity.
  - unfold rectangular. apply forallb_forall. intros r Hr.
    rewrite transpose_ncols by lia.
    unfold transpose in Hr. apply in_map_iff in Hr.
    destruct Hr as [j [<- _]]. apply Nat.eqb_eq, column_length.
Qed.

Lemma check_array_transpose (m : matrix) :
  (0 < nrows m)%nat -> (0 < ncols m)%nat ->
  Sklearn.check_array (transpose m) = Ok (transpose m).
Proof.
  intros Hr Hc. unfold Sklearn.check_array.
  rewrite transpose_rectangular, transpose_nrows, transpose_ncols by exact Hc.
  destruct (Nat.eqb_spec (ncols m) 0); [lia|].
  destruct (Nat.eqb_spec (nrows m) 0); [lia|].
  reflexivity.
Qed.

Lemma map2_map_map {A B C D : Type} (f : B -> C -> D) (g : A -> B) (h : A -> C)
    (l : list A) :
  map2 f (map g l) (map h l) = map (fun a => f (g a) (h a)) l.
Proof.
  induction l as [|a l IH]; simpl; [reflexivity|]. rewrite IH. reflexivity.
Qed.

Lemma map2_nth {A B C : Type} (f : A -> B -> C) (l : list A) (l' : list B)
    (da : A) (db : B) (dc : C) (j : nat) :
  (j < length l)%nat -> (j < length l')%nat ->
  nth j (map2 f l l') dc = f (nth j l da) (nth j l' db).
Proof.
  revert l' j. induction l as [|a l IH]; intros [|b l'] j Hl Hl'; simpl in *;
    try lia.
  destruct j as [|j]; [reflexivity|]. apply IH; lia.
Qed.

Lemma map2_seq {A B C : Type} (f : A -> B -> C) (l : list A) (l' : list B)
    (da : A) (db : B) :
  length l = length l' ->
  map2 f l l' = map (fun j => f (nth j l da) (nth j l' db)) (seq 0 (length l)).
Proof.
  revert l'. induction l as [|a l IH]; intros [|b l'] Hlen; simpl in *;
    try reflexivity; try discriminate.
  f_equal. rewrite <- seq_shift, map_map. apply IH. lia.
Qed.

(** The squared differences of two transposed arrays, averaged over
    axis 0, are the row-wise means of the squared differences. *)
Lemma average_axis0_transposed (P X : matrix) :
  rectangular P = true -> rectangular X = true ->
  nrows P = nrows X -> ncols P = ncols X ->
  (0 < nrows X)%nat -> (0 < ncols X)%nat ->
  Numpy.average_axis0 (map2 (map2 sqdiff) (transpose P) (transpose X))
  = map2 (fun p x => (Qsum (map2 sqdiff p x) / inject_Z (Z.of_nat (ncols X)))%Q) P X.
Proof.
  intros HrP HrX Hn Hc Hnpos Hcpos.
  unfold transpose at 1 2. rewrite Hc, map2_map_map.
  unfold Numpy.average_axis0.
  set (m := map _ (seq 0 (ncols X))).
  assert (Hnr : nrows m = ncols X).
  { unfold nrows, m. rewrite length_map, length_seq. reflexivity. }
  assert (Hnc : ncols m = nrows X).
  { unfold m. destruct (ncols X) as [|c]; [lia|]. simpl.
    rewrite map2_length; rewrite !column_length; auto. }
  rewrite Hnr, Hnc.
  rewrite (map2_seq _ P X [] []) by exact Hn.
  unfold nrows in Hn. rewrite Hn. fold (nrows X).
  apply map_ext_in. intros j Hj. apply in_seq in Hj.
  f_equal. f_equal.
  assert (HPj : length (nth j P []) = ncols X).
  { rewrite <- Hc. apply rectangular_nth; [exact HrP|]. unfold nrows in *. lia. }
  assert (HXj : length (nth j X []) = ncols X).
  { apply rectangular_nth; [exact HrX|]. unfold nrows in *. lia. }
  rewrite (map2_seq sqdiff (nth j P []) (nth j X []) 0%Q 0%Q) by congruence.
  rewrite HPj. unfold column at 1, m. rewrite map_map.
  apply map_ext. intros i.
  rewrite (map2_nth sqdiff _ _ 0%Q 0%Q)
    by (rewrite column_length; unfold nrows in *; lia).
  rewrite !column_nth. reflexivity.
Qed.

(** ** The reconstruction error *)

Lemma map2_nth_error {A B C : Type} (f : A -> B -> C) (l : list A) (l' : list B)
    (j : nat) (a : A) (b : B) :
  nth_error l j = Some a -> nth_error l' j = Some b ->
  nth_error (map2 f l l') j = Some (f a b).
Proof.
  revert l' j. induction l as [|x l IH]; intros [|y l'] [|j] Ha Hb; simpl in *;
    try discriminate.
  - congruence.
  - apply IH; assumption.
Qed.

Lemma Qsum_sqdiff_sym (p x : list Q) :
  (Qsum (map2 sqdiff p x) == Qsum (map2 (fun v r => (v - r) ^ 2) x p))%Q.
Proof.
  revert x. induction p as [|a p IH]; intros [|b x]; try reflexivity.
  cbn [map2 Qsum fold_right].
  fold (Qsum (map2 sqdiff p x)).
  fold (Qsum (map2 (fun v r => (v - r) ^ 2)%Q x p)).
  rewrite IH. unfold sqdiff. simpl. ring.
Qed.

Lemma reconstruction_mse_rows (predict : matrix -> matrix) (X : matrix) :
  rectangular X = true -> (0 < nrows X)%nat -> (0 < ncols X)%nat ->
  rectangular (predict X) = true ->
  nrows (predict X) = nrows X -> ncols (predict X) = ncols X ->
  reconstruction_mse predict X
  = Ok (map2 (fun p x => (Qsum (map2 sqdiff p x) / inject_Z (Z.of_nat (ncols X)))%Q)
             (predict X) X).
Proof.
  intros HrX Hn Hc HrP HnP HcP.
  unfold reconstruction_mse, Sklearn.mean_squared_error.
  rewrite !transpose_nrows, HcP, Nat.eqb_refl. simpl negb. cbv iota.
  rewrite !check_array_transpose by lia. simpl.
  rewrite !transpose_ncols, HnP, Nat.eqb_refl by lia. simpl.
  f_equal. apply average_axis0_transposed; assumption.
Qed.

(** C7: the score of every sample is the mean over the 24 feature
    columns of the squared differences between its scaled feature values
    and the model's reconstruction of them, one score per row. *)
Theorem reconstruction_mse_per_sample (predict : matrix -> matrix) (X : matrix) :
  rectangular X = true -> (0 < nrows X)%nat -> ncols X = 24%nat ->
  rectangular (predict X) = true ->
  nrows (predict X) = nrows X -> ncols (predict X) = 24%nat ->
  exists scores,
    reconstruction_mse predict X = Ok scores /\
    length scores = nrows X /\
    forall j features reconstruction,
      nth_error X j = Some features ->
      nth_error (predict X) j = Some reconstruction ->
      exists s, nth_error scores j = Some s /\
                (s == spec_sample_error features reconstruction)%Q.
Proof.
  intros HrX Hn Hc HrP HnP HcP.
  eexists. split; [apply reconstruction_mse_rows; try assumption; lia|].
  split; [rewrite map2_length; [exact HnP | exact HnP]|].
  intros j features reconstruction Hf Hr.
  eexists. split; [apply (map2_nth_error _ _ _ _ _ _ Hr Hf)|].
  unfold spec_sample_error. rewrite Hc, Qsum_sqdiff_sym. reflexivity.
Qed.

(** ** What the validation cell needs and binds *)

Lemma bind_Ok_inv {A B : Type} (r : result A) (f : A -> result B) (b : B) :
  r ≫= f = Ok b -> exists a, r = Ok a /\ f a = Ok b.
Proof.
  destruct r as [a|e]; simpl; [eauto | discriminate].
Qed.

Lemma name_Ok_inv {A : Type} (v : option A) (a : A) : name v = Ok a -> v = Some a.
Proof. destruct v; simpl; congruence. Qed.

Lemma cell_validate_inv
    (roc_curve : list Z -> list Q -> result (list num * list num * list Q))
    (auc : list num -> list num -> result num)
    (predict : matrix -> matrix) (k k' : kernel) :
  cell_validate roc_curve auc predict k = Ok k' ->
  exists Xvn scores t,
    X_validation_norm k = Some Xvn /\
    reconstruction_mse predict Xvn = Ok scores /\
    thresh_train k = Some t /\
    val_mse k' = Some scores /\
    yhat k' = Some (threshold_yhat t scores) /\
    thresh_train k' = Some t /\
    scaler k' = scaler k /\ train_mse k' = train_mse k.
Proof.
  unfold cell_validate. intros Hc.
  apply bind_Ok_inv in Hc. destruct Hc as (Xvn & HX & Hc).
  apply bind_Ok_inv in Hc. destruct Hc as (scores & Hs & Hc).
  apply bind_Ok_inv in Hc. destruct Hc as (t & Ht & Hc).
  apply bind_Ok_inv in Hc. destruct Hc as (perf & _ & Hc).
  injection Hc as <-. simpl.
  apply name_Ok_inv in HX, Ht.
  exists Xvn, scores, t. repeat split; assumption.
Qed.

(** ** The scaler *)

Lemma check_array_ok (X : matrix) :
  rectangular X = true -> (0 < nrows X)%nat -> (0 < ncols X)%nat ->
  Sklearn.check_array X = Ok X.
Proof.
  intros Hr Hn Hc. unfold Sklearn.check_array. rewrite Hr. simpl.
  destruct (Nat.eqb_spec (nrows X) 0); [lia|].
  destruct (Nat.eqb_spec (ncols X) 0); [lia|].
  reflexivity.
Qed.

Lemma mapM_Ok {A B : Type} (f : A -> result B) (l : list A) :
  (forall a, In a l -> exists b, f a = Ok b) ->
  exists bs, mapM f l = Ok bs /\ length bs = length l.
Proof.
  induction l as [|a l IH]; intros Hall.
  - exists []. split; reflexivity.
  - destruct (Hall a (or_introl eq_refl)) as [b Hb].
    destruct IH as (bs & Hbs & Hlen).
    { intros a' Ha'. apply Hall. right. exact Ha'. }
    exists (b :: bs). split.
    + simpl. rewrite Hb. simpl. rewrite Hbs. reflexivity.
    + simpl. rewrite Hlen. reflexivity.
Qed.

Lemma fit_ok (X : matrix) :
  rectangular X = true -> (0 < nrows X)%nat -> (0 < ncols X)%nat ->
  exists center scale,
    Sklearn.fit Sklearn.RobustScaler_new X
    = Ok (Sklearn.mkRobustScaler (Some center) (Some scale)) /\
    length center = ncols X /\ length scale = ncols X.
Proof.
  intros Hr Hn Hc. unfold Sklearn.fit.
  rewrite (check_array_ok X Hr Hn Hc). simpl.
  match goal with
  | |- context [mapM ?f ?l] => destruct (mapM_Ok f l) as (qs & Hqs & Hlen)
  end.
  { intros j _.
    assert (Hne : column j X <> []).
    { intros Hnil. pose proof (column_length j X) as Hl.
      rewrite Hnil in Hl. simpl in Hl. lia. }
    rewrite (percentile_nonempty (column j X) 25 Hne) by lra. simpl.
    rewrite (percentile_nonempty (column j X) 75 Hne) by lra. simpl.
    eexists. reflexivity. }
  rewrite Hqs. simpl. eexists _, _. split; [reflexivity|].
  unfold Sklearn.handle_zeros_in_scale.
  rewrite !length_map, length_seq, Hlen, length_seq. split; reflexivity.
Qed.

Lemma broadcast_ok (op : Q -> Q -> Q) (X : matrix) (v : list Q) :
  length v = ncols X ->
  rectangular X = true ->
  Sklearn.broadcast op X v = Ok (map (fun r => map2 op r v) X) /\
  rectangular (map (fun r => map2 op r v) X) = true /\
  nrows (map (fun r => map2 op r v) X) = nrows X /\
  ncols (map (fun r => map2 op r v) X) = ncols X.
Proof.
  intros Hv Hr. unfold Sklearn.broadcast. rewrite Hv, Nat.eqb_refl.
  split; [reflexivity|].
  assert (Hrow : forall r, In r X -> length (map2 op r v) = ncols X).
  { intros r Hin. rewrite map2_length; rewrite (rectangular_row X r Hr Hin); auto. }
  assert (Hc : ncols (map (fun r => map2 op r v) X) = ncols X).
  { destruct X as [|r X]; [reflexivity|]. simpl.
    apply (Hrow r). left. reflexivity. }
  split; [|split; [apply length_map | exact Hc]].
  unfold rectangular. apply forallb_forall. intros r' Hr'.
  apply in_map_iff in Hr'. destruct Hr' as (r & <- & Hin).
  rewrite Hc. apply Nat.eqb_eq, Hrow, Hin.
Qed.

Lemma transform_ok (center scale : list Q) (X : matrix) :
  rectangular X = true -> (0 < nrows X)%nat -> (0 < ncols X)%nat ->
  length center = ncols X -> length scale = ncols X ->
  exists Y, Sklearn.transform (Sklearn.mkRobustScaler (Some center) (Some scale)) X
            = Ok Y /\ nrows Y = nrows X /\ ncols Y = ncols X /\
            rectangular Y = true.
Proof.
  intros Hr Hn Hc Hce Hsc. unfold Sklearn.transform. simpl.
  rewrite (check_array_ok X Hr Hn Hc). simpl.
  destruct (broadcast_ok Qminus X center Hce Hr) as (Hb & Hr1 & Hn1 & Hc1).
  rewrite Hb. simpl.
  destruct (broadcast_ok Qdiv (map (fun r => map2 Qminus r center) X) scale)
    as (Hb2 & Hr2 & Hn2 & Hc2); [congruence | exact Hr1 |].
  rewrite Hb2. eexists. split; [reflexivity|].
  repeat split; congruence.
Qed.

Lemma foldM_invariant {S A B : Type} (f : S -> A -> result S) (g : S -> B)
    (l : list A) :
  (forall s a s', f s a = Ok s' -> g s' = g s) ->
  forall s s', foldM f s l = Ok s' -> g s' = g s.
Proof.
  intros Hf. induction l as [|a l IH]; intros s s' Hs; simpl in Hs.
  - congruence.
  - apply bind_Ok_inv in Hs. destruct Hs as (s1 & H1 & H2).
    rewrite (IH _ _ H2). apply (Hf _ _ _ H1).
Qed.

Lemma cell_unsupervised_scaler
    (roc_curve : list Z -> list Q -> result (list num * list num * list Q))
    (auc : list num -> list num -> result num)
    {M : Type} `{Sklearn.OutlierDetector M}
    (models : list (string * M)) (k k' : kernel) :
  cell_unsupervised roc_curve auc models k = Ok k' -> scaler k' = scaler k.
Proof.
  unfold cell_unsupervised. intros Hc.
  apply (foldM_invariant _ scaler) in Hc; [exact Hc|].
  intros s [model_name model] s' Hb. unfold cell_unsupervised_body in Hb.
  apply bind_Ok_inv in Hb. destruct Hb as (? & _ & Hb).
  apply bind_Ok_inv in Hb. destruct Hb as (? & _ & Hb).
  apply bind_Ok_inv in Hb. destruct Hb as (? & _ & Hb).
  injection Hb as <-. reflexivity.
Qed.

Lemma cell_threshold_scaler (predict : matrix -> matrix) (k k' : kernel) :
  cell_threshold predict k = Ok k' -> scaler k' = scaler k.
Proof.
  unfold cell_threshold. intros Hb.
  apply bind_Ok_inv in Hb. destruct Hb as (? & _ & Hb).
  apply bind_Ok_inv in Hb. destruct Hb as (? & _ & Hb).
  apply bind_Ok_inv in Hb. destruct Hb as (? & _ & Hb).
  injection Hb as <-. reflexivity.
Qed.

(** C6: the preprocessing cell fits a new scaler once, on the training
    features; the fitted statistics are the same whatever the validation
    data are; no later cell changes the scaler; and transforming the same
    input twice with the fitted scaler gives the same output. *)
Theorem scaler_fit_on_training_only
    (roc_curve : list Z -> list Q -> result (list num * list num * list Q))
    (auc : list num -> list num -> result num)
    (predict : matrix -> matrix)
    {M : Type} `{Sklearn.OutlierDetector M}
    (models : list (string * M)) (k : kernel) :
  rectangular (X_train k) = true ->
  (0 < nrows (X_train k))%nat -> (0 < ncols (X_train k))%nat ->
  rectangular (X_validation k) = true ->
  (0 < nrows (X_validation k))%nat ->
  ncols (X_validation k) = ncols (X_train k) ->
  exists s k1 Xtn Xvn,
    Sklearn.fit Sklearn.RobustScaler_new (X_train k) = Ok s /\
    cell_scale k = Ok k1 /\
    scaler k1 = Some s /\
    Sklearn.transform s (X_train k) = Ok Xtn /\ X_train_norm k1 = Some Xtn /\
    Sklearn.transform s (X_validation k) = Ok Xvn /\ X_validation_norm k1 = Some Xvn /\
    (forall k' k1', X_train k' = X_train k -> cell_scale k' = Ok k1' ->
                    scaler k1' = Some s) /\
    (forall k2 k3,
        cell_unsupervised roc_curve auc models k2 = Ok k3 \/
        cell_threshold predict k2 = Ok k3 \/
        cell_validate roc_curve auc predict k2 = Ok k3 ->
        scaler k3 = scaler k2) /\
    (forall X,
        (a ← Sklearn.transform s X; b ← Sklearn.transform s X; Ok (a, b))
        = (a ← Sklearn.transform s X; Ok (a, a))).
Proof.
  intros HrT HnT HcT HrV HnV HcV.
  destruct (fit_ok (X_train k) HrT HnT HcT) as (center & scale & Hfit & Hce & Hsc).
  destruct (transform_ok center scale (X_train k) HrT HnT HcT Hce Hsc)
    as (Xtn & HXtn & _).
  destruct (transform_ok center scale (X_validation k) HrV HnV)
    as (Xvn & HXvn & _); [lia | congruence | congruence |].
  eexists _, _, Xtn, Xvn.
  split; [exact Hfit|]. split.
  { unfold cell_scale. rewrite Hfit. simpl mbind.
    rewrite HXtn. simpl mbind. rewrite HXvn. reflexivity. }
  split; [reflexivity|]. split; [exact HXtn|]. split; [reflexivity|].
  split; [exact HXvn|]. split; [reflexivity|]. split; [|split].
  - intros k' k1' Heq Hc'. unfold cell_scale in Hc'. rewrite Heq, Hfit in Hc'.
    apply bind_Ok_inv in Hc'. destruct Hc' as (s' & Hs' & Hc').
    apply bind_Ok_inv in Hc'. destruct Hc' as (? & _ & Hc').
    apply bind_Ok_inv in Hc'. destruct Hc' as (? & _ & Hc').
    injection Hc' as <-. injection Hs' as <-. reflexivity.
  - intros k2 k3 [Hu|[Ht|Hv]].
    + apply (cell_unsupervised_scaler _ _ _ _ _ Hu).
    + apply (cell_threshold_scaler _ _ _ Ht).
    + apply cell_validate_inv in Hv.
      destruct Hv as (? & ? & ? & _ & _ & _ & _ & _ & _ & Hsc' & _). exact Hsc'.
  - intros X. destruct (Sklearn.transform _ X); reflexivity.
Qed.

(** ** Counting over a sorted array *)

Section Separation.

Variable p : Q -> bool.
Hypothesis p_mono : forall x y, (x <= y)%Q -> p x = true -> p y = true.

Lemma filter_length_perm (l l' : list Q) :
  Permutation l l' -> length (List.filter p l) = length (List.filter p l').
Proof.
  induction 1 as [|x l l' _ IH|x y l|l l' l'' _ IH1 _ IH2]; simpl.
  - reflexivity.
  - destruct (p x); simpl; rewrite IH; reflexivity.
  - destruct (p x), (p y); reflexivity.
  - rewrite IH1. exact IH2.
Qed.

Lemma filter_length_le (l : list Q) :
  (length (List.filter p l) <= length l)%nat.
Proof.
  induction l as [|x l IH]; simpl; [lia|]. destruct (p x); simpl; lia.
Qed.

Lemma filter_all (l : list Q) :
  Forall (fun x => p x = true) l -> List.filter p l = l.
Proof.
  induction 1 as [|x l Hx _ IH]; simpl; [reflexivity|].
  rewrite Hx, IH. reflexivity.
Qed.

Lemma filter_none (l : list Q) :
  Forall (fun x => p x = false) l -> List.filter p l = [].
Proof.
  induction 1 as [|x l Hx _ IH]; simpl; [reflexivity|].
  rewrite Hx, IH. reflexivity.
Qed.

Lemma sorted_above_counts (s : list Q) :
  StronglySorted Qle s ->
  forall j, (j < length s)%nat -> p (nth j s 0%Q) = true ->
            (length s - j <= length (List.filter p s))%nat.
Proof.
  induction 1 as [|x s Hs IH Hall]; intros j Hj Hp; simpl in Hj.
  - lia.
  - destruct j as [|j]; simpl in Hp.
    + rewrite filter_all; [simpl; lia|].
      constructor; [exact Hp|].
      eapply Forall_impl; [exact Hall|].
      intros y Hy. simpl in Hy. apply (p_mono x); assumption.
    + assert (Hj' : (j < length s)%nat) by lia.
      specialize (IH j Hj' Hp). simpl. destruct (p x); simpl; lia.
Qed.

Lemma sorted_below_counts (s : list Q) :
  StronglySorted Qle s ->
  forall j, (j < length s)%nat -> p (nth j s 0%Q) = false ->
            (length (List.filter p s) + S j <= length s)%nat.
Proof.
  induction 1 as [|x s Hs IH Hall]; intros j Hj Hp; simpl in Hj.
  - lia.
  - assert (Hx : p x = false).
    { destruct (p x) eqn:E; [|reflexivity].
      destruct j as [|j]; simpl in Hp; [congruence|].
      rewrite Forall_forall in Hall.
      assert (Hle : (x <= nth j s 0)%Q).
      { apply Hall, list_elem_of_In, nth_In. lia. }
      rewrite (p_mono _ _ Hle E) in Hp. discriminate. }
    simpl. rewrite Hx. destruct j as [|j]; simpl in Hp.
    + pose proof (filter_length_le s). lia.
    + assert (Hj' : (j < length s)%nat) by lia.
      specialize (IH j Hj' Hp). lia.
Qed.

End Separation.

Lemma above_all_true (lo : list Q) (x : Q) :
  above_all lo x = true <-> forall y, In y lo -> (y < x)%Q.
Proof.
  unfold above_all. rewrite forallb_forall.
  split; intros Hall y Hy; apply Qltb_lt, Hall, Hy.
Qed.

Lemma above_all_mono (lo : list Q) (x y : Q) :
  (x <= y)%Q -> above_all lo x = true -> above_all lo y = true.
Proof.
  rewrite !above_all_true. intros Hxy Hx z Hz. specialize (Hx z Hz). lra.
Qed.

Lemma above_all_self (lo : list Q) (x : Q) : In x lo -> above_all lo x = false.
Proof.
  intros Hin. destruct (above_all lo x) eqn:E; [|reflexivity].
  rewrite above_all_true in E. specialize (E x Hin). lra.
Qed.

Lemma In_nth_index (l : list Q) (x : Q) :
  In x l -> exists j, (j < length l)%nat /\ nth j l 0%Q = x.
Proof. intros Hin. apply (In_nth l x 0%Q Hin). Qed.

(** Where the sorted array splits when the top [length hi] scores are
    strictly above all the others: the largest of the others and the
    smallest of the top ones are next to each other. *)
Lemma sorted_split (scores hi lo : list Q) :
  Permutation scores (hi ++ lo) ->
  lo <> [] -> hi <> [] ->
  (forall h x, In h hi -> In x lo -> (x < h)%Q) ->
  let s := Numpy.sort scores in
  let a := nth (length lo - 1) s 0%Q in
  let b := nth (length lo) s 0%Q in
  In a lo /\ In b hi /\
  (forall x, In x lo -> (x <= a)%Q) /\
  (forall h, In h hi -> (b <= h)%Q).
Proof.
  intros Hperm Hlo Hhi Hsep s a b.
  assert (Hps : Permutation s (hi ++ lo)).
  { eapply perm_trans; [apply sort_perm | exact Hperm]. }
  assert (Hlen : length s = (length hi + length lo)%nat).
  { rewrite (Permutation_length Hps), length_app. reflexivity. }
  assert (Hnl : (0 < length lo)%nat) by (destruct lo; [congruence | simpl; lia]).
  assert (Hnh : (0 < length hi)%nat) by (destruct hi; [congruence | simpl; lia]).
  pose proof (sort_sorted scores) as Hsorted. fold s in Hsorted.
  assert (Hcount : length (List.filter (above_all lo) s) = length hi).
  { rewrite (filter_length_perm _ _ _ Hps), List.filter_app, length_app.
    rewrite filter_all, filter_none; [simpl; lia | |].
    - apply Forall_forall. intros x Hx. apply above_all_self, list_elem_of_In, Hx.
    - apply Forall_forall. intros h Hh. apply above_all_true.
      intros x Hx. apply Hsep; [apply list_elem_of_In, Hh | exact Hx]. }
  assert (Ha : above_all lo a = false).
  { destruct (above_all lo a) eqn:E; [|reflexivity].
    pose proof (sorted_above_counts _ (above_all_mono lo) s Hsorted
                  (length lo - 1)%nat) as Hc.
    fold a in Hc. specialize (Hc ltac:(lia) E). lia. }
  assert (Hb : above_all lo b = true).
  { destruct (above_all lo b) eqn:E; [reflexivity|].
    pose proof (sorted_below_counts _ (above_all_mono lo) s Hsorted
                  (length lo)) as Hc.
    fold b in Hc. specialize (Hc ltac:(lia) E). lia. }
  assert (Hin : forall x, In x s <-> In x hi \/ In x lo).
  { intros x. rewrite <- in_app_iff. split; apply Permutation_in;
      [exact Hps | apply Permutation_sym, Hps]. }
  assert (Halo : In a lo).
  { assert (Has : In a s) by (apply nth_In; lia).
    apply Hin in Has. destruct Has as [Hh|Hl]; [|exact Hl].
    assert (E : above_all lo a = true).
    { apply above_all_true. intros x Hx. apply Hsep; assumption. }
    congruence. }
  assert (Hbhi : In b hi).
  { assert (Hbs : In b s) by (apply nth_In; lia).
    apply Hin in Hbs. destruct Hbs as [Hh|Hl]; [exact Hh|].
    rewrite (above_all_self lo b Hl) in Hb. discriminate. }
  split; [exact Halo|]. split; [exact Hbhi|]. split.
  - intros x Hx.
    assert (Hxs : In x s) by (apply Hin; right; exact Hx).
    destruct (In_nth_index s x Hxs) as (j & Hj & <-).
    destruct (Nat.le_gt_cases j (length lo - 1)) as [Hle|Hgt].
    + apply sorted_nth_le; [exact Hsorted | exact Hle | lia].
    + assert (Hle : (b <= nth j s 0)%Q).
      { apply sorted_nth_le; [exact Hsorted | lia | exact Hj]. }
      pose proof (above_all_mono lo _ _ Hle Hb) as E.
      rewrite (above_all_self lo _ Hx) in E. discriminate.
  - intros h Hh.
    assert (Hhs : In h s) by (apply Hin; left; exact Hh).
    destruct (In_nth_index s h Hhs) as (j & Hj & <-).
    destruct (Nat.le_gt_cases (length lo) j) as [Hle|Hgt].
    + apply sorted_nth_le; [exact Hsorted | exact Hle | exact Hj].
    + assert (Hle : (nth j s 0 <= a)%Q).
      { apply sorted_nth_le; [exact Hsorted | lia | lia]. }
      assert (E : above_all lo (nth j s 0%Q) = true).
      { apply above_all_true. intros x Hx. apply Hsep; assumption. }
      pose proof (above_all_mono lo _ _ Hle E). congruence.
Qed.

Lemma count_occ_all_one (f : Q -> Z) (l : list Q) :
  (forall x, In x l -> f x = 1%Z) ->
  count_occ Z.eq_dec (map f l) 1%Z = length l.
Proof.
  induction l as [|x l IH]; intros Hall; simpl; [reflexivity|].
  rewrite (Hall x (or_introl eq_refl)).
  destruct (Z.eq_dec 1%Z 1%Z); [|congruence].
  rewrite IH; [reflexivity|]. intros y Hy. apply Hall. right. exact Hy.
Qed.

Lemma count_occ_all_zero (f : Q -> Z) (l : list Q) :
  (forall x, In x l -> f x = 0%Z) ->
  count_occ Z.eq_dec (map f l) 1%Z = 0%nat.
Proof.
  induction l as [|x l IH]; intros Hall; simpl; [reflexivity|].
  rewrite (Hall x (or_introl eq_refl)).
  destruct (Z.eq_dec 0%Z 1%Z); [discriminate|].
  apply IH. intros y Hy. apply Hall. right. exact Hy.
Qed.

(** ** The theorems at concrete inputs *)

Lemma separated_spec (hi lo : list Q) :
  separated hi lo = true ->
  forall h x, In h hi -> In x lo -> (x < h)%Q.
Proof.
  unfold separated. rewrite forallb_forall. intros Hall h x Hh Hx.
  specialize (Hall h Hh). rewrite above_all_true in Hall. apply Hall, Hx.
Qed.

Lemma threshold_yhat_boundary_inclusive_witness :
  nth_error [1; 2; 3]%Q 1 = Some 2%Q /\
  nth_error (threshold_yhat 2 [1; 2; 3]%Q) 1 = Some 1%Z.
Proof.
  split; [reflexivity|].
  destruct (threshold_yhat_boundary_inclusive 2 [1; 2; 3]%Q 1 2 eq_refl)
    as (label & Hl & _ & _ & Heq).
  rewrite Hl. f_equal. apply Heq. reflexivity.
Defined.

Lemma performance_entries_witness :
  exists m acc,
    performance Example.roc_curve Example.auc [1; 0]%Z [1; 1]%Z
      (Some [9 # 10; 1 # 10]) = Ok m /\
    m !! "accuracy" = Some (PyFloat acc) /\
    forall key, is_Some (m !! key) <->
      key = "accuracy" \/
      (is_Some (Some [9 # 10; 1 # 10]) /\
       (key = "FP_TP" \/ key = "AUC" \/ key = "yhat")).
Proof.
  destruct (performance_entries Example.roc_curve Example.auc
              [1; 0]%Z [1; 1]%Z (Some [9 # 10; 1 # 10]) eq_refl)
    as (m & acc & Hp & _ & Ha & Hk & _).
  - intros s _. eexists _, _, _, _. split; reflexivity.
  - exists m, acc. repeat split; try assumption; apply Hk.
Defined.

Lemma unsupervised_score_and_label_witness :
  nth_error (Sklearn.decision_function 10%Q Example.Xv) 1 = Some (-72)%Q /\
  nth_error (Sklearn.predict 10%Q Example.Xv) 1 = Some (-1)%Z /\
  nth_error (unsupervised_anomaly_score 10%Q Example.Xv) 1 = Some (- (-72))%Q /\
  nth_error (unsupervised_yhat (Sklearn.predict 10%Q Example.Xv)) 1 = Some 1%Z.
Proof.
  split; [reflexivity|]. split; [reflexivity|].
  destruct (unsupervised_score_and_label 10%Q Example.Xv 1) as (Hs & Hl).
  split.
  - apply Hs. reflexivity.
  - destruct (Hl (-1)%Z eq_refl) as (label & Hn & Hm1 & _).
    rewrite Hn. f_equal. apply Hm1. reflexivity.
Defined.

Lemma scaler_fit_on_training_only_witness :
  rectangular Example.Xt = true /\ rectangular Example.Xv = true /\
  ncols Example.Xv = ncols Example.Xt /\
  exists s k1,
    Sklearn.fit Sklearn.RobustScaler_new Example.Xt = Ok s /\
    cell_scale (loaded Example.Xt Example.Xv Example.yv) = Ok k1 /\
    scaler k1 = Some s.
Proof.
  split; [reflexivity|]. split; [reflexivity|]. split; [reflexivity|].
  destruct (scaler_fit_on_training_only Example.roc_curve Example.auc
              Example.halve [("OneClassSVM", 10%Q)]
              (loaded Example.Xt Example.Xv Example.yv))
    as (s & k1 & Xtn & Xvn & Hf & Hc & Hs & _);
    try reflexivity; try (vm_compute; lia).
  exists s, k1. repeat split; assumption.
Defined.

Lemma reconstruction_mse_per_sample_witness :
  rectangular Example.wide = true /\ ncols Example.wide = 24%nat /\
  exists scores,
    reconstruction_mse Example.halve Example.wide = Ok scores /\
    length scores = 2%nat.
Proof.
  split; [reflexivity|]. split; [reflexivity|].
  destruct (reconstruction_mse_per_sample Example.halve Example.wide)
    as (scores & Hs & Hl & _);
    try reflexivity; try (vm_compute; lia).
  exists scores. split; assumption.
Defined.

Lemma accuracy_perfect_and_inverted_witness :
  [1; 0; 1; 0]%Z <> [] /\
  (exists acc, Sklearn.accuracy_score [1; 0; 1; 0]%Z [1; 0; 1; 0]%Z = Ok (Fin acc) /\
               (acc == 1)%Q) /\
  (exists acc, Sklearn.accuracy_score [1; 0; 1; 0]%Z [0; 1; 0; 1]%Z = Ok (Fin acc) /\
               (acc == 0)%Q).
Proof.
  assert (Hne : [1; 0; 1; 0]%Z <> []) by discriminate.
  split; [exact Hne|].
  destruct (accuracy_perfect_and_inverted Example.roc_curve Example.auc
              [1; 0; 1; 0]%Z Hne) as (Hsame & Hinv).
  split.
  - destruct Hsame as (acc & _ & Ha & H1). exists acc. split; assumption.
  - assert (Hbin : Forall is_label [1; 0; 1; 0]%Z)
      by (repeat constructor; unfold is_label; auto).
    destruct (Hinv Hbin) as (acc & _ & Ha & H0).
    exists acc. split; assumption.
Defined.

(** C4 as stated fails twice: with a score supplied the mapping also has
    the entry "yhat", which is none of the listed metrics; and on label
    vectors of different lengths no mapping is returned. *)
Lemma performance_listed_metrics_only_counterexample :
  (exists m,
      performance Example.roc_curve Example.auc [1; 0]%Z [1; 0]%Z
        (Some [9 # 10; 1 # 10]) = Ok m /\
      m !! "yhat" = Some (PyLabels [1; 0]%Z) /\
      ~ (forall key, is_Some (m !! key) ->
                     key = "accuracy" \/ key = "FP_TP" \/ key = "AUC")) /\
  performance Example.roc_curve Example.auc [1]%Z [1; 0]%Z None = Raise ValueError.
Proof.
  split; [|reflexivity].
  eexists. split; [reflexivity|]. split; [reflexivity|].
  intros Hall. destruct (Hall "yhat") as [E|[E|E]]; [|discriminate..].
  eexists. reflexivity.
Qed.

(** * Further properties of the modelled code *)

(** ** [np.percentile] in exact arithmetic: when it returns, where its value lies *)

Lemma take_empty (i : Z) : Numpy.take [] i = Raise IndexError.
Proof.
  unfold Numpy.take. change (Z.of_nat (length (@nil Q))) with 0%Z.
  replace ((i <? - 0) || (0 <=? i))%Z with true; [reflexivity|].
  symmetry. apply orb_true_iff. lia.
Qed.

Lemma percentile_valid_q (q : Q) :
  Qle_bool 0 (q / 100) && Qle_bool (q / 100) 1 = true <-> (0 <= q)%Q /\ (q <= 100)%Q.
Proof.
  rewrite andb_true_iff, !Qle_bool_iff. split; intros [H0 H1].
  - split.
    + assert (H : (0 * 100 <= q / 100 * 100)%Q)
        by (apply Qmult_le_compat_r; [exact H0 | lra]).
      field_simplify in H. lra.
    + assert (H : (q / 100 * 100 <= 1 * 100)%Q)
        by (apply Qmult_le_compat_r; [exact H1 | lra]).
      field_simplify in H. lra.
  - split; [apply Qle_shift_div_l | apply Qle_shift_div_r]; lra.
Qed.

Lemma percentile_returns_iff_aux (a : list Q) (q : Q) :
  ((exists t, Numpy.percentile a q = Ok t) <->
   ((0 <= q)%Q /\ (q <= 100)%Q /\ a <> [])) /\
  (~ ((0 <= q)%Q /\ (q <= 100)%Q) -> Numpy.percentile a q = Raise ValueError) /\
  ((0 <= q)%Q -> (q <= 100)%Q -> a = [] -> Numpy.percentile a q = Raise IndexError).
Proof.
  assert (Hbad : ~ ((0 <= q)%Q /\ (q <= 100)%Q) ->
                 Numpy.percentile a q = Raise ValueError).
  { intros Hq. unfold Numpy.percentile.
    destruct (Qle_bool 0 (q / 100) && Qle_bool (q / 100) 1) eqn:E;
      [|reflexivity].
    apply percentile_valid_q in E. contradiction. }
  assert (Hempty : (0 <= q)%Q -> (q <= 100)%Q -> a = [] ->
                   Numpy.percentile a q = Raise IndexError).
  { intros H0 H100 ->. unfold Numpy.percentile.
    rewrite (proj2 (percentile_valid_q q) (conj H0 H100)).
    simpl negb. cbv iota. cbv zeta.
    change (Numpy.sort []) with (@nil Q). rewrite !take_empty. reflexivity. }
  split; [|split; assumption].
  split.
  - intros [t Ht].
    destruct (Qlt_le_dec q 0) as [Hneg|H0].
    { rewrite Hbad in Ht by lra. discriminate. }
    destruct (Qlt_le_dec 100 q) as [Hbig|H100].
    { rewrite Hbad in Ht by lra. discriminate. }
    repeat split; try assumption.
    intros ->. rewrite Hempty in Ht by (assumption || reflexivity). discriminate.
  - intros (H0 & H100 & Hne). eexists.
    apply percentile_nonempty; assumption.
Qed.

(** The interpolation weight is in [0, 1). *)
Lemma weight_range (x : Q) :
  (0 <= x - inject_Z (Qfloor x))%Q /\ (x - inject_Z (Qfloor x) < 1)%Q.
Proof.
  pose proof (Qfloor_le x) as Hlo. pose proof (Qlt_floor x) as Hhi.
  rewrite inject_Z_plus in Hhi. change (inject_Z 1) with 1%Q in Hhi.
  split; lra.
Qed.

Lemma interpolate_between (a b w : Q) :
  (a <= b)%Q -> (0 <= w)%Q -> (w <= 1)%Q ->
  (a <= a * (1 - w) + b * w)%Q /\ (a * (1 - w) + b * w <= b)%Q.
Proof.
  intros Hab Hw0 Hw1.
  assert (H1 : (0 <= (b - a) * w)%Q) by (apply Qmult_le_0_compat; lra).
  assert (H2 : (0 <= (b - a) * (1 - w))%Q) by (apply Qmult_le_0_compat; lra).
  split; lra.
Qed.

(** The value on a non-empty array lies between the two order statistics
    around the virtual index. *)
Lemma percentile_between_neighbours (a : list Q) (q : Q) :
  a <> [] -> (0 <= q)%Q -> (q <= 100)%Q ->
  let i := index_below (length a) q in
  exists t,
    Numpy.percentile a q = Ok t /\
    (nth (Z.to_nat i) (Numpy.sort a) 0 <= t)%Q /\
    (t <= nth (Z.to_nat (Z.min (i + 1) (Z.of_nat (length a) - 1))) (Numpy.sort a) 0)%Q.
Proof.
  intros Hne H0 H100 i.
  assert (Hn : (0 < length a)%nat) by (destruct a; [congruence | simpl; lia]).
  pose proof (index_below_range (length a) q Hn H0 H100) as Hi. fold i in Hi.
  eexists. split; [apply percentile_nonempty; assumption|].
  cbv zeta. fold i.
  apply interpolate_between.
  - apply sorted_nth_le; [apply sort_sorted | lia | rewrite sort_length; lia].
  - apply (weight_range (q / 100 * inject_Z (Z.of_nat (length a) - 1))).
  - apply Qlt_le_weak.
    apply (weight_range (q / 100 * inject_Z (Z.of_nat (length a) - 1))).
Qed.

Lemma percentile_within_data_aux (a : list Q) (q : Q) :
  a <> [] -> (0 <= q)%Q -> (q <= 100)%Q ->
  exists t lo hi,
    Numpy.percentile a q = Ok t /\
    In lo a /\ In hi a /\
    (forall x, In x a -> (lo <= x)%Q /\ (x <= hi)%Q) /\
    (lo <= t)%Q /\ (t <= hi)%Q.
Proof.
  intros Hne H0 H100.
  assert (Hn : (0 < length a)%nat) by (destruct a; [congruence | simpl; lia]).
  pose proof (index_below_range (length a) q Hn H0 H100) as Hi.
  destruct (percentile_between_neighbours a q Hne H0 H100) as (t & Ht & Hlo & Hhi).
  cbv zeta in Hlo, Hhi.
  set (s := Numpy.sort a) in *.
  assert (Hlen : length s = length a) by apply sort_length.
  assert (Hsorted : StronglySorted Qle s) by apply sort_sorted.
  exists t, (nth 0 s 0%Q), (nth (length a - 1) s 0%Q).
  split; [exact Ht|].
  split; [apply (Permutation_in _ (sort_perm a)), nth_In; fold s; lia|].
  split; [apply (Permutation_in _ (sort_perm a)), nth_In; fold s; lia|].
  split; [|split].
  - intros x Hx.
    apply (Permutation_in _ (Permutation_sym (sort_perm a))) in Hx. fold s in Hx.
    destruct (In_nth_index s x Hx) as (j & Hj & <-).
    split; apply sorted_nth_le; try assumption; lia.
  - eapply Qle_trans; [|exact Hlo].
    apply sorted_nth_le; [assumption | lia | lia].
  - eapply Qle_trans; [exact Hhi|].
    apply sorted_nth_le; [assumption | lia | lia].
Qed.

(** ** [np.percentile]: the order of the data *)

Lemma percentile_value (a : list Q) (q : Q) :
  a <> [] -> (0 <= q)%Q -> (q <= 100)%Q ->
  Numpy.percentile a q = Ok (quantile_value a q).
Proof. intros. apply percentile_nonempty; assumption. Qed.

Lemma above_mono (v x y : Q) : (x <= y)%Q -> above v x = true -> above v y = true.
Proof. unfold above. rewrite !Qltb_lt. lra. Qed.

(** Two sorted arrangements of the same entries agree position by
    position (as rationals). *)
Lemma sorted_perm_nth_le (s s' : list Q) (i : nat) :
  StronglySorted Qle s -> StronglySorted Qle s' -> Permutation s s' ->
  (i < length s)%nat -> (nth i s' 0 <= nth i s 0)%Q.
Proof.
  intros Hs Hs' Hperm Hi.
  destruct (Qlt_le_dec (nth i s 0%Q) (nth i s' 0%Q)) as [Hlt|Hle]; [|exact Hle].
  exfalso.
  pose proof (Permutation_length Hperm) as Hlen.
  set (v := nth i s 0%Q) in *.
  assert (Hb : above v (nth i s 0%Q) = false).
  { unfold above. apply Qltb_ge. fold v. lra. }
  assert (Ha : above v (nth i s' 0%Q) = true).
  { unfold above. apply Qltb_lt. exact Hlt. }
  pose proof (sorted_below_counts _ (above_mono v) s Hs i Hi Hb) as H1.
  pose proof (sorted_above_counts _ (above_mono v) s' Hs' i ltac:(lia) Ha) as H2.
  rewrite (filter_length_perm _ _ _ Hperm) in H1. lia.
Qed.

Lemma sorted_perm_nth (s s' : list Q) (i : nat) :
  StronglySorted Qle s -> StronglySorted Qle s' -> Permutation s s' ->
  (i < length s)%nat -> (nth i s 0 == nth i s' 0)%Q.
Proof.
  intros Hs Hs' Hperm Hi. apply Qle_antisym.
  - apply sorted_perm_nth_le; try assumption.
    + apply Permutation_sym, Hperm.
    + rewrite <- (Permutation_length Hperm). exact Hi.
  - apply sorted_perm_nth_le; assumption.
Qed.

(** X3: the percentile does not depend on the order of the array: on a
    rearranged array [np.percentile] returns the same number. *)
Theorem percentile_order_irrelevant (a b : list Q) (q : Q) (t : Q) :
  Permutation a b ->
  Numpy.percentile a q = Ok t ->
  exists t', Numpy.percentile b q = Ok t' /\ (t' == t)%Q.
Proof.
  intros Hperm Ht.
  destruct (proj1 (proj1 (percentile_returns_iff_aux a q)) (ex_intro _ t Ht))
    as (H0 & H100 & Hne).
  assert (Hneb : b <> []).
  { intros ->. apply Permutation_sym, Permutation_nil in Hperm. contradiction. }
  rewrite (percentile_value a q Hne H0 H100) in Ht. injection Ht as <-.
  exists (quantile_value b q). split; [apply percentile_value; assumption|].
  pose proof (Permutation_length Hperm) as Hlen.
  assert (Hn : (0 < length a)%nat) by (destruct a; [congruence | simpl; lia]).
  pose proof (index_below_range (length a) q Hn H0 H100) as Hi.
  unfold quantile_value. rewrite <- Hlen.
  assert (Hps : Permutation (Numpy.sort b) (Numpy.sort a)).
  { eapply perm_trans; [apply sort_perm|].
    eapply perm_trans; [apply Permutation_sym, Hperm|].
    apply Permutation_sym, sort_perm. }
  rewrite (sorted_perm_nth (Numpy.sort b) (Numpy.sort a) (Z.to_nat (index_below (length a) q)));
    [|apply sort_sorted | apply sort_sorted | exact Hps
     | rewrite sort_length, <- Hlen; lia].
  rewrite (sorted_perm_nth (Numpy.sort b) (Numpy.sort a)
             (Z.to_nat (Z.min (index_below (length a) q + 1) (Z.of_nat (length a) - 1))));
    [|apply sort_sorted | apply sort_sorted | exact Hps
     | rewrite sort_length, <- Hlen; lia].
  reflexivity.
Qed.

(** ** What the fitted scaler holds *)

Lemma mapM_map_Ok {A B : Type} (f : A -> result B) (g : A -> B) (l : list A) :
  (forall a, In a l -> f a = Ok (g a)) -> mapM f l = Ok (map g l).
Proof.
  induction l as [|a l IH]; intros Hall; [reflexivity|].
  simpl. rewrite (Hall a (or_introl eq_refl)). simpl.
  rewrite IH by (intros a' Ha'; apply Hall; right; exact Ha'). reflexivity.
Qed.

Lemma column_nonempty (j : nat) (X : matrix) : (0 < nrows X)%nat -> column j X <> [].
Proof.
  intros Hn Hnil. pose proof (column_length j X) as Hl.
  rewrite Hnil in Hl. simpl in Hl. lia.
Qed.

Lemma fit_spec (X : matrix) :
  rectangular X = true -> (0 < nrows X)%nat -> (0 < ncols X)%nat ->
  Sklearn.fit Sklearn.RobustScaler_new X
  = Ok (Sklearn.mkRobustScaler
          (Some (map (fun j => column_centre (column j X)) (seq 0 (ncols X))))
          (Some (map (fun j => column_scale (column j X)) (seq 0 (ncols X))))).
Proof.
  intros Hr Hn Hc. unfold Sklearn.fit.
  rewrite (check_array_ok X Hr Hn Hc). simpl.
  rewrite (mapM_map_Ok _
             (fun j => (quantile_value (column j X) 25, quantile_value (column j X) 75))).
  - simpl. unfold Sklearn.handle_zeros_in_scale. rewrite !map_map. reflexivity.
  - intros j _.
    rewrite (percentile_value (column j X) 25 (column_nonempty j X Hn)) by lra.
    simpl.
    rewrite (percentile_value (column j X) 75 (column_nonempty j X Hn)) by lra.
    reflexivity.
Qed.

(** ** What the scaler rejects *)

Lemma check_array_returns_iff (X : matrix) :
  (exists Y, Sklearn.check_array X = Ok Y) <-> well_formed X.
Proof.
  unfold well_formed, Sklearn.check_array. split.
  - intros [Y HY].
    destruct (rectangular X); cbn [negb] in HY; [|discriminate].
    destruct (Nat.eqb_spec (nrows X) 0) as [|Hn]; [discriminate|].
    destruct (Nat.eqb_spec (ncols X) 0) as [|Hc]; [discriminate|].
    split; [reflexivity|]. split; lia.
  - intros (Hr & Hn & Hc). exists X. apply check_array_ok; assumption.
Qed.

Lemma check_array_rejects (X : matrix) :
  ~ well_formed X -> Sklearn.check_array X = Raise ValueError.
Proof.
  intros Hnw. unfold Sklearn.check_array.
  destruct (rectangular X) eqn:Hr; simpl; [|reflexivity].
  destruct (Nat.eqb_spec (nrows X) 0); [reflexivity|].
  destruct (Nat.eqb_spec (ncols X) 0); [reflexivity|].
  exfalso. apply Hnw. repeat split; [exact Hr | lia | lia].
Qed.

(** X9: [fit] returns exactly on rectangular arrays with at least one row
    and one column, and raises [ValueError] on every other input (ragged,
    no rows, no columns). *)
Theorem fit_returns_iff (X : matrix) :
  ((exists scaler1, Sklearn.fit Sklearn.RobustScaler_new X = Ok scaler1) <->
   well_formed X) /\
  (~ well_formed X -> Sklearn.fit Sklearn.RobustScaler_new X = Raise ValueError).
Proof.
  assert (Hbad : ~ well_formed X ->
                 Sklearn.fit Sklearn.RobustScaler_new X = Raise ValueError).
  { intros Hnw. unfold Sklearn.fit. rewrite (check_array_rejects X Hnw). reflexivity. }
  split; [|exact Hbad]. split.
  - intros [s Hs].
    destruct (rectangular X) eqn:Hr.
    + destruct (Nat.eq_dec (nrows X) 0) as [Hn|Hn].
      * rewrite Hbad in Hs; [discriminate|]. intros (_ & H & _). lia.
      * destruct (Nat.eq_dec (ncols X) 0) as [Hc|Hc].
        -- rewrite Hbad in Hs; [discriminate|]. intros (_ & _ & H). lia.
        -- split; [exact Hr | split; lia].
    + rewrite Hbad in Hs; [discriminate|]. intros (H & _). congruence.
  - intros (Hr & Hn & Hc). eexists. apply fit_spec; assumption.
Qed.

(** X10: a scaler that was never fitted refuses to transform
    ([NotFittedError]); a scaler fitted on two or more features transforms
    every well-formed array with that many columns into an array of the
    same shape, and raises [ValueError] on one with another number of
    columns. *)
Theorem transform_needs_fitted_schema (X_fit X : matrix) :
  well_formed X_fit -> (2 <= ncols X_fit)%nat -> well_formed X ->
  Sklearn.transform Sklearn.RobustScaler_new X = Raise NotFittedError /\
  exists scaler1,
    Sklearn.fit Sklearn.RobustScaler_new X_fit = Ok scaler1 /\
    (ncols X = ncols X_fit ->
     exists Y, Sklearn.transform scaler1 X = Ok Y /\
               nrows Y = nrows X /\ ncols Y = ncols X /\ rectangular Y = true) /\
    (ncols X <> ncols X_fit -> Sklearn.transform scaler1 X = Raise ValueError).
Proof.
  intros (HrF & HnF & HcF) H2 (Hr & Hn & Hc).
  split; [reflexivity|].
  eexists. split; [apply fit_spec; assumption|].
  set (center := map (fun j => column_centre (column j X_fit)) (seq 0 (ncols X_fit))).
  set (scale := map (fun j => column_scale (column j X_fit)) (seq 0 (ncols X_fit))).
  assert (Hce : length center = ncols X_fit)
    by (unfold center; rewrite length_map, length_seq; reflexivity).
  assert (Hsc : length scale = ncols X_fit)
    by (unfold scale; rewrite length_map, length_seq; reflexivity).
  split.
  - intros Heq. apply transform_ok; try assumption; congruence.
  - intros Hneq. unfold Sklearn.transform. simpl.
    rewrite (check_array_ok X Hr Hn Hc). simpl.
    unfold Sklearn.broadcast at 2.
    destruct (Nat.eqb_spec (length center) (ncols X)) as [E|E]; [congruence|].
    destruct center as [|c0 [|c1 center']]; simpl in Hce; try lia; reflexivity.
Qed.

(** ** Accuracy *)

Lemma agree_sym (a b : Z) : agree a b = agree b a.
Proof. unfold agree. rewrite (Z.eqb_sym a b). reflexivity. Qed.

Lemma map2_agree_sym (y yhat : list Z) : map2 agree y yhat = map2 agree yhat y.
Proof.
  revert yhat. induction y as [|a y IH]; intros [|b yhat]; simpl; try reflexivity.
  rewrite agree_sym, IH. reflexivity.
Qed.

Lemma Qsum_agree_count (y yhat : list Z) :
  (Qsum (map2 agree y yhat) == inject_Z (Z.of_nat (agreements y yhat)))%Q.
Proof.
  unfold agreements.
  revert yhat. induction y as [|a y IH]; intros [|b yhat]; try reflexivity.
  cbn [map2 Qsum fold_right combine List.filter].
  fold (Qsum (map2 agree y yhat)). rewrite IH. unfold agree.
  destruct (a =? b)%Z; cbn [length].
  - rewrite Nat2Z.inj_succ, <- Z.add_1_l, inject_Z_plus. reflexivity.
  - ring.
Qed.

Lemma agreements_le (y yhat : list Z) :
  (agreements y yhat <= length y)%nat.
Proof.
  unfold agreements.
  revert yhat. induction y as [|a y IH]; intros [|b yhat]; simpl; try lia.
  specialize (IH yhat). destruct (a =? b)%Z; simpl; lia.
Qed.

(** X11: on label vectors of equal length the accuracy is nan if they are
    empty and otherwise the share of agreeing positions, a number in
    [0, 1]; it is the same with the two vectors exchanged; on vectors of
    different lengths it is a [ValueError]. *)
Theorem accuracy_score_range (y_true y_pred : list Z) :
  (length y_true <> length y_pred ->
   Sklearn.accuracy_score y_true y_pred = Raise ValueError) /\
  (length y_true = length y_pred ->
   (y_true = [] -> Sklearn.accuracy_score y_true y_pred = Ok NaN) /\
   (y_true <> [] ->
    exists acc,
      Sklearn.accuracy_score y_true y_pred = Ok (Fin acc) /\
      (acc == inject_Z (Z.of_nat (agreements y_true y_pred))
              / inject_Z (Z.of_nat (length y_true)))%Q /\
      (0 <= acc)%Q /\ (acc <= 1)%Q)) /\
  Sklearn.accuracy_score y_pred y_true = Sklearn.accuracy_score y_true y_pred.
Proof.
  split; [|split].
  - intros Hneq. unfold Sklearn.accuracy_score.
    destruct (Nat.eqb_spec (length y_true) (length y_pred)); [contradiction|].
    reflexivity.
  - intros Hlen. rewrite (accuracy_score_eq _ _ Hlen). split.
    + intros ->. destruct y_pred; [reflexivity | discriminate].
    + intros Hne.
      assert (Hn : (0 < length y_true)%nat)
        by (destruct y_true; [congruence | simpl; lia]).
      rewrite mean_nonempty
        by (destruct y_true, y_pred; simpl in *; try congruence; discriminate).
      eexists. split; [reflexivity|].
      rewrite (map2_length _ _ _ Hlen), Qsum_agree_count.
      pose proof (agreements_le y_true y_pred) as Hle.
      set (k := agreements y_true y_pred) in *.
      set (n := length y_true) in *.
      assert (Hnq : (0 < inject_Z (Z.of_nat n))%Q)
        by (rewrite <- (Zlt_Qlt 0); lia).
      assert (Hkq : (0 <= inject_Z (Z.of_nat k))%Q)
        by (rewrite <- (Zle_Qle 0); lia).
      assert (Hkn : (inject_Z (Z.of_nat k) <= inject_Z (Z.of_nat n))%Q)
        by (rewrite <- Zle_Qle; lia).
      split; [reflexivity|]. split.
      * apply Qle_shift_div_l; [exact Hnq | lra].
      * apply Qle_shift_div_r; [exact Hnq | lra].
  - unfold Sklearn.accuracy_score.
    rewrite (Nat.eqb_sym (length y_pred)), map2_agree_sym. reflexivity.
Qed.

(** ** [performance]: when it returns *)

Lemma performance_with_score
    (roc_curve : list Z -> list Q -> result (list num * list num * list Q))
    (auc : list num -> list num -> result num)
    (yhat y : list Z) (s : list Q) (acc : num) (FP TP : list num) (th : list Q)
    (a : num) :
  Sklearn.accuracy_score y yhat = Ok acc ->
  roc_curve y s = Ok (FP, TP, th) -> auc FP TP = Ok a ->
  performance roc_curve auc yhat y (Some s)
  = Ok (<["yhat" := PyLabels yhat]>
          (<["AUC" := PyFloat a]>
             (<["FP_TP" := PyCurve FP TP]> {["accuracy" := PyFloat acc]}))).
Proof.
  intros Hacc Hroc Hauc. unfold performance.
  rewrite Hacc. simpl. rewrite Hroc. simpl. rewrite Hauc. reflexivity.
Qed.

(** X12: [performance] returns a mapping exactly when the label vectors
    have the same length and, for a supplied score, the curve and the
    area are computed; otherwise it raises what the first failing call
    raises, and no partial mapping is returned. *)
Theorem performance_returns_iff
    (roc_curve : list Z -> list Q -> result (list num * list num * list Q))
    (auc : list num -> list num -> result num)
    (yhat y : list Z) (score : option (list Q)) :
  ((exists m, performance roc_curve auc yhat y score = Ok m) <->
   (length y = length yhat /\
    forall s, score = Some s ->
      exists FP TP th a, roc_curve y s = Ok (FP, TP, th) /\ auc FP TP = Ok a)) /\
  (length y <> length yhat ->
   performance roc_curve auc yhat y score = Raise ValueError) /\
  (forall s e, length y = length yhat -> score = Some s ->
     roc_curve y s = Raise e ->
     performance roc_curve auc yhat y score = Raise e) /\
  (forall s FP TP th e, length y = length yhat -> score = Some s ->
     roc_curve y s = Ok (FP, TP, th) -> auc FP TP = Raise e ->
     performance roc_curve auc yhat y score = Raise e).
Proof.
  assert (Hlenbad : length y <> length yhat ->
                    performance roc_curve auc yhat y score = Raise ValueError).
  { intros Hneq. unfold performance, Sklearn.accuracy_score.
    destruct (Nat.eqb_spec (length y) (length yhat)); [contradiction|].
    reflexivity. }
  split; [|split; [exact Hlenbad | split]].
  - split.
    + intros [m Hm].
      destruct (Nat.eq_dec (length y) (length yhat)) as [Hlen|Hneq];
        [|rewrite (Hlenbad Hneq) in Hm; discriminate].
      split; [exact Hlen|].
      intros s ->. unfold performance in Hm.
      rewrite (accuracy_score_eq _ _ Hlen) in Hm. simpl in Hm.
      destruct (roc_curve y s) as [[[FP TP] th]|e]; simpl in Hm; [|discriminate].
      destruct (auc FP TP) as [a|e] eqn:Ha; simpl in Hm; [|discriminate].
      exists FP, TP, th, a. split; [reflexivity | exact Ha].
    + intros (Hlen & Hs). destruct score as [s|].
      * destruct (Hs s eq_refl) as (FP & TP & th & a & Hr & Ha).
        eexists.
        apply (performance_with_score _ _ _ _ _ _ _ _ _ _
                 (accuracy_score_eq _ _ Hlen) Hr Ha).
      * eexists. unfold performance.
        rewrite (accuracy_score_eq _ _ Hlen). reflexivity.
  - intros s e Hlen -> Hr. unfold performance.
    rewrite (accuracy_score_eq _ _ Hlen). simpl. rewrite Hr. reflexivity.
  - intros s FP TP th e Hlen -> Hr Ha. unfold performance.
    rewrite (accuracy_score_eq _ _ Hlen). simpl. rewrite Hr. simpl.
    rewrite Ha. reflexivity.
Qed.

(** ** The loop over the unsupervised models *)

Section UnsupervisedLoop.

Variable roc_curve : list Z -> list Q -> result (list num * list num * list Q).
Variable auc : list num -> list num -> result num.
Context {M : Type} `{Sklearn.OutlierDetector M}.
Variable Xvn : matrix.
Variable yv : list Z.

Lemma cell_unsupervised_body_ok (k : kernel) (r : gmap string (gmap string pyval))
    (model_name : string) (model : M) (perf : gmap string pyval) :
  X_validation_norm k = Some Xvn -> y_validation k = yv ->
  results_unsupervised k = Some r ->
  loop_metrics roc_curve auc Xvn yv model = Ok perf ->
  cell_unsupervised_body roc_curve auc k (model_name, model)
  = Ok (mkKernel (X_train k) (X_validation k) (y_validation k)
          (scaler k) (X_train_norm k) (X_validation_norm k)
          (Some (unsupervised_yhat (Sklearn.predict model Xvn)))
          (Some (<[model_name := perf]> r))
          (train_mse k) (thresh_train k) (val_mse k) (out k)).
Proof.
  intros HX Hy Hr Hp. unfold cell_unsupervised_body.
  rewrite HX. simpl. rewrite Hy. unfold loop_metrics in Hp. rewrite Hp. simpl.
  rewrite Hr. reflexivity.
Qed.

Lemma unsupervised_loop (models : list (string * M)) :
  forall (k : kernel) (r : gmap string (gmap string pyval)),
    X_validation_norm k = Some Xvn -> y_validation k = yv ->
    results_unsupervised k = Some r ->
    (forall n m, In (n, m) models -> exists perf, loop_metrics roc_curve auc Xvn yv m = Ok perf) ->
    exists k' r',
      foldM (cell_unsupervised_body roc_curve auc) k models = Ok k' /\
      results_unsupervised k' = Some r' /\
      (forall n, ~ In n (map fst models) -> r' !! n = r !! n) /\
      (forall n, In n (map fst models) -> is_Some (r' !! n)) /\
      (List.NoDup (map fst models) ->
       forall n m, In (n, m) models ->
                   exists perf, r' !! n = Some perf /\ loop_metrics roc_curve auc Xvn yv m = Ok perf) /\
      (forall models' n m, models = models' ++ [(n, m)] ->
         yhat k' = Some (unsupervised_yhat (Sklearn.predict m Xvn))).
Proof.
  induction models as [|[n1 m1] models IH]; intros k r HX Hy Hr Hall.
  - exists k, r. split; [reflexivity|]. split; [exact Hr|].
    split; [reflexivity|]. split; [intros n []|].
    split; [intros _ n m []|].
    intros [|? ?] n m Hm; discriminate.
  - destruct (Hall n1 m1 (or_introl eq_refl)) as [p1 Hp1].
    pose proof (cell_unsupervised_body_ok k r n1 m1 p1 HX Hy Hr Hp1) as Hbody.
    set (k1 := mkKernel _ _ _ _ _ _ _ _ _ _ _ _) in Hbody.
    destruct (IH k1 (<[n1 := p1]> r)) as (k' & r' & Hfold & Hr' & Hout & Hin & Hnd & Hlast);
      [exact HX | exact Hy | reflexivity
       | intros n m Hm; apply (Hall n m); right; exact Hm |].
    exists k', r'. split.
    { cbn [foldM]. rewrite Hbody. exact Hfold. }
    split; [exact Hr'|]. split; [|split; [|split]].
    + intros n Hn. simpl in Hn.
      rewrite Hout by tauto. apply lookup_insert_ne. tauto.
    + intros n [<-|Hn].
      * simpl. destruct (in_dec String.string_dec n1 (map fst models)) as [Hi|Hni].
        -- apply Hin, Hi.
        -- rewrite (Hout n1 Hni), lookup_insert_eq. eauto.
      * apply Hin, Hn.
    + intros Hnodup n m Hnm. simpl in Hnodup.
      apply List.NoDup_cons_iff in Hnodup. destruct Hnodup as [Hni Hnd'].
      destruct Hnm as [Heq|Hm].
      * injection Heq as <- <-. exists p1. split; [|exact Hp1].
        rewrite (Hout n1 Hni). apply lookup_insert_eq.
      * apply (Hnd Hnd' n m Hm).
    + intros models' n m Heq.
      destruct models' as [|a models'].
      * simpl in Heq. injection Heq as -> -> ->.
        simpl in Hfold. injection Hfold as <-. reflexivity.
      * simpl in Heq. injection Heq as _ Htl. apply (Hlast models' n m Htl).
Qed.

End UnsupervisedLoop.

Lemma cell_unsupervised_results_aux
    (roc_curve : list Z -> list Q -> result (list num * list num * list Q))
    (auc : list num -> list num -> result num)
    {M : Type} `{Sklearn.OutlierDetector M}
    (models : list (string * M)) (k : kernel) (Xvn : matrix) :
  X_validation_norm k = Some Xvn ->
  List.NoDup (map fst models) ->
  (forall n m, In (n, m) models ->
     exists perf,
       performance roc_curve auc
         (unsupervised_yhat (Sklearn.predict m Xvn)) (y_validation k)
         (Some (unsupervised_anomaly_score m Xvn)) = Ok perf) ->
  exists k' results,
    cell_unsupervised roc_curve auc models k = Ok k' /\
    results_unsupervised k' = Some results /\
    (forall n, is_Some (results !! n) <-> In n (map fst models)) /\
    (forall n m, In (n, m) models ->
       exists perf,
         results !! n = Some perf /\
         performance roc_curve auc
           (unsupervised_yhat (Sklearn.predict m Xvn)) (y_validation k)
           (Some (unsupervised_anomaly_score m Xvn)) = Ok perf /\
         perf !! "yhat"
         = Some (PyLabels (unsupervised_yhat (Sklearn.predict m Xvn)))) /\
    (forall models' n m, models = models' ++ [(n, m)] ->
       yhat k' = Some (unsupervised_yhat (Sklearn.predict m Xvn))).
Proof.
  intros HX Hnodup Hall. unfold cell_unsupervised.
  set (k0 := mkKernel _ _ _ _ _ _ _ _ _ _ _ _).
  destruct (unsupervised_loop roc_curve auc Xvn (y_validation k) models k0 ∅)
    as (k' & r' & Hfold & Hr' & Hout & Hin & Hnd & Hlast);
    [exact HX | reflexivity | reflexivity | exact Hall |].
  exists k', r'. split; [exact Hfold|]. split; [exact Hr'|].
  split; [|split; [|exact Hlast]].
  - intros n. split; [|apply Hin].
    intros Hsome. destruct (in_dec String.string_dec n (map fst models)) as [Hi|Hni];
      [exact Hi|].
    rewrite (Hout n Hni), lookup_empty in Hsome. destruct Hsome; discriminate.
  - intros n m Hm. destruct (Hnd Hnodup n m Hm) as (perf & Hl & Hp).
    unfold loop_metrics in Hp.
    exists perf. split; [exact Hl|]. split; [exact Hp|].
    unfold performance in Hp.
    destruct (Sklearn.accuracy_score _ _) as [acc|]; simpl in Hp; [|discriminate].
    destruct (roc_curve _ _) as [[[FP TP] th]|]; simpl in Hp; [|discriminate].
    destruct (auc FP TP) as [a|]; simpl in Hp; [|discriminate].
    injection Hp as <-. apply lookup_insert_eq.
Qed.

(** X13: when the scaled validation data are bound and the metrics of
    every model can be computed, the loop over the (distinctly named)
    unsupervised models returns; afterwards [results_unsupervised] has an
    entry exactly for the model names, the entry of a model is the
    mapping [performance] returns for its binarized predictions and
    negated decision values, and [yhat] is left bound to the labels of
    the last model. *)
Theorem cell_unsupervised_results
    (roc_curve : list Z -> list Q -> result (list num * list num * list Q))
    (auc : list num -> list num -> result num)
    {M : Type} `{Sklearn.OutlierDetector M}
    (models : list (string * M)) (k : kernel) (Xvn : matrix) :
  X_validation_norm k = Some Xvn ->
  List.NoDup (map fst models) ->
  (forall n m, In (n, m) models ->
     exists perf,
       performance roc_curve auc
         (unsupervised_yhat (Sklearn.predict m Xvn)) (y_validation k)
         (Some (unsupervised_anomaly_score m Xvn)) = Ok perf) ->
  exists k' results,
    cell_unsupervised roc_curve auc models k = Ok k' /\
    results_unsupervised k' = Some results /\
    (forall n, is_Some (results !! n) <-> In n (map fst models)) /\
    (forall n m, In (n, m) models ->
       exists perf,
         results !! n = Some perf /\
         performance roc_curve auc
           (unsupervised_yhat (Sklearn.predict m Xvn)) (y_validation k)
           (Some (unsupervised_anomaly_score m Xvn)) = Ok perf /\
         perf !! "yhat"
         = Some (PyLabels (unsupervised_yhat (Sklearn.predict m Xvn)))) /\
    (forall models' n m, models = models' ++ [(n, m)] ->
       yhat k' = Some (unsupervised_yhat (Sklearn.predict m Xvn))).
Proof. apply cell_unsupervised_results_aux. Qed.

(** ** The autoencoder's forward pass *)

Lemma relu_nonneg (x : Q) : (0 <= Keras.relu x)%Q.
Proof.
  unfold Keras.relu. destruct (Qltb x 0) eqn:E; [lra|].
  apply Qltb_ge in E. exact E.
Qed.

Lemma dot_length (inputs : list Q) (kernel : matrix) :
  length (Keras.dot inputs kernel) = ncols kernel.
Proof. unfold Keras.dot. rewrite length_map, length_seq. reflexivity. Qed.

Lemma call_length (layer : Keras.Dense) (activation : Q -> Q) (inputs : list Q) :
  length (Keras.dense_bias layer) = ncols (Keras.dense_kernel layer) ->
  length (Keras.call layer activation inputs) = ncols (Keras.dense_kernel layer).
Proof.
  intros Hb. unfold Keras.call.
  rewrite length_map, map2_length; rewrite dot_length; congruence.
Qed.

Lemma call_relu_nonneg (layer : Keras.Dense) (inputs : list Q) :
  Forall (fun v => (0 <= v)%Q) (Keras.call layer Keras.relu inputs).
Proof.
  unfold Keras.call. apply Forall_forall. intros v Hv.
  apply list_elem_of_In, in_map_iff in Hv. destruct Hv as (x & <- & _).
  apply relu_nonneg.
Qed.

Lemma predict_shape (model : Keras.Model) (n_inputs units : nat) (X : matrix) :
  Keras.built model n_inputs units ->
  ncols X = n_inputs ->
  nrows (Keras.predict model X) = nrows X /\
  rectangular (Keras.predict model X) = true /\
  ncols (Keras.predict model X) = ncols X.
Proof.
  intros (_ & _ & _ & _ & _ & _ & Hc & Hb) HX.
  assert (Hrow : forall row,
             length (Keras.call (Keras.decoder model) Keras.relu
                       (Keras.call (Keras.encoder model) Keras.relu row)) = n_inputs).
  { intros row. rewrite call_length; congruence. }
  assert (Hnc : ncols (Keras.predict model X) = ncols X).
  { unfold Keras.predict. destruct X as [|r X]; [reflexivity|].
    simpl. rewrite Hrow. simpl in HX. congruence. }
  split; [apply length_map|]. split; [|exact Hnc].
  unfold rectangular. apply forallb_forall. intros r Hr.
  unfold Keras.predict in Hr. apply in_map_iff in Hr. destruct Hr as (row & <- & _).
  rewrite Hrow, Hnc, HX. apply Nat.eqb_refl.
Qed.

Lemma autoencoder_output_helper (model : Keras.Model) (X : matrix) :
  Keras.built model (length features) 20 ->
  ncols X = 24%nat ->
  nrows (Keras.predict model X) = nrows X /\
  rectangular (Keras.predict model X) = true /\
  ncols (Keras.predict model X) = 24%nat /\
  Forall (Forall (fun v => (0 <= v)%Q)) (Keras.predict model X).
Proof.
  intros Hbuilt HX.
  destruct (predict_shape model (length features) 20 X Hbuilt HX) as (Hn & Hr & Hc).
  split; [exact Hn|]. split; [exact Hr|]. split; [congruence|].
  apply Forall_forall. intros r Hr'.
  apply list_elem_of_In in Hr'. unfold Keras.predict in Hr'.
  apply in_map_iff in Hr'. destruct Hr' as (row & <- & _).
  apply call_relu_nonneg.
Qed.

(** X14: the network built for [len(features)] = 24 inputs with 20 hidden
    units maps an array with 24 columns to an array of the same shape,
    and, its output layer being a ReLU, no entry of the reconstruction is
    negative. *)
Theorem autoencoder_output (model : Keras.Model) (X : matrix) :
  Keras.built model (length features) 20 ->
  ncols X = 24%nat ->
  length features = 24%nat /\
  nrows (Keras.predict model X) = nrows X /\
  rectangular (Keras.predict model X) = true /\
  ncols (Keras.predict model X) = 24%nat /\
  Forall (Forall (fun v => (0 <= v)%Q)) (Keras.predict model X).
Proof.
  intros Hbuilt HX.
  split; [reflexivity|]. apply autoencoder_output_helper; assumption.
Qed.

Lemma Qsum_nonneg (l : list Q) : Forall (fun v => (0 <= v)%Q) l -> (0 <= Qsum l)%Q.
Proof.
  induction 1 as [|x l Hx _ IH]; simpl; [lra|].
  fold (Qsum l). lra.
Qed.

Lemma sqdiff_nonneg (a b : Q) : (0 <= sqdiff a b)%Q.
Proof.
  unfold sqdiff. simpl.
  destruct (Qlt_le_dec (a - b) 0) as [Hneg|Hpos].
  - assert (E : ((a - b) * (a - b) == (b - a) * (b - a))%Q) by ring.
    rewrite E. apply Qmult_le_0_compat; lra.
  - apply Qmult_le_0_compat; lra.
Qed.

Lemma sqdiff_floor (p x : Q) :
  (0 <= p)%Q -> ((if Qltb x 0 then x ^ 2 else 0) <= sqdiff p x)%Q.
Proof.
  intros Hp. destruct (Qltb x 0) eqn:E; [|apply sqdiff_nonneg].
  apply Qltb_lt in E. unfold sqdiff. simpl.
  assert (H : (0 <= p * (p - 2 * x))%Q) by (apply Qmult_le_0_compat; lra).
  assert (Esq : ((p - x) * (p - x) == x * x + p * (p - 2 * x))%Q) by ring.
  rewrite Esq. lra.
Qed.

Lemma negative_energy_floor (p row : list Q) :
  Forall (fun v => (0 <= v)%Q) p -> length p = length row ->
  (negative_energy row <= Qsum (map2 sqdiff p row))%Q.
Proof.
  unfold negative_energy.
  intros Hp. revert row. induction Hp as [|a p Ha _ IH]; intros [|x row] Hlen;
    simpl in Hlen; try discriminate.
  cbn [map map2 Qsum fold_right].
  fold (Qsum (map (fun v => if Qltb v 0 then (v ^ 2)%Q else 0%Q) row)).
  fold (Qsum (map2 sqdiff p row)).
  pose proof (sqdiff_floor a x Ha). specialize (IH row ltac:(lia)). lra.
Qed.

(** X15: with that network the reconstruction error of every row is at
    least the mean of the squares of the row's negative entries: a ReLU
    output cannot reproduce a negative scaled feature. *)
Theorem relu_decoder_error_floor (model : Keras.Model) (X : matrix) :
  Keras.built model (length features) 20 ->
  rectangular X = true -> (0 < nrows X)%nat -> ncols X = 24%nat ->
  exists scores,
    reconstruction_mse (Keras.predict model) X = Ok scores /\
    length scores = nrows X /\
    forall j row, nth_error X j = Some row ->
      exists s, nth_error scores j = Some s /\
                (negative_energy row / 24 <= s)%Q.
Proof.
  intros Hbuilt Hr Hn Hc.
  destruct (autoencoder_output_helper model X Hbuilt Hc) as (HnP & HrP & HcP & Hnn).
  eexists. split.
  { apply reconstruction_mse_rows; try assumption; lia. }
  split; [rewrite map2_length; [exact HnP | exact HnP]|].
  intros j row Hrow.
  assert (Hj : (j < nrows (Keras.predict model X))%nat).
  { rewrite HnP. apply nth_error_Some. congruence. }
  destruct (nth_error (Keras.predict model X) j) as [p|] eqn:Hp;
    [|apply nth_error_None in Hp; unfold nrows in Hj; lia].
  eexists. split; [apply (map2_nth_error _ _ _ _ _ _ Hp Hrow)|].
  rewrite Hc.
  assert (Hpn : Forall (fun v => (0 <= v)%Q) p).
  { rewrite Forall_forall in Hnn. apply Hnn, list_elem_of_In.
    eapply nth_error_In. exact Hp. }
  assert (Hlen : length p = length row).
  { rewrite (rectangular_row _ p HrP (nth_error_In _ _ Hp)).
    rewrite (rectangular_row _ row Hr (nth_error_In _ _ Hrow)). congruence. }
  pose proof (negative_energy_floor p row Hpn Hlen) as Hfloor.
  apply Qmult_le_compat_r; [exact Hfloor | unfold Qle; simpl; lia].
Qed.

(** ** Reconstruction errors are non-negative; a model that fits exactly *)

Lemma column_nonneg (j : nat) (m : matrix) :
  Forall (Forall (fun v => (0 <= v)%Q)) m ->
  Forall (fun v => (0 <= v)%Q) (column j m).
Proof.
  intros Hm. unfold column. apply Forall_forall. intros v Hv.
  apply list_elem_of_In, in_map_iff in Hv. destruct Hv as (r & <- & Hr).
  rewrite Forall_forall in Hm. specialize (Hm r (proj2 (list_elem_of_In _ _) Hr)).
  destruct (Nat.lt_ge_cases j (length r)) as [Hlt|Hge].
  - rewrite Forall_forall in Hm. apply Hm, list_elem_of_In, nth_In, Hlt.
  - rewrite nth_overflow by exact Hge. lra.
Qed.

Lemma map2_sqdiff_nonneg (A B : matrix) :
  Forall (Forall (fun v => (0 <= v)%Q)) (map2 (map2 sqdiff) A B).
Proof.
  revert B. induction A as [|a A IH]; intros [|b B]; simpl; try constructor.
  - clear. revert b. induction a as [|x a IHa]; intros [|y b]; simpl;
      constructor; [apply sqdiff_nonneg | apply IHa].
  - apply IH.
Qed.

Lemma average_axis0_nonneg (m : matrix) :
  Forall (Forall (fun v => (0 <= v)%Q)) m ->
  Forall (fun v => (0 <= v)%Q) (Numpy.average_axis0 m).
Proof.
  intros Hm. unfold Numpy.average_axis0. apply Forall_forall. intros v Hv.
  apply list_elem_of_In, in_map_iff in Hv. destruct Hv as (j & <- & _).
  unfold Qdiv. apply Qmult_le_0_compat.
  - apply Qsum_nonneg, column_nonneg, Hm.
  - apply Qinv_le_0_compat. unfold Qle; simpl. lia.
Qed.

Lemma mean_squared_error_inv (y_true y_pred : matrix) (scores : list Q) :
  Sklearn.mean_squared_error y_true y_pred = Ok scores ->
  well_formed y_true /\ well_formed y_pred /\
  nrows y_true = nrows y_pred /\ ncols y_true = ncols y_pred /\
  scores = Numpy.average_axis0 (map2 (map2 sqdiff) y_true y_pred).
Proof.
  unfold Sklearn.mean_squared_error. intros Hm.
  destruct (Nat.eqb_spec (nrows y_true) (nrows y_pred)) as [Hn|]; [|discriminate].
  cbn [negb] in Hm.
  destruct (Sklearn.check_array y_true) as [A|] eqn:HA; [|discriminate].
  destruct (Sklearn.check_array y_pred) as [B|] eqn:HB; [|discriminate].
  assert (HwA : well_formed y_true) by (apply check_array_returns_iff; eauto).
  assert (HwB : well_formed y_pred) by (apply check_array_returns_iff; eauto).
  destruct HwA as (HrA & HnA & HcA). destruct HwB as (HrB & HnB & HcB).
  rewrite (check_array_ok _ HrA HnA HcA) in HA. injection HA as <-.
  rewrite (check_array_ok _ HrB HnB HcB) in HB. injection HB as <-.
  simpl in Hm.
  destruct (Nat.eqb_spec (ncols y_true) (ncols y_pred)) as [Hc|]; [|discriminate].
  injection Hm as <-. repeat split; assumption.
Qed.

Lemma reconstruction_mse_scores (predict : matrix -> matrix) (X : matrix)
    (scores : list Q) :
  reconstruction_mse predict X = Ok scores ->
  scores <> [] /\ Forall (fun v => (0 <= v)%Q) scores.
Proof.
  unfold reconstruction_mse. intros Hm.
  apply mean_squared_error_inv in Hm.
  destruct Hm as ((HrA & HnA & HcA) & (HrB & HnB & HcB) & Hn & Hc & ->).
  split; [|apply average_axis0_nonneg, map2_sqdiff_nonneg].
  set (A := transpose (predict X)) in *. set (B := transpose X) in *.
  assert (Hlen : length (Numpy.average_axis0 (map2 (map2 sqdiff) A B)) = ncols A).
  { unfold Numpy.average_axis0. rewrite length_map, length_seq.
    destruct A as [|a A'], B as [|b B']; simpl in *; try lia.
    apply map2_length. exact Hc. }
  intros Hnil. rewrite Hnil in Hlen. simpl in Hlen. lia.
Qed.

Lemma cell_threshold_inv (predict : matrix -> matrix) (k k1 : kernel) :
  cell_threshold predict k = Ok k1 ->
  exists Xtn scores t,
    X_train_norm k = Some Xtn /\
    reconstruction_mse predict Xtn = Ok scores /\
    Numpy.percentile scores 95 = Ok t /\
    train_mse k1 = Some scores /\ thresh_train k1 = Some t /\
    X_validation_norm k1 = X_validation_norm k /\
    y_validation k1 = y_validation k.
Proof.
  unfold cell_threshold. intros Hc.
  apply bind_Ok_inv in Hc. destruct Hc as (Xtn & HX & Hc).
  apply bind_Ok_inv in Hc. destruct Hc as (scores & Hs & Hc).
  apply bind_Ok_inv in Hc. destruct Hc as (t & Ht & Hc).
  injection Hc as <-. apply name_Ok_inv in HX.
  exists Xtn, scores, t. repeat split; assumption.
Qed.

(** X16: the threshold the notebook computes is never negative; and if
    the model reconstructs every training row exactly (all training
    errors 0), the threshold is 0 and the validation cell labels every
    validation row an anomaly. *)
Theorem exact_fit_flags_everything (predict : matrix -> matrix) (k k1 : kernel) :
  cell_threshold predict k = Ok k1 ->
  exists scores t,
    train_mse k1 = Some scores /\ thresh_train k1 = Some t /\
    (0 <= t)%Q /\
    (Forall (fun v => (v == 0)%Q) scores ->
     (t == 0)%Q /\
     forall roc_curve auc k2,
       cell_validate roc_curve auc predict k1 = Ok k2 ->
       exists labels, yhat k2 = Some labels /\ Forall (fun l => l = 1%Z) labels).
Proof.
  intros Hc. apply cell_threshold_inv in Hc.
  destruct Hc as (Xtn & scores & t & _ & Hs & Ht & Htm & Hth & _).
  exists scores, t. split; [exact Htm|]. split; [exact Hth|].
  destruct (reconstruction_mse_scores _ _ _ Hs) as (Hne & Hnn).
  destruct (percentile_within_data_aux scores 95 Hne) as (t' & lo & hi & Ht' & Hlo & Hhi & _ & Hl & Hh);
    try lra.
  rewrite Ht in Ht'. injection Ht' as <-.
  rewrite Forall_forall in Hnn.
  assert (H0 : (0 <= t)%Q).
  { pose proof (Hnn lo (proj2 (list_elem_of_In _ _) Hlo)). simpl in *. lra. }
  split; [exact H0|].
  intros Hz. rewrite Forall_forall in Hz.
  assert (Ht0 : (t == 0)%Q).
  { pose proof (Hz hi (proj2 (list_elem_of_In _ _) Hhi)) as Hhz. simpl in Hhz. lra. }
  split; [exact Ht0|].
  intros roc_curve auc k2 Hv. apply cell_validate_inv in Hv.
  destruct Hv as (Xvn & sv & t2 & _ & Hsv & Ht2 & _ & Hy & _).
  rewrite Hth in Ht2. injection Ht2 as <-.
  exists (threshold_yhat t sv). split; [exact Hy|].
  destruct (reconstruction_mse_scores _ _ _ Hsv) as (_ & Hvn).
  unfold threshold_yhat. apply Forall_forall. intros l Hl'.
  apply list_elem_of_In, in_map_iff in Hl'. destruct Hl' as (x & <- & Hx).
  rewrite Forall_forall in Hvn.
  pose proof (Hvn x (proj2 (list_elem_of_In _ _) Hx)) as Hx0. simpl in Hx0.
  assert (E : Qltb x t = false) by (apply Qltb_ge; lra).
  rewrite E. reflexivity.
Qed.

(** ** The confusion matrix *)

Lemma insert_label_In (x z : Z) (l : list Z) :
  In z (Metrics.insert_label x l) <-> z = x \/ In z l.
Proof.
  induction l as [|y l IH]; simpl.
  - intuition.
  - destruct (Z.ltb_spec x y); [simpl; intuition|].
    destruct (Z.eqb_spec x y); [subst; simpl; intuition|].
    simpl. rewrite IH. intuition.
Qed.

Lemma insert_label_sorted (x : Z) (l : list Z) :
  StronglySorted Z.lt l -> StronglySorted Z.lt (Metrics.insert_label x l).
Proof.
  induction 1 as [|y l Hs IH Hall]; simpl.
  - repeat constructor.
  - destruct (Z.ltb_spec x y).
    + constructor; [constructor; assumption|].
      constructor; [assumption|].
      eapply Forall_impl; [exact Hall|]. intros z Hz. simpl in Hz. lia.
    + destruct (Z.eqb_spec x y); [constructor; assumption|].
      constructor; [exact IH|].
      apply Forall_forall. intros z Hz.
      apply list_elem_of_In, insert_label_In in Hz. destruct Hz as [->|Hz]; [lia|].
      rewrite Forall_forall in Hall. apply Hall, list_elem_of_In, Hz.
Qed.

Lemma unique_labels_In (y_true y_pred : list Z) (z : Z) :
  In z (Metrics.unique_labels y_true y_pred) <-> In z y_true \/ In z y_pred.
Proof.
  unfold Metrics.unique_labels. rewrite <- in_app_iff.
  induction (y_true ++ y_pred) as [|x l IH]; simpl; [tauto|].
  rewrite insert_label_In, IH. intuition.
Qed.

Lemma unique_labels_sorted (y_true y_pred : list Z) :
  StronglySorted Z.lt (Metrics.unique_labels y_true y_pred).
Proof.
  unfold Metrics.unique_labels.
  induction (y_true ++ y_pred) as [|x l IH]; simpl; [constructor|].
  apply insert_label_sorted, IH.
Qed.

Lemma strictly_sorted_ext (l l' : list Z) :
  StronglySorted Z.lt l -> StronglySorted Z.lt l' ->
  (forall z, In z l <-> In z l') -> l = l'.
Proof.
  intros Hs. revert l'. induction Hs as [|x l Hs IH Hall]; intros l' Hs' Hext.
  - destruct l' as [|y l']; [reflexivity|].
    exfalso. apply (proj2 (Hext y)). left. reflexivity.
  - destruct Hs' as [|y l' Hs' Hall'].
    + exfalso. apply (proj1 (Hext x)). left. reflexivity.
    + rewrite Forall_forall in Hall, Hall'.
      assert (Hxy : x = y).
      { destruct (proj1 (Hext x) (or_introl eq_refl)) as [E|Hx]; [congruence|].
        destruct (proj2 (Hext y) (or_introl eq_refl)) as [E|Hy]; [congruence|].
        pose proof (Hall y (proj2 (list_elem_of_In _ _) Hy)).
        pose proof (Hall' x (proj2 (list_elem_of_In _ _) Hx)). lia. }
      subst y. f_equal. apply IH; [exact Hs'|].
      intros z. split; intros Hz.
      * destruct (proj1 (Hext z) (or_intror Hz)) as [E|Hz']; [|exact Hz'].
        pose proof (Hall z (proj2 (list_elem_of_In _ _) Hz)). lia.
      * destruct (proj2 (Hext z) (or_intror Hz)) as [E|Hz']; [|exact Hz'].
        pose proof (Hall' z (proj2 (list_elem_of_In _ _) Hz)). lia.
Qed.

Lemma unique_labels_sym (y_true y_pred : list Z) :
  Metrics.unique_labels y_pred y_true = Metrics.unique_labels y_true y_pred.
Proof.
  apply strictly_sorted_ext; try apply unique_labels_sorted.
  intros z. rewrite !unique_labels_In. tauto.
Qed.

Lemma cell_swap (y_true y_pred : list Z) (li lj : Z) :
  Metrics.cell y_pred y_true lj li = Metrics.cell y_true y_pred li lj.
Proof.
  unfold Metrics.cell. revert y_pred.
  induction y_true as [|t y_true IH]; intros [|p y_pred]; simpl; try reflexivity.
  rewrite (andb_comm (p =? lj)%Z). destruct ((t =? li)%Z && (p =? lj)%Z); simpl;
    rewrite IH; reflexivity.
Qed.

Lemma list_sum_map_add {A : Type} (f g : A -> nat) (l : list A) :
  list_sum (map (fun x => f x + g x)%nat l)
  = (list_sum (map f l) + list_sum (map g l))%nat.
Proof. induction l as [|a l IH]; simpl; [reflexivity|]. rewrite IH. lia. Qed.

Lemma list_sum_map_ext {A : Type} (f g : A -> nat) (l : list A) :
  (forall x, In x l -> f x = g x) -> list_sum (map f l) = list_sum (map g l).
Proof. intros Hext. f_equal. apply map_ext_in, Hext. Qed.

Lemma list_sum_map_zero {A : Type} (l : list A) :
  list_sum (map (fun _ => 0%nat) l) = 0%nat.
Proof. induction l as [|a l IH]; simpl; [reflexivity | exact IH]. Qed.

(** In a strictly ascending list a label is met once, or never. *)
Lemma indicator_sum (L : list Z) (z : Z) :
  StronglySorted Z.lt L ->
  list_sum (map (fun l => if (z =? l)%Z then 1 else 0)%nat L)
  = (if in_dec Z.eq_dec z L then 1 else 0)%nat.
Proof.
  induction 1 as [|y L Hs IH Hall]; [reflexivity|].
  cbn [map list_sum fold_right]. fold (list_sum (map (fun l => if (z =? l)%Z then 1 else 0)%nat L)).
  rewrite IH. rewrite Forall_forall in Hall.
  destruct (Z.eqb_spec z y) as [->|Hne].
  - destruct (in_dec Z.eq_dec y L) as [Hin|Hni].
    + pose proof (Hall y (proj2 (list_elem_of_In _ _) Hin)). lia.
    + destruct (in_dec Z.eq_dec y (y :: L)) as [_|Hni']; [reflexivity|].
      exfalso. apply Hni'. left. reflexivity.
  - destruct (in_dec Z.eq_dec z L) as [Hin|Hni];
      destruct (in_dec Z.eq_dec z (y :: L)) as [Hin'|Hni']; try reflexivity.
    + exfalso. apply Hni'. right. exact Hin.
    + exfalso. destruct Hin' as [E|Hin']; [congruence | contradiction].
Qed.

Section Counting.

Variable L : list Z.
Hypothesis L_sorted : StronglySorted Z.lt L.

Lemma hit_row (t p li : Z) :
  In p L -> list_sum (map (hit t p li) L) = (if (t =? li)%Z then 1 else 0)%nat.
Proof.
  intros Hp. unfold hit. destruct (t =? li)%Z; simpl.
  - rewrite (indicator_sum L p L_sorted).
    destruct (in_dec Z.eq_dec p L); [reflexivity | contradiction].
  - apply list_sum_map_zero.
Qed.

Lemma hit_total (t p : Z) :
  In t L -> In p L ->
  list_sum (map (fun li => list_sum (map (hit t p li) L)) L) = 1%nat.
Proof.
  intros Ht Hp.
  rewrite (list_sum_map_ext _ (fun li => if (t =? li)%Z then 1 else 0)%nat)
    by (intros li _; apply hit_row, Hp).
  rewrite (indicator_sum L t L_sorted).
  destruct (in_dec Z.eq_dec t L); [reflexivity | contradiction].
Qed.

Lemma hit_diagonal (t p : Z) :
  In t L ->
  list_sum (map (fun li => hit t p li li) L) = (if (t =? p)%Z then 1 else 0)%nat.
Proof.
  intros Ht. unfold hit. destruct (Z.eqb_spec t p) as [->|Hne].
  - rewrite (list_sum_map_ext _ (fun li => if (p =? li)%Z then 1 else 0)%nat)
      by (intros li _; destruct (p =? li)%Z; reflexivity).
    rewrite (indicator_sum L p L_sorted).
    destruct (in_dec Z.eq_dec p L); [reflexivity | contradiction].
  - rewrite (list_sum_map_ext _ (fun _ => 0%nat)).
    + apply list_sum_map_zero.
    + intros li _. destruct (Z.eqb_spec t li), (Z.eqb_spec p li); simpl;
        try reflexivity. congruence.
Qed.

End Counting.

Lemma cell_cons (t p : Z) (y_true y_pred : list Z) (li lj : Z) :
  Metrics.cell (t :: y_true) (p :: y_pred) li lj
  = (hit t p li lj + Metrics.cell y_true y_pred li lj)%nat.
Proof.
  unfold Metrics.cell, hit. simpl.
  destruct ((t =? li)%Z && (p =? lj)%Z); reflexivity.
Qed.

Lemma cells_total (L : list Z) (y_true y_pred : list Z) :
  StronglySorted Z.lt L -> length y_true = length y_pred ->
  (forall z, In z y_true \/ In z y_pred -> In z L) ->
  list_sum (map (fun li => list_sum (map (fun lj => Metrics.cell y_true y_pred li lj) L)) L)
  = length y_true /\
  list_sum (map (fun li => Metrics.cell y_true y_pred li li) L)
  = agreements y_true y_pred.
Proof.
  intros HL. revert y_pred.
  induction y_true as [|t y_true IH]; intros [|p y_pred] Hlen Hin;
    simpl in Hlen; try discriminate.
  - unfold Metrics.cell, agreements. simpl. split.
    + rewrite (list_sum_map_ext _ (fun _ => 0%nat))
        by (intros; apply list_sum_map_zero).
      apply list_sum_map_zero.
    + apply list_sum_map_zero.
  - destruct (IH y_pred ltac:(lia)) as (Htot & Hdiag).
    { intros z [Hz|Hz]; apply Hin; [left | right]; right; exact Hz. }
    assert (Ht : In t L) by (apply Hin; left; left; reflexivity).
    assert (Hp : In p L) by (apply Hin; right; left; reflexivity).
    split.
    + rewrite (list_sum_map_ext _
                 (fun li => list_sum (map (hit t p li) L)
                            + list_sum (map (fun lj => Metrics.cell y_true y_pred li lj) L))%nat).
      * rewrite list_sum_map_add, (hit_total L HL t p Ht Hp), Htot. reflexivity.
      * intros li _. rewrite <- list_sum_map_add.
        apply list_sum_map_ext. intros lj _. apply cell_cons.
    + rewrite (list_sum_map_ext _
                 (fun li => hit t p li li + Metrics.cell y_true y_pred li li)%nat)
        by (intros li _; apply cell_cons).
      rewrite list_sum_map_add, (hit_diagonal L HL t p Ht), Hdiag.
      unfold agreements. simpl. destruct (t =? p)%Z; reflexivity.
Qed.

Lemma map_seq_nth {A B : Type} (f : A -> B) (l : list A) (d : A) :
  map (fun i => f (nth i l d)) (seq 0 (length l)) = map f l.
Proof.
  induction l as [|a l IH]; simpl; [reflexivity|].
  f_equal. rewrite <- seq_shift, map_map. exact IH.
Qed.

Lemma unique_labels_nonempty (y_true y_pred : list Z) :
  y_true <> [] -> Metrics.unique_labels y_true y_pred <> [].
Proof.
  intros Hne Hnil. destruct y_true as [|t y_true]; [congruence |].
  assert (Hin : In t (Metrics.unique_labels (t :: y_true) y_pred)).
  { apply unique_labels_In. left. left. reflexivity. }
  rewrite Hnil in Hin. exact Hin.
Qed.

Lemma heatmap_nonempty {A : Type} (f : A -> list nat) (l : list A) :
  l <> [] -> heatmap (map f l) = Ok (map f l).
Proof. destruct l; [congruence | reflexivity]. Qed.

(** X18: on non-empty label vectors of equal length the confusion matrix
    that [plot_confmat] draws counts every sample exactly once (its
    entries add up to the number of samples) and its diagonal adds up to
    the number of agreements, the numerator of the accuracy.  On vectors
    of different lengths [plot_confmat] raises [ValueError], and on two
    empty vectors too: there is no matrix entry to draw. *)
Theorem confusion_matrix_counts (y_true y_pred : list Z) :
  (length y_true <> length y_pred ->
   plot_confmat y_true y_pred = Raise ValueError) /\
  (y_true = [] -> y_pred = [] ->
   plot_confmat y_true y_pred = Raise ValueError) /\
  (length y_true = length y_pred -> y_true <> [] ->
   exists cm labels,
     plot_confmat y_true y_pred = Ok cm /\
     labels = Metrics.unique_labels y_true y_pred /\
     length cm = length labels /\ Forall (fun row => length row = length labels) cm /\
     list_sum (map list_sum cm) = length y_true /\
     list_sum (map (fun i => nth i (nth i cm []) 0%nat) (seq 0 (length labels)))
     = agreements y_true y_pred).
Proof.
  unfold plot_confmat, Metrics.confusion_matrix. split; [| split].
  - intros Hneq. destruct (Nat.eqb_spec (length y_true) (length y_pred));
      [contradiction | reflexivity].
  - intros -> ->. reflexivity.
  - intros Hlen Hne.
    destruct (Nat.eqb_spec (length y_true) (length y_pred)); [|contradiction].
    cbn [negb].
    pose proof (unique_labels_nonempty y_true y_pred Hne) as HL.
    set (L := Metrics.unique_labels y_true y_pred) in *.
    destruct (cells_total L y_true y_pred (unique_labels_sorted _ _) Hlen)
      as (Htot & Hdiag).
    { intros z Hz. apply unique_labels_In. exact Hz. }
    cbn [mbind result_bind]. rewrite (heatmap_nonempty _ L HL).
    eexists _, L. split; [reflexivity|]. split; [reflexivity|].
    split; [apply length_map|]. split.
    { apply Forall_forall. intros row Hrow.
      apply list_elem_of_In, in_map_iff in Hrow. destruct Hrow as (li & <- & _).
      apply length_map. }
    split.
    + rewrite map_map. exact Htot.
    + rewrite <- Hdiag.
      rewrite <- (map_seq_nth (fun li => Metrics.cell y_true y_pred li li) L 0%Z).
      apply list_sum_map_ext. intros i Hi. apply in_seq in Hi.
      rewrite (nth_indep _ [] (map (fun lj => Metrics.cell y_true y_pred 0%Z lj) L))
        by (rewrite length_map; lia).
      rewrite (map_nth (fun li => map (fun lj => Metrics.cell y_true y_pred li lj) L) L 0%Z i).
      rewrite (nth_indep _ 0%nat (Metrics.cell y_true y_pred (nth i L 0%Z) 0%Z))
        by (rewrite length_map; lia).
      rewrite (map_nth (fun lj => Metrics.cell y_true y_pred (nth i L 0%Z) lj) L 0%Z i).
      reflexivity.
Qed.

(** X19: the autoencoder section calls [plot_confmat(yhat, y_validation)],
    with the predicted labels in the place of the true ones: for a
    non-empty [yhat] with one label per validation row, the matrix it
    draws is the transpose of the confusion matrix of the true labels
    against the predictions, so its rows are the predicted labels. *)
Theorem autoencoder_confusion_matrix_transposed (yhat y_validation : list Z) :
  yhat <> [] ->
  length yhat = length y_validation ->
  exists drawn cm labels,
    plot_confmat_autoencoder yhat y_validation = Ok drawn /\
    plot_confmat y_validation yhat = Ok cm /\
    labels = Metrics.unique_labels y_validation yhat /\
    forall i j, (i < length labels)%nat -> (j < length labels)%nat ->
      nth j (nth i drawn []) 0%nat = nth i (nth j cm []) 0%nat /\
      nth j (nth i drawn []) 0%nat
      = Metrics.cell y_validation yhat (nth j labels 0%Z) (nth i labels 0%Z).
Proof.
  intros Hne Hlen.
  unfold plot_confmat_autoencoder, plot_confmat, Metrics.confusion_matrix.
  rewrite Hlen, Nat.eqb_refl. cbn [negb].
  pose proof (unique_labels_nonempty yhat y_validation Hne) as HL.
  rewrite (unique_labels_sym y_validation yhat) in HL |- *.
  set (L := Metrics.unique_labels y_validation yhat) in *.
  cbn [mbind result_bind]. rewrite !(heatmap_nonempty _ L HL).
  eexists _, _, L. split; [reflexivity|]. split; [reflexivity|].
  split; [reflexivity|].
  intros i j Hi Hj.
  assert (Hentry : forall (f : Z -> Z -> nat) a b, (a < length L)%nat -> (b < length L)%nat ->
            nth b (nth a (map (fun li => map (fun lj => f li lj) L) L) []) 0%nat
            = f (nth a L 0%Z) (nth b L 0%Z)).
  { intros f a b Ha Hb.
    rewrite (nth_indep _ [] (map (fun lj => f 0%Z lj) L)) by (rewrite length_map; lia).
    rewrite (map_nth (fun li => map (fun lj => f li lj) L) L 0%Z a).
    rewrite (nth_indep _ 0%nat (f (nth a L 0%Z) 0%Z)) by (rewrite length_map; lia).
    rewrite (map_nth (fun lj => f (nth a L 0%Z) lj) L 0%Z b). reflexivity. }
  rewrite !Hentry by assumption.
  split; apply cell_swap.
Qed.

Lemma cell_unsupervised_y_validation
    (roc_curve : list Z -> list Q -> result (list num * list num * list Q))
    (auc : list num -> list num -> result num)
    {M : Type} `{Sklearn.OutlierDetector M}
    (models : list (string * M)) (k k' : kernel) :
  cell_unsupervised roc_curve auc models k = Ok k' ->
  y_validation k' = y_validation k.
Proof.
  unfold cell_unsupervised. intros Hc.
  apply (foldM_invariant _ y_validation) in Hc; [exact Hc|].
  intros s [model_name model] s' Hb. unfold cell_unsupervised_body in Hb.
  apply bind_Ok_inv in Hb. destruct Hb as (? & _ & Hb).
  apply bind_Ok_inv in Hb. destruct Hb as (? & _ & Hb).
  apply bind_Ok_inv in Hb. destruct Hb as (? & _ & Hb).
  injection Hb as <-. reflexivity.
Qed.

(** X20: after the loop over the unsupervised models,
    [plot_confmat(y_validation, results_unsupervised[name]['yhat'])]
    finds both keys for every model of the loop and draws the confusion
    matrix of the true labels against that model's labels; for a name
    that was not in the loop the first lookup fails. *)
Theorem confusion_matrix_of_loop_result
    (roc_curve : list Z -> list Q -> result (list num * list num * list Q))
    (auc : list num -> list num -> result num)
    {M : Type} `{Sklearn.OutlierDetector M}
    (models : list (string * M)) (k : kernel) (Xvn : matrix) :
  X_validation_norm k = Some Xvn ->
  List.NoDup (map fst models) ->
  (forall n m, In (n, m) models ->
     exists perf,
       performance roc_curve auc
         (unsupervised_yhat (Sklearn.predict m Xvn)) (y_validation k)
         (Some (unsupervised_anomaly_score m Xvn)) = Ok perf) ->
  exists k' results,
    cell_unsupervised roc_curve auc models k = Ok k' /\
    results_unsupervised k' = Some results /\
    (forall n m, In (n, m) models ->
       plot_confmat_of_results (y_validation k') results n
       = Some (plot_confmat (y_validation k)
                 (unsupervised_yhat (Sklearn.predict m Xvn)))) /\
    (forall n, ~ In n (map fst models) ->
       plot_confmat_of_results (y_validation k') results n = None).
Proof.
  intros HX Hnodup Hall.
  destruct (cell_unsupervised_results_aux roc_curve auc models k Xvn HX Hnodup Hall)
    as (k' & results & Hc & Hr & Hdom & Hent & _).
  exists k', results. split; [exact Hc|]. split; [exact Hr|].
  rewrite (cell_unsupervised_y_validation _ _ _ _ _ Hc). split.
  - intros n m Hm. destruct (Hent n m Hm) as (perf & Hl & _ & Hy).
    unfold plot_confmat_of_results. rewrite Hl. simpl. rewrite Hy. reflexivity.
  - intros n Hn. unfold plot_confmat_of_results.
    destruct (results !! n) eqn:E; [|reflexivity].
    exfalso. apply Hn, Hdom. eauto.
Qed.

(** ** The class ratio *)

Lemma value_counts_lookup (y : list Z) (v : Z) :
  value_counts y !! v
  = if Nat.eqb (count_occ Z.eq_dec y v) 0 then None
    else Some (count_occ Z.eq_dec y v).
Proof.
  induction y as [|x y IH]; [reflexivity|].
  cbn [value_counts fold_right count_occ]. fold (value_counts y).
  destruct (Z.eq_dec x v) as [->|Hne].
  - rewrite lookup_insert_eq, IH.
    destruct (count_occ Z.eq_dec y v); reflexivity.
  - rewrite lookup_insert_ne by exact Hne. exact IH.
Qed.

(** X21: [class_ratio] is computed exactly when some training label is 1
    (otherwise the lookup of the count of label 1 is a [KeyError]); it is
    then the share of labels 1, greater than 0 and at most 1. *)
Theorem class_ratio_range (y_train : list Z) :
  (~ In 1%Z y_train -> class_ratio y_train = None) /\
  (In 1%Z y_train ->
   exists ratio,
     class_ratio y_train = Some ratio /\
     (ratio == inject_Z (Z.of_nat (count_occ Z.eq_dec y_train 1%Z))
               / inject_Z (Z.of_nat (length y_train)))%Q /\
     (0 < ratio)%Q /\ (ratio <= 1)%Q).
Proof.
  unfold class_ratio. rewrite value_counts_lookup. split.
  - intros Hni. apply (count_occ_not_In Z.eq_dec) in Hni. rewrite Hni. reflexivity.
  - intros Hin. apply (count_occ_In Z.eq_dec) in Hin.
    destruct (Nat.eqb_spec (count_occ Z.eq_dec y_train 1%Z) 0) as [E|_]; [lia|].
    simpl. eexists. split; [reflexivity|]. split; [reflexivity|].
    pose proof (count_occ_bound Z.eq_dec 1%Z y_train) as Hb.
    set (c := count_occ Z.eq_dec y_train 1%Z) in *.
    set (n := length y_train) in *.
    assert (Hc : (0 < inject_Z (Z.of_nat c))%Q) by (rewrite <- (Zlt_Qlt 0); lia).
    assert (Hn : (0 < inject_Z (Z.of_nat n))%Q) by (rewrite <- (Zlt_Qlt 0); lia).
    assert (Hcn : (inject_Z (Z.of_nat c) <= inject_Z (Z.of_nat n))%Q)
      by (rewrite <- Zle_Qle; lia).
    split.
    + apply Qlt_shift_div_l; [exact Hn | lra].
    + apply Qle_shift_div_r; [exact Hn | lra].
Qed.

(** ** The comparison of the models *)

Lemma comparison_rows (l : list (string * gmap string pyval))
    (rows : list (string * (pyval * pyval))) :
  Forall2 (fun (item : string * gmap string pyval) y =>
             (row ← metrics_row item.2; Some (item.1, row)) = Some y) l rows ->
  rows.*1 = l.*1 /\
  forall n row, (n, row) ∈ rows <->
                exists r, (n, r) ∈ l /\ metrics_row r = Some row.
Proof.
  induction 1 as [|[n1 r1] [n1' row1] l rows Hhead _ IH].
  - split; [reflexivity|]. intros n row. split.
    + intros Hin. apply elem_of_nil in Hin. contradiction.
    + intros (r & Hin & _). apply elem_of_nil in Hin. contradiction.
  - destruct IH as (Hfst & Hmem). simpl in Hhead.
    destruct (metrics_row r1) as [row|] eqn:Hrow; simpl in Hhead; [|discriminate].
    injection Hhead as <- <-.
    split; [simpl; f_equal; exact Hfst|].
    intros n row'. rewrite elem_of_cons, Hmem. split.
    + intros [Heq|(r & Hin & Hr)].
      * injection Heq as -> ->. exists r1. split; [left | exact Hrow].
      * exists r. split; [right; exact Hin | exact Hr].
    + intros (r & Hin & Hr). apply elem_of_cons in Hin.
      destruct Hin as [Heq|Hin].
      * injection Heq as -> ->. left. congruence.
      * right. exists r. split; assumption.
Qed.

Lemma comparison_table_lookup (results : gmap string (gmap string pyval))
    (table : gmap string (pyval * pyval)) (n : string) :
  comparison_table results = Some table ->
  table !! n = results !! n ≫= metrics_row.
Proof.
  unfold comparison_table. intros Ht.
  destruct (mapM _ (map_to_list results)) as [rows|] eqn:Hrows; [|discriminate].
  simpl in Ht. injection Ht as <-.
  apply mapM_Some in Hrows. apply comparison_rows in Hrows.
  destruct Hrows as (Hfst & Hmem).
  assert (Hnodup : NoDup rows.*1).
  { rewrite Hfst. apply NoDup_fst_map_to_list. }
  destruct (results !! n) as [r|] eqn:Hr; simpl.
  - destruct (metrics_row r) as [row|] eqn:Hrow.
    + apply elem_of_list_to_map; [exact Hnodup|].
      apply Hmem. exists r. split; [apply elem_of_map_to_list; exact Hr | exact Hrow].
    + apply not_elem_of_list_to_map. intros Hin.
      apply list_elem_of_fmap in Hin. destruct Hin as ([n' row] & -> & Hin).
      apply Hmem in Hin. destruct Hin as (r' & Hin & Hrow').
      apply elem_of_map_to_list in Hin. simpl in *. congruence.
  - apply not_elem_of_list_to_map. rewrite Hfst. intros Hin.
    apply list_elem_of_fmap in Hin. destruct Hin as ([n' r'] & -> & Hin).
    apply elem_of_map_to_list in Hin. simpl in *. congruence.
Qed.

Lemma comparison_table_returns (results : gmap string (gmap string pyval)) :
  is_Some (comparison_table results) <->
  forall n r, results !! n = Some r -> is_Some (metrics_row r).
Proof.
  unfold comparison_table. split.
  - intros [table Ht] n r Hr.
    destruct (mapM _ (map_to_list results)) as [rows|] eqn:Hrows; [|discriminate].
    assert (Hs : is_Some (mapM (fun item : string * gmap string pyval =>
                    row ← metrics_row item.2; Some (item.1, row))
                    (map_to_list results))) by (rewrite Hrows; eauto).
    apply mapM_is_Some in Hs. rewrite Forall_forall in Hs.
    specialize (Hs (n, r) (proj2 (elem_of_map_to_list _ _ _) Hr)).
    simpl in Hs. destruct (metrics_row r); [eauto|].
    destruct Hs as [? Hs]. discriminate.
  - intros Hall.
    assert (Hs : is_Some (mapM (fun item : string * gmap string pyval =>
                    row ← metrics_row item.2; Some (item.1, row))
                    (map_to_list results))).
    { apply mapM_is_Some, Forall_forall. intros [n r] Hin.
      apply elem_of_map_to_list in Hin. destruct (Hall n r Hin) as [row Hrow].
      simpl. rewrite Hrow. eauto. }
    destruct Hs as [rows Hrows]. rewrite Hrows. eauto.
Qed.

(** X22: the comparison cell builds its table exactly when every entry
    that survives the merge of the two result dictionaries has the keys
    'accuracy' and 'AUC' (otherwise a lookup is a [KeyError]); the table
    then has one row for every model of either dictionary, holding that
    model's accuracy and AUC, and for a model name in both dictionaries
    the row comes from the unsupervised results. *)
Theorem comparison_table_rows
    (results_supervised results_unsupervised : gmap string (gmap string pyval)) :
  let results := merge_results results_supervised results_unsupervised in
  (forall n, results !! n
             = match results_unsupervised !! n with
               | Some r => Some r
               | None => results_supervised !! n
               end) /\
  (is_Some (cell_compare results_supervised results_unsupervised) <->
   forall n r, results !! n = Some r ->
               is_Some (r !! "accuracy") /\ is_Some (r !! "AUC")) /\
  (forall table, cell_compare results_supervised results_unsupervised = Some table ->
     (forall n, is_Some (table !! n) <->
                is_Some (results_supervised !! n) \/ is_Some (results_unsupervised !! n)) /\
     (forall n r, results !! n = Some r ->
        exists acc area,
          r !! "accuracy" = Some acc /\ r !! "AUC" = Some area /\
          table !! n = Some (acc, area))).
Proof.
  intros results.
  assert (Hmerge : forall n, results !! n
             = match results_unsupervised !! n with
               | Some r => Some r
               | None => results_supervised !! n
               end).
  { intros n. unfold results, merge_results. rewrite lookup_union.
    destruct (results_unsupervised !! n), (results_supervised !! n); reflexivity. }
  assert (Hrow : forall r, is_Some (metrics_row r) <->
                           is_Some (r !! "accuracy") /\ is_Some (r !! "AUC")).
  { intros r. unfold metrics_row.
    destruct (r !! "accuracy"), (r !! "AUC"); simpl; unfold is_Some;
      (split; [intros [x Hx] | intros [[x Hx] [y Hy]]]); try discriminate; eauto. }
  split; [exact Hmerge|]. split.
  - unfold cell_compare. fold results. rewrite comparison_table_returns.
    split; intros Hall n r Hr; apply Hrow, (Hall n r Hr).
  - intros table Ht. unfold cell_compare in Ht. fold results in Ht.
    assert (Hall : forall n r, results !! n = Some r -> is_Some (metrics_row r)).
    { apply comparison_table_returns. rewrite Ht. eauto. }
    split.
    + intros n. rewrite (comparison_table_lookup results table n Ht), Hmerge.
      destruct (results_unsupervised !! n) as [r|] eqn:Hu.
      * pose proof (Hall n r ltac:(rewrite Hmerge, Hu; reflexivity)) as Hs.
        simpl. split; [eauto | intros _; exact Hs].
      * destruct (results_supervised !! n) as [r|] eqn:Hsup.
        -- pose proof (Hall n r ltac:(rewrite Hmerge, Hu; exact Hsup)) as Hs.
           simpl. split; [eauto | intros _; exact Hs].
        -- simpl. split; [intros [? ?]; discriminate|].
           intros [[? ?]|[? ?]]; discriminate.
    + intros n r Hr. rewrite (comparison_table_lookup results table n Ht), Hr. simpl.
      destruct (Hall n r Hr) as [[acc area] Hm].
      unfold metrics_row in *.
      destruct (r !! "accuracy") as [acc'|]; simpl in *; [|discriminate].
      destruct (r !! "AUC") as [area'|]; simpl in *; [|discriminate].
      eauto.
Qed.

(** ** The further properties at concrete inputs *)

Lemma percentile_order_irrelevant_witness :
  exists t',
    Numpy.percentile (Numpy.sort [3; 1; 2]%Q) 95 = Ok t' /\
    (t' == quantile_value [3; 1; 2]%Q 95)%Q.
Proof.
  apply (percentile_order_irrelevant [3; 1; 2]%Q (Numpy.sort [3; 1; 2]%Q) 95).
  - apply Permutation_sym, sort_perm.
  - apply percentile_value; [discriminate | lra | lra].
Defined.

Lemma fit_returns_iff_witness :
  exists scaler1, Sklearn.fit Sklearn.RobustScaler_new Example.Xt = Ok scaler1.
Proof.
  apply (proj2 (proj1 (fit_returns_iff Example.Xt))).
  split; [reflexivity|]. split; vm_compute; lia.
Defined.

Lemma transform_needs_fitted_schema_witness :
  exists scaler1,
    Sklearn.fit Sklearn.RobustScaler_new Example.Xt = Ok scaler1 /\
    exists Y, Sklearn.transform scaler1 Example.Xv = Ok Y.
Proof.
  destruct (transform_needs_fitted_schema Example.Xt Example.Xv)
    as (_ & scaler1 & Hf & Hsame & _).
  - split; [reflexivity|]. split; vm_compute; lia.
  - vm_compute. lia.
  - split; [reflexivity|]. split; vm_compute; lia.
  - exists scaler1. split; [exact Hf|].
    destruct (Hsame eq_refl) as (Y & HY & _). exists Y. exact HY.
Defined.

Lemma accuracy_score_range_witness :
  exists acc,
    Sklearn.accuracy_score [1; 0; 1]%Z [1; 1; 1]%Z = Ok (Fin acc) /\
    (0 <= acc)%Q /\ (acc <= 1)%Q.
Proof.
  destruct (accuracy_score_range [1; 0; 1]%Z [1; 1; 1]%Z) as (_ & Heq & _).
  destruct (Heq eq_refl) as (_ & Hne).
  destruct (Hne ltac:(discriminate)) as (acc & Ha & _ & H0 & H1).
  exists acc. repeat split; assumption.
Defined.

Lemma performance_returns_iff_witness :
  exists m,
    performance Example.roc_curve Example.auc [1; 0]%Z [1; 1]%Z
      (Some [9 # 10; 1 # 10]) = Ok m.
Proof.
  apply (proj2 (proj1 (performance_returns_iff Example.roc_curve Example.auc
                         [1; 0]%Z [1; 1]%Z (Some [9 # 10; 1 # 10])))).
  split; [reflexivity|].
  intros s _. eexists _, _, _, _. split; reflexivity.
Defined.

Lemma sample_models_perform (n : string) (m : Q) :
  In (n, m) Sample.models ->
  exists perf,
    performance Example.roc_curve Example.auc
      (unsupervised_yhat (Sklearn.predict m Example.Xv)) (y_validation Example.scaled)
      (Some (unsupervised_anomaly_score m Example.Xv)) = Ok perf.
Proof.
  intros [E|[E|[]]]; injection E as <- <-; eexists; vm_compute; reflexivity.
Qed.

Lemma sample_models_nodup : List.NoDup (map fst Sample.models).
Proof.
  repeat constructor; simpl; intuition discriminate.
Qed.

Lemma cell_unsupervised_results_witness :
  exists k' results,
    cell_unsupervised Example.roc_curve Example.auc Sample.models Example.scaled = Ok k' /\
    results_unsupervised k' = Some results /\
    (is_Some (results !! "OneClassSVM") <-> In "OneClassSVM" (map fst Sample.models)).
Proof.
  destruct (cell_unsupervised_results Example.roc_curve Example.auc
              Sample.models Example.scaled Example.Xv eq_refl
              sample_models_nodup sample_models_perform)
    as (k' & results & Hc & Hr & Hdom & _).
  exists k', results. split; [exact Hc|]. split; [exact Hr | apply Hdom].
Defined.

Lemma sample_model_built : Keras.built Sample.model (length features) 20.
Proof. repeat split. Qed.

Lemma autoencoder_output_witness :
  nrows (Keras.predict Sample.model Example.wide) = 2%nat /\
  ncols (Keras.predict Sample.model Example.wide) = 24%nat /\
  Forall (Forall (fun v => (0 <= v)%Q)) (Keras.predict Sample.model Example.wide).
Proof.
  destruct (autoencoder_output Sample.model Example.wide sample_model_built eq_refl)
    as (_ & Hn & _ & Hc & Hnn).
  split; [exact Hn|]. split; assumption.
Defined.

Lemma relu_decoder_error_floor_witness :
  exists scores,
    reconstruction_mse (Keras.predict Sample.model) Example.wide = Ok scores /\
    length scores = 2%nat.
Proof.
  destruct (relu_decoder_error_floor Sample.model Example.wide sample_model_built)
    as (scores & Hs & Hl & _);
    [reflexivity | vm_compute; lia | reflexivity |].
  exists scores. split; assumption.
Defined.

Lemma exact_fit_flags_everything_witness :
  exists k1 scores t,
    cell_threshold (fun X => X) Example.scaled = Ok k1 /\
    train_mse k1 = Some scores /\ thresh_train k1 = Some t /\ (0 <= t)%Q.
Proof.
  destruct (cell_threshold (fun X => X) Example.scaled) as [k1|e] eqn:Hc;
    [|vm_compute in Hc; discriminate].
  destruct (exact_fit_flags_everything (fun X => X) Example.scaled k1 Hc)
    as (scores & t & Hs & Ht & H0 & _).
  exists k1, scores, t. repeat split; assumption.
Defined.

Lemma confusion_matrix_counts_witness :
  exists cm,
    plot_confmat [1; 0; 1]%Z [1; 1; 0]%Z = Ok cm /\
    list_sum (map list_sum cm) = 3%nat.
Proof.
  destruct (confusion_matrix_counts [1; 0; 1]%Z [1; 1; 0]%Z) as (_ & _ & Heq).
  destruct (Heq eq_refl) as (cm & labels & Hcm & _ & _ & _ & Htot & _);
    [discriminate |].
  exists cm. split; assumption.
Defined.

Lemma autoencoder_confusion_matrix_transposed_witness :
  exists drawn cm,
    plot_confmat_autoencoder [1; 1; 0]%Z [1; 0; 1]%Z = Ok drawn /\
    plot_confmat [1; 0; 1]%Z [1; 1; 0]%Z = Ok cm /\
    nth 1 (nth 0 drawn []) 0%nat = nth 0 (nth 1 cm []) 0%nat.
Proof.
  destruct (autoencoder_confusion_matrix_transposed [1; 1; 0]%Z [1; 0; 1]%Z)
    as (drawn & cm & labels & Hd & Hcm & Hl & Hent); [discriminate | reflexivity |].
  exists drawn, cm. split; [exact Hd|]. split; [exact Hcm|].
  apply (Hent 0%nat 1%nat); rewrite Hl; vm_compute; lia.
Defined.

Lemma confusion_matrix_of_loop_result_witness :
  exists k' results,
    cell_unsupervised Example.roc_curve Example.auc Sample.models Example.scaled = Ok k' /\
    results_unsupervised k' = Some results /\
    plot_confmat_of_results (y_validation k') results "OneClassSVM"
    = Some (plot_confmat (y_validation Example.scaled)
              (unsupervised_yhat (Sklearn.predict 10%Q Example.Xv))).
Proof.
  destruct (confusion_matrix_of_loop_result Example.roc_curve Example.auc
              Sample.models Example.scaled Example.Xv eq_refl
              sample_models_nodup sample_models_perform)
    as (k' & results & Hc & Hr & Hplot & _).
  exists k', results. split; [exact Hc|]. split; [exact Hr|].
  apply Hplot. left. reflexivity.
Defined.

Lemma class_ratio_range_witness :
  exists ratio, class_ratio [0; 1; 0; 1]%Z = Some ratio /\ (0 < ratio)%Q /\ (ratio <= 1)%Q.
Proof.
  destruct (class_ratio_range [0; 1; 0; 1]%Z) as (_ & Hin).
  destruct (Hin ltac:(simpl; auto)) as (ratio & Hr & _ & H0 & H1).
  exists ratio. repeat split; assumption.
Defined.

Lemma comparison_table_rows_witness :
  exists table,
    cell_compare Sample.supervised Sample.unsupervised = Some table /\
    is_Some (table !! "OneClassSVM") /\ is_Some (table !! "LogisticRegression").
Proof.
  destruct (cell_compare Sample.supervised Sample.unsupervised) as [table|] eqn:Ht;
    [|vm_compute in Ht; discriminate].
  destruct (comparison_table_rows Sample.supervised Sample.unsupervised)
    as (_ & _ & Hrows).
  destruct (Hrows table Ht) as (Hdom & _).
  exists table. split; [reflexivity|]. split; apply Hdom.
  - right. eexists. reflexivity.
  - left. eexists. reflexivity.
Defined.

(** The confusion matrix of the true labels 1, 0, 1 against the
    predictions 1, 1, 0, and the one drawn when the two are exchanged. *)
Example confusion_matrix_small :
  plot_confmat [1; 0; 1]%Z [1; 1; 0]%Z = Ok [[0; 1]; [1; 1]]%nat /\
  plot_confmat_autoencoder [1; 1; 0]%Z [1; 0; 1]%Z = Ok [[0; 1]; [1; 1]]%nat /\
  plot_confmat [1; 0; 1]%Z [1; 0; 0]%Z = Ok [[1; 0]; [1; 1]]%nat /\
  plot_confmat_autoencoder [1; 0; 0]%Z [1; 0; 1]%Z = Ok [[1; 1]; [0; 1]]%nat /\
  plot_confmat [] [] = Raise ValueError.
Proof. repeat split. Qed.

(** A model that reproduces its input: all training errors are 0, the
    threshold is 0, and both validation rows are labelled 1. *)
Example exact_fit_run :
  exists k2,
    cell_threshold (fun X => X) Example.scaled
      ≫= cell_validate Example.roc_curve Example.auc (fun X => X) = Ok k2 /\
    train_mse k2 = Some [0 # 2; 0 # 2; 0 # 2; 0 # 2] /\
    yhat k2 = Some [1; 1]%Z.
Proof.
  eexists. split; [vm_compute; reflexivity|]. split; reflexivity.
Qed.

(** * The threshold in float64 arithmetic *)

(** ** Powers of two *)

Lemma pow2_pos (e : Z) : (0 < Float64.pow2 e)%Q.
Proof. apply Qpower_0_lt. reflexivity. Qed.

Lemma pow2_plus (a b : Z) :
  (Float64.pow2 (a + b) == Float64.pow2 a * Float64.pow2 b)%Q.
Proof. apply Qpower_plus. discriminate. Qed.

Lemma pow2_inject (e : Z) :
  (0 <= e)%Z -> (Float64.pow2 e == inject_Z (2 ^ e))%Q.
Proof. intros He. unfold Float64.pow2. rewrite Zpower_Qpower by exact He. reflexivity. Qed.

Lemma pow2_le (a b : Z) : (a <= b)%Z -> (Float64.pow2 a <= Float64.pow2 b)%Q.
Proof. intros H. apply Qpower_le_compat_l; [exact H | lra]. Qed.

Lemma pow2_le_inv (a b : Z) : (Float64.pow2 a <= Float64.pow2 b)%Q -> (a <= b)%Z.
Proof. intros H. apply (Qpower_le_compat_l_inv 2); [exact H | lra]. Qed.


Lemma pow2_neg (k : Z) :
  (0 <= k)%Z -> (Float64.pow2 (- k) * inject_Z (2 ^ k) == 1)%Q.
Proof.
  intros Hk. rewrite <- pow2_inject by exact Hk. rewrite <- pow2_plus.
  replace (- k + k)%Z with 0%Z by lia. reflexivity.
Qed.

Lemma pow2_inv (u : Z) :
  (u <= 0)%Z -> (inject_Z (2 ^ (- u)) == / Float64.pow2 u)%Q.
Proof.
  intros Hu. pose proof (pow2_neg (- u) ltac:(lia)) as Hk.
  replace (- - u)%Z with u in Hk by lia.
  pose proof (pow2_pos u) as HU.
  apply (Qmult_inj_l _ _ (Float64.pow2 u)); [lra |].
  rewrite Hk, Qmult_inv_r; lra.
Qed.

(** ** The exponent and the nearest integer *)

(** [exponent] is the exponent of the leading binary digit. *)
Lemma exponent_lower (x : Q) :
  (0 < x)%Q -> (Float64.pow2 (Float64.exponent x) <= x)%Q.
Proof.
  intros Hx. unfold Float64.exponent.
  destruct (Qle_bool _ x) eqn:E.
  - apply Qle_bool_iff. exact E.
  - clear E. destruct x as [p q]. cbn [Qnum Qden].
    assert (Hp : (0 < p)%Z).
    { unfold Qlt in Hx. cbn in Hx. lia. }
    set (lp := Z.log2 p). set (lq := Z.log2 (Z.pos q)).
    assert (Hlp : (2 ^ lp <= p)%Z) by (apply Z.log2_spec; exact Hp).
    assert (Hlq : (Z.pos q < 2 ^ (lq + 1))%Z).
    { apply (Z.log2_spec (Z.pos q)). reflexivity. }
    assert (Hlp0 : (0 <= lp)%Z) by apply Z.log2_nonneg.
    assert (Hlq0 : (0 <= lq)%Z) by apply Z.log2_nonneg.
    rewrite (Qmake_Qdiv p q).
    apply Qle_shift_div_l.
    { change 0%Q with (inject_Z 0). rewrite <- Zlt_Qlt. reflexivity. }
    apply Qle_trans with (Float64.pow2 (lp - lq - 1) * Float64.pow2 (lq + 1))%Q.
    + apply Qmult_le_l. { apply pow2_pos. }
      rewrite pow2_inject by lia. rewrite <- Zle_Qle. lia.
    + rewrite <- pow2_plus.
      replace (lp - lq - 1 + (lq + 1))%Z with lp by lia.
      rewrite pow2_inject by lia. rewrite <- Zle_Qle. exact Hlp.
Qed.




Lemma nearest_even_bounds (y : Q) :
  (y - (1 # 2) <= inject_Z (Float64.nearest_even y)
   /\ inject_Z (Float64.nearest_even y) <= y + (1 # 2))%Q.
Proof.
  unfold Float64.nearest_even.
  pose proof (Qfloor_le y) as Hlo. pose proof (Qlt_floor y) as Hhi.
  rewrite inject_Z_plus in Hhi. change (inject_Z 1) with 1%Q in Hhi.
  set (lo := Qfloor y) in *.
  destruct (y - inject_Z lo ?= 1 # 2)%Q eqn:E.
  - apply Qeq_alt in E. destruct (Z.even lo).
    + split; lra.
    + rewrite inject_Z_plus. change (inject_Z 1) with 1%Q. split; lra.
  - apply Qlt_alt in E. split; lra.
  - apply Qgt_alt in E. rewrite inject_Z_plus. change (inject_Z 1) with 1%Q. split; lra.
Qed.

Lemma nearest_even_nonneg (y : Q) : (0 <= y)%Q -> (0 <= Float64.nearest_even y)%Z.
Proof.
  intros Hy. unfold Float64.nearest_even.
  assert (H0 : (0 <= Qfloor y)%Z).
  { change 0%Z with (Qfloor 0). apply Qfloor_resp_le. exact Hy. }
  destruct (_ ?= _)%Q; [destruct (Z.even _) | |]; lia.
Qed.

Lemma nearest_even_int (y : Q) (N : Z) :
  (y == inject_Z N)%Q -> Float64.nearest_even y = N.
Proof.
  intros Hy. unfold Float64.nearest_even.
  rewrite (Qfloor_comp _ _ Hy), Qfloor_Z.
  assert (E : (y - inject_Z N ?= 1 # 2)%Q = Lt).
  { apply (proj1 (Qlt_alt _ _)). lra. }
  rewrite E. reflexivity.
Qed.

Lemma nearest_even_le (y : Q) (N : Z) :
  (y <= inject_Z N)%Q -> (Float64.nearest_even y <= N)%Z.
Proof.
  intros Hy.
  assert (Hlo : (Qfloor y <= N)%Z).
  { rewrite <- (Qfloor_Z N). apply Qfloor_resp_le. exact Hy. }
  destruct (Z.eq_dec (Qfloor y) N) as [E | E].
  - assert (Hy' : (y == inject_Z N)%Q).
    { pose proof (Qfloor_le y) as H. rewrite E in H. lra. }
    rewrite (nearest_even_int y N Hy'). lia.
  - unfold Float64.nearest_even.
    destruct (_ ?= _)%Q; [destruct (Z.even _) | |]; lia.
Qed.


(** ** Rounding *)

Lemma rounding_error_eq (x : Q) :
  (rounding_error x == x * epsilon + Float64.pow2 (-1075))%Q.
Proof.
  unfold rounding_error.
  assert (E : (Float64.pow2 (-53) == epsilon)%Q) by reflexivity.
  rewrite E. reflexivity.
Qed.

Lemma tiny_facts :
  (0 < Float64.pow2 (-1075) /\ Float64.pow2 (-1075) <= epsilon /\
   Float64.pow2 (-1073) == 4 * Float64.pow2 (-1075))%Q.
Proof.
  split; [apply pow2_pos |]. split; [apply Qle_bool_iff; vm_compute; reflexivity |].
  replace (-1073)%Z with (2 + -1075)%Z by lia. rewrite pow2_plus. reflexivity.
Qed.

Lemma rounding_error_small (x : Q) :
  (0 <= x)%Q ->
  (0 <= rounding_error x /\ rounding_error x <= x * (1 # 1000000) + (1 # 1000000))%Q.
Proof.
  intros Hx. rewrite rounding_error_eq.
  destruct tiny_facts as (Hd0 & Hd & _). unfold epsilon in *. lra.
Qed.

(** Half a unit in the last place of a positive number. *)
Lemma ulp_bound (x : Q) :
  (0 < x)%Q ->
  (Float64.pow2 (Z.max (Float64.exponent x - 52) (-1074)) * (1 # 2)
   <= rounding_error x)%Q.
Proof.
  intros Hx. unfold rounding_error.
  pose proof (exponent_lower x Hx) as He.
  pose proof (pow2_pos (-1075)) as Hd.
  pose proof (pow2_pos (-53)) as H53.
  destruct (Z.max_spec (Float64.exponent x - 52) (-1074)) as [[_ ->] | [_ ->]].
  - assert (E : (Float64.pow2 (-1074) == 2 * Float64.pow2 (-1075))%Q).
    { replace (-1074)%Z with (1 + -1075)%Z by lia. rewrite pow2_plus. reflexivity. }
    rewrite E.
    assert (0 <= x * Float64.pow2 (-53))%Q by (apply Qmult_le_0_compat; lra).
    lra.
  - assert (E : (Float64.pow2 (Float64.exponent x - 52) * (1 # 2)
                 == Float64.pow2 (Float64.exponent x) * Float64.pow2 (-53))%Q).
    { replace (Float64.exponent x - 52)%Z with (Float64.exponent x + -52)%Z by lia.
      rewrite pow2_plus.
      assert (E' : (Float64.pow2 (-52) * (1 # 2) == Float64.pow2 (-53))%Q) by reflexivity.
      rewrite <- E'. ring. }
    rewrite E.
    assert (Float64.pow2 (Float64.exponent x) * Float64.pow2 (-53)
            <= x * Float64.pow2 (-53))%Q.
    { apply Qmult_le_compat_r; lra. }
    lra.
Qed.

(** The rounding of a positive number is within half a unit in the last
    place of it. *)
Lemma round_pos_value (x : Q) :
  (0 < x)%Q ->
  exists v : Q,
    (0 <= v /\ x - rounding_error x <= v /\ v <= x + rounding_error x)%Q /\
    Float64.round_pos x
    = if Qle_bool (Float64.pow2 1024) v then Float64.Infinity false
      else Float64.Finite (Qred v).
Proof.
  intros Hx. unfold Float64.round_pos.
  pose proof (ulp_bound x Hx) as Hu.
  set (u := Z.max (Float64.exponent x - 52) (-1074)) in *.
  pose proof (pow2_pos u) as HU.
  pose proof (nearest_even_bounds (x / Float64.pow2 u)) as [Hlo Hhi].
  assert (Hk : (0 <= Float64.nearest_even (x / Float64.pow2 u))%Z).
  { apply nearest_even_nonneg. apply Qle_shift_div_l; [exact HU | lra]. }
  set (k := Float64.nearest_even (x / Float64.pow2 u)) in *.
  exists (inject_Z k * Float64.pow2 u)%Q. split; [| reflexivity].
  assert (Hx' : (x / Float64.pow2 u * Float64.pow2 u == x)%Q).
  { field. lra. }
  assert (H1 : ((x / Float64.pow2 u - (1 # 2)) * Float64.pow2 u
                <= inject_Z k * Float64.pow2 u)%Q).
  { apply Qmult_le_compat_r; lra. }
  assert (H2 : (inject_Z k * Float64.pow2 u
                <= (x / Float64.pow2 u + (1 # 2)) * Float64.pow2 u)%Q).
  { apply Qmult_le_compat_r; lra. }
  assert (H3 : (0 <= inject_Z k * Float64.pow2 u)%Q).
  { apply Qmult_le_0_compat; [| lra].
    change 0%Q with (inject_Z 0). rewrite <- Zle_Qle. exact Hk. }
  repeat split; [exact H3 | |]; lra.
Qed.

Lemma round64_pos (x : Q) : (0 < x)%Q -> Float64.round64 x = Float64.round_pos x.
Proof.
  intros Hx. unfold Float64.round64.
  apply Qgt_alt in Hx. rewrite Hx. reflexivity.
Qed.

Lemma round64_zero (x : Q) : (x == 0)%Q -> Float64.round64 x = Float64.Finite 0.
Proof.
  intros Hx. unfold Float64.round64.
  apply Qeq_alt in Hx. rewrite Hx. reflexivity.
Qed.

(** A non-negative number up to [2^1010] rounds to a finite non-negative
    number, within the rounding error. *)
Lemma round64_nonneg (x : Q) :
  (0 <= x)%Q -> (x <= Float64.pow2 1010)%Q ->
  exists v : Q,
    Float64.round64 x = Float64.Finite v /\
    (0 <= v /\ x - rounding_error x <= v /\ v <= x + rounding_error x)%Q.
Proof.
  intros H0 Hb.
  destruct (Qeq_dec x 0) as [Hx | Hx].
  { rewrite (round64_zero x Hx). exists 0%Q. split; [reflexivity |].
    destruct (rounding_error_small x H0). repeat split; lra. }
  assert (Hpos : (0 < x)%Q) by lra.
  rewrite round64_pos by exact Hpos.
  destruct (round_pos_value x Hpos) as (v & (Hv0 & Hlo & Hhi) & ->).
  destruct (rounding_error_small x H0) as [He0 He].
  assert (H1024 : (Float64.pow2 1010 * 2 + 1 < Float64.pow2 1024)%Q).
  { apply (proj1 (Qlt_alt _ _)). vm_compute. reflexivity. }
  assert (E : Qle_bool (Float64.pow2 1024) v = false).
  { apply not_true_is_false. intros H'. apply Qle_bool_iff in H'. lra. }
  rewrite E. exists (Qred v). split; [reflexivity |].
  rewrite (Qred_correct v). repeat split; assumption.
Qed.

(** Rounding keeps a number of [[0, 1]] in [[0, 1]]. *)
Lemma round64_unit (y : Q) :
  (0 <= y)%Q -> (y <= 1)%Q ->
  exists v : Q,
    Float64.round64 y = Float64.Finite v /\
    (0 <= v /\ v <= 1 /\ y - rounding_error y <= v /\ v <= y + rounding_error y)%Q.
Proof.
  intros H0 H1.
  destruct (Qeq_dec y 0) as [Hy | Hy].
  { rewrite (round64_zero y Hy). exists 0%Q. split; [reflexivity |].
    destruct (rounding_error_small y H0). repeat split; lra. }
  assert (Hpos : (0 < y)%Q) by lra.
  rewrite round64_pos by exact Hpos.
  destruct (round_pos_value y Hpos) as (v & (Hv0 & Hlo & Hhi) & Hr).
  assert (H1024 : (1 < Float64.pow2 1024)%Q).
  { apply (proj1 (Qlt_alt _ _)). vm_compute. reflexivity. }
  assert (Hv1 : (v <= 1)%Q).
  { revert Hr. unfold Float64.round_pos.
    pose proof (exponent_lower _ Hpos) as He.
    set (e := Float64.exponent y) in *.
    assert (He0 : (e <= 0)%Z).
    { apply pow2_le_inv. change (Float64.pow2 0) with 1%Q. lra. }
    set (u := Z.max (e - 52) (-1074)).
    assert (Hu : (u <= 0)%Z) by (subst u; lia).
    pose proof (pow2_neg (- u) ltac:(lia)) as Hk.
    replace (- - u)%Z with u in Hk by lia.
    pose proof (pow2_pos u) as HU.
    assert (Hy' : (y / Float64.pow2 u <= inject_Z (2 ^ (- u)))%Q).
    { apply Qle_shift_div_r; [exact HU |].
      rewrite (Qmult_comm (inject_Z _)), Hk. exact H1. }
    pose proof (nearest_even_le _ _ Hy') as Hn.
    set (k := Float64.nearest_even (y / Float64.pow2 u)) in *.
    assert (Hraw : (inject_Z k * Float64.pow2 u <= 1)%Q).
    { rewrite <- Hk, (Qmult_comm (Float64.pow2 u)).
      apply Qmult_le_compat_r; [| lra]. rewrite <- Zle_Qle. exact Hn. }
    assert (E : Qle_bool (Float64.pow2 1024) (inject_Z k * Float64.pow2 u) = false).
    { apply not_true_is_false. intros H. apply Qle_bool_iff in H. lra. }
    rewrite E.
    destruct (Qle_bool (Float64.pow2 1024) v) eqn:E'; [discriminate |].
    intros Hr. injection Hr as Hr.
    rewrite <- (Qred_correct v), <- Hr, Qred_correct. exact Hraw. }
  assert (E : Qle_bool (Float64.pow2 1024) v = false).
  { apply not_true_is_false. intros H. apply Qle_bool_iff in H. lra. }
  rewrite E in Hr. exists (Qred v). split; [exact Hr |].
  rewrite (Qred_correct v). repeat split; assumption.
Qed.

(** A non-negative integer below [2^53] is a float64 number. *)
Lemma of_int_exact (z : Z) :
  (0 <= z < 2 ^ 53)%Z ->
  exists f : Q, Float64.of_int z = Float64.Finite f /\ (f == inject_Z z)%Q.
Proof.
  intros Hz. unfold Float64.of_int.
  destruct (Z.eq_dec z 0%Z) as [-> | Hz0].
  { exists 0%Q. split; reflexivity. }
  assert (Hzq : (0 < inject_Z z)%Q).
  { change 0%Q with (inject_Z 0). rewrite <- Zlt_Qlt. lia. }
  rewrite round64_pos by exact Hzq.
  unfold Float64.round_pos.
  pose proof (exponent_lower _ Hzq) as He.
  set (e := Float64.exponent (inject_Z z)) in *.
  assert (Hz53 : (inject_Z z < inject_Z (2 ^ 53))%Q) by (rewrite <- Zlt_Qlt; lia).
  assert (He52 : (e <= 52)%Z).
  { destruct (Z.le_gt_cases e 52) as [H | H]; [exact H | exfalso].
    assert (H53 : (Float64.pow2 53 <= Float64.pow2 e)%Q) by (apply pow2_le; lia).
    rewrite (pow2_inject 53) in H53 by lia. lra. }
  set (u := Z.max (e - 52) (-1074)).
  assert (Hu : (u <= 0)%Z) by (subst u; lia).
  pose proof (pow2_pos u) as HU.
  pose proof (pow2_inv u Hu) as HK.
  assert (Hy : (inject_Z z / Float64.pow2 u == inject_Z (z * 2 ^ (- u)))%Q).
  { rewrite inject_Z_mult, HK. reflexivity. }
  rewrite (nearest_even_int _ _ Hy).
  assert (Hv : (inject_Z (z * 2 ^ (- u)) * Float64.pow2 u == inject_Z z)%Q).
  { rewrite inject_Z_mult, HK. field. lra. }
  assert (E : Qle_bool (Float64.pow2 1024) (inject_Z (z * 2 ^ (- u)) * Float64.pow2 u)
              = false).
  { apply not_true_is_false. intros H. apply Qle_bool_iff in H. rewrite Hv in H.
    assert (H53 : (Float64.pow2 53 <= Float64.pow2 1024)%Q) by (apply pow2_le; lia).
    rewrite (pow2_inject 53) in H53 by lia. lra. }
  rewrite E. eexists. split; [reflexivity |]. rewrite Qred_correct. exact Hv.
Qed.


(** ** The index and the weights of the 95th percentile *)

Lemma q95_value :
  q95 = Float64.Finite (4278419646001971 # 4503599627370496).
Proof. vm_compute. reflexivity. Qed.

(** The virtual index of the 95th percentile of [n >= 1] scores is a
    finite number between 0 and [n - 1]. *)
Lemma indices95_range (n : nat) :
  (1 <= n)%nat -> (Z.of_nat n < 2 ^ 63)%Z ->
  exists idx : Q,
    indices95 n = Float64.Finite idx /\
    (0 <= idx)%Q /\ (idx <= inject_Z (Z.of_nat n - 1))%Q.
Proof.
  intros Hn Hmax. unfold indices95. rewrite q95_value.
  remember (Z.of_nat n - 1)%Z as m eqn:Em.
  assert (Hm : (0 <= m < 2 ^ 63)%Z) by lia.
  clear Em Hn Hmax.
  destruct (Z.eq_dec m 0%Z) as [-> | Hne].
  { exists 0%Q. split; [vm_compute; reflexivity |]. split; [lra |].
    change (inject_Z 0) with 0%Q. lra. }
  assert (Hm1 : (1 <= inject_Z m)%Q).
  { change 1%Q with (inject_Z 1). rewrite <- Zle_Qle. lia. }
  assert (Hmb : (inject_Z m <= Float64.pow2 63)%Q).
  { rewrite pow2_inject by lia. rewrite <- Zle_Qle. lia. }
  assert (H63 : (Float64.pow2 63 * 2 + 1 <= Float64.pow2 1010)%Q).
  { apply Qle_bool_iff. vm_compute. reflexivity. }
  unfold Float64.of_int.
  destruct (round64_nonneg (inject_Z m)) as (m' & -> & Hm'0 & Hm'lo & Hm'hi);
    [lra | lra |].
  destruct (rounding_error_small (inject_Z m)) as [He0 He]; [lra |].
  cbn [Float64.mul64].
  set (c := (4278419646001971 # 4503599627370496)%Q).
  assert (Hc : (0 <= c /\ c <= 95 # 100)%Q).
  { split; apply Qle_bool_iff; vm_compute; reflexivity. }
  assert (Hp0 : (0 <= c * m')%Q) by (apply Qmult_le_0_compat; lra).
  assert (Hp2 : (c * m' <= (95 # 100) * m')%Q).
  { apply Qmult_le_compat_r; lra. }
  destruct (round64_nonneg (c * m')) as (idx & -> & Hi0 & Hilo & Hihi);
    [lra | lra |].
  destruct (rounding_error_small (c * m') Hp0) as [He0' He'].
  exists idx. split; [reflexivity |]. split; [exact Hi0 |]. lra.
Qed.

Lemma floor95_range (n : nat) :
  (1 <= n)%nat -> (Z.of_nat n < 2 ^ 63)%Z ->
  (0 <= Float64.floor_intp (indices95 n) <= Z.of_nat n - 1)%Z.
Proof.
  intros Hn Hmax.
  destruct (indices95_range n Hn Hmax) as (idx & -> & H0 & Hhi).
  cbn [Float64.floor_intp]. split.
  - change 0%Z with (Qfloor 0). apply Qfloor_resp_le. exact H0.
  - rewrite <- (Qfloor_Z (Z.of_nat n - 1)). apply Qfloor_resp_le. exact Hhi.
Qed.


(** The weights of the 95th percentile of [n] scores are in [[0, 1]] and
    add up to 1 within the rounding of the lower one. *)
Lemma weights95_unit (n : nat) :
  (1 <= n)%nat -> (Z.of_nat n <= 2 ^ 53)%Z ->
  exists w wb : Q,
    weights_above95 n = Float64.Finite w /\
    Float64.sub64 (Float64.Finite 1) (Float64.Finite w) = Float64.Finite wb /\
    (0 <= w /\ w <= 1 /\ 0 <= wb /\ wb <= 1 /\
     1 - 2 * epsilon <= wb + w /\ wb + w <= 1 + 2 * epsilon)%Q.
Proof.
  intros Hn Hmax. unfold weights_above95.
  destruct (indices95_range n Hn ltac:(lia)) as (idx & -> & Hi0 & Hihi).
  cbn [Float64.floor_intp].
  pose proof (Qfloor_le idx) as Hfl. pose proof (Qlt_floor idx) as Hfh.
  rewrite inject_Z_plus in Hfh. change (inject_Z 1) with 1%Q in Hfh.
  assert (Hf0 : (0 <= Qfloor idx)%Z).
  { change 0%Z with (Qfloor 0). apply Qfloor_resp_le. exact Hi0. }
  assert (Hf1 : (Qfloor idx <= Z.of_nat n - 1)%Z).
  { rewrite <- (Qfloor_Z (Z.of_nat n - 1)). apply Qfloor_resp_le. exact Hihi. }
  destruct (of_int_exact (Qfloor idx) ltac:(lia)) as (f & -> & Hf).
  unfold Float64.sub64 at 1. cbn [Float64.opp64 Float64.add64].
  set (fl := inject_Z (Qfloor idx)) in *. clearbody fl.
  assert (Hy : (idx + Qred (- f) == idx - fl)%Q).
  { rewrite Qred_correct, Hf. ring. }
  destruct (round64_unit (idx + Qred (- f))) as (w & -> & Hw0 & Hw1 & Hwlo & Hwhi);
    [lra | lra |].
  assert (Hy2 : (1 + Qred (- w) == 1 - w)%Q).
  { rewrite Qred_correct. ring. }
  destruct (round64_unit (1 + Qred (- w))) as (wb & Hwb & Hb0 & Hb1 & Hblo & Hbhi);
    [lra | lra |].
  exists w, wb. split; [reflexivity |]. split; [exact Hwb |].
  rewrite rounding_error_eq in Hblo, Hbhi. rewrite Hy2 in Hblo, Hbhi.
  destruct tiny_facts as (Hd0 & Hd & _). unfold epsilon in *.
  repeat split; try assumption; lra.
Qed.

(** The interpolated value lies between the two scores, up to the
    rounding of two products and a sum. *)
Lemma interpolate64_between (x1 x2 w wb : Q) :
  (0 <= x1)%Q -> (x1 <= x2)%Q -> (x2 <= Float64.pow2 1000)%Q ->
  Float64.sub64 (Float64.Finite 1) (Float64.Finite w) = Float64.Finite wb ->
  (0 <= w /\ w <= 1 /\ 0 <= wb /\ wb <= 1 /\
   1 - 2 * epsilon <= wb + w /\ wb + w <= 1 + 2 * epsilon)%Q ->
  exists v : Q,
    interpolate64 x1 x2 (Float64.Finite w) = Float64.Finite v /\
    (x1 * (1 - Float64.pow2 (-50)) - Float64.pow2 (-1073) <= v)%Q /\
    (v <= x2 * (1 + Float64.pow2 (-50)) + Float64.pow2 (-1073))%Q.
Proof.
  intros H0 H12 Hmax Hsub (Hw0 & Hw1 & Hb0 & Hb1 & Hslo & Hshi).
  unfold interpolate64. rewrite Hsub. cbn [Float64.mul64].
  destruct tiny_facts as (Hd0 & Hd & Hd4).
  assert (H50 : (Float64.pow2 (-50) == 8 * epsilon)%Q) by reflexivity.
  assert (HP : (Float64.pow2 1000 * 4 + 1 <= Float64.pow2 1010)%Q).
  { apply Qle_bool_iff. vm_compute. reflexivity. }
  assert (Ha0 : (0 <= x1 * wb)%Q) by (apply Qmult_le_0_compat; lra).
  assert (Hb0' : (0 <= x2 * w)%Q) by (apply Qmult_le_0_compat; lra).
  assert (Hc0 : (0 <= x1 * w)%Q) by (apply Qmult_le_0_compat; lra).
  assert (Ha1 : (x1 * wb <= x1)%Q).
  { rewrite <- (Qmult_1_r x1) at 2. rewrite !(Qmult_comm x1).
    apply Qmult_le_compat_r; lra. }
  assert (Hb1' : (x2 * w <= x2)%Q).
  { rewrite <- (Qmult_1_r x2) at 2. rewrite !(Qmult_comm x2).
    apply Qmult_le_compat_r; lra. }
  assert (Hcb : (x1 * w <= x2 * w)%Q) by (apply Qmult_le_compat_r; lra).
  assert (Haa : (x1 * wb <= x2 * wb)%Q) by (apply Qmult_le_compat_r; lra).
  assert (Hsum1 : (x1 * (1 - 2 * epsilon) <= x1 * wb + x1 * w)%Q).
  { rewrite <- Qmult_plus_distr_r. rewrite !(Qmult_comm x1).
    apply Qmult_le_compat_r; lra. }
  assert (Hsum2 : (x2 * wb + x2 * w <= x2 * (1 + 2 * epsilon))%Q).
  { rewrite <- Qmult_plus_distr_r. rewrite !(Qmult_comm x2).
    apply Qmult_le_compat_r; lra. }
  destruct (round64_nonneg (x1 * wb)) as (p1 & -> & Hp10 & Hp1lo & Hp1hi); [lra | lra |].
  destruct (round64_nonneg (x2 * w)) as (p2 & -> & Hp20 & Hp2lo & Hp2hi); [lra | lra |].
  rewrite rounding_error_eq in Hp1lo, Hp1hi, Hp2lo, Hp2hi.
  cbn [Float64.add64]. unfold epsilon in *.
  destruct (round64_nonneg (p1 + p2)) as (v & -> & Hv0 & Hvlo & Hvhi); [lra | lra |].
  rewrite rounding_error_eq in Hvlo, Hvhi. unfold epsilon in *.
  exists v. split; [reflexivity |]. rewrite Hd4, H50. split; lra.
Qed.

(** ** [np.percentile] in float64 arithmetic *)

(** What [np.percentile(scores, 95)] returns on a non-empty array. *)
Lemma percentile95_value (scores : list Q) :
  scores <> [] -> (Z.of_nat (length scores) < 2 ^ 63)%Z ->
  Numpy64.percentile scores 95 = Ok (percentile95_64 scores).
Proof.
  intros Hne Hmax.
  assert (Hn : (1 <= length scores)%nat).
  { destruct scores; [congruence | simpl; lia]. }
  pose proof (floor95_range (length scores) Hn Hmax) as Hi.
  unfold Numpy64.percentile, percentile95_64, interpolate64, weights_above95.
  change (Float64.div64 (Float64.Finite 95) (Float64.Finite 100)) with q95.
  assert (Hq : Float64.lt64 q95 (Float64.Finite 0)
               || Float64.lt64 (Float64.Finite 1) q95 = false).
  { vm_compute. reflexivity. }
  rewrite Hq. cbv zeta. rewrite sort_length.
  change (Float64.mul64 q95 (Float64.of_int (Z.of_nat (length scores) - 1)))
    with (indices95 (length scores)).
  set (i := Float64.floor_intp (indices95 (length scores))) in *.
  assert (Habove : (if (Z.of_nat (length scores) - 1 <? i + 1)%Z
                    then (Z.of_nat (length scores) - 1)%Z
                    else (i + 1)%Z) = Z.min (i + 1) (Z.of_nat (length scores) - 1)).
  { destruct (Z.ltb_spec (Z.of_nat (length scores) - 1) (i + 1)); lia. }
  rewrite Habove.
  rewrite !take_nat by (rewrite sort_length; lia).
  reflexivity.
Qed.

Lemma percentile64_empty : Numpy64.percentile [] 95 = Raise IndexError.
Proof. vm_compute. reflexivity. Qed.

(** ** [np.percentile] in float64 arithmetic, for every percentile *)

(** Rounding does not cross an integer below [2^53]. *)
Lemma round64_le_integer (x : Q) (K : Z) :
  (0 <= x)%Q -> (x <= inject_Z K)%Q -> (K < 2 ^ 53)%Z ->
  exists v : Q,
    Float64.round64 x = Float64.Finite v /\ (0 <= v)%Q /\ (v <= inject_Z K)%Q.
Proof.
  intros H0 HK H53.
  assert (HKq : (inject_Z K < inject_Z (2 ^ 53))%Q) by (rewrite <- Zlt_Qlt; exact H53).
  assert (H1024 : (inject_Z (2 ^ 53) < Float64.pow2 1024)%Q).
  { apply (proj1 (Qlt_alt _ _)). vm_compute. reflexivity. }
  destruct (Qeq_dec x 0) as [Hx | Hx].
  { rewrite (round64_zero x Hx). exists 0%Q. split; [reflexivity |]. lra. }
  assert (Hpos : (0 < x)%Q) by lra.
  rewrite round64_pos by exact Hpos.
  unfold Float64.round_pos.
  pose proof (exponent_lower _ Hpos) as He.
  set (e := Float64.exponent x) in *.
  assert (He52 : (e <= 52)%Z).
  { destruct (Z.le_gt_cases e 52) as [H | H]; [exact H | exfalso].
    assert (H' : (Float64.pow2 53 <= Float64.pow2 e)%Q) by (apply pow2_le; lia).
    rewrite (pow2_inject 53) in H' by lia. lra. }
  set (u := Z.max (e - 52) (-1074)).
  assert (Hu : (u <= 0)%Z) by (subst u; lia).
  pose proof (pow2_pos u) as HU.
  pose proof (pow2_inv u Hu) as HKi.
  assert (Hy : (x / Float64.pow2 u <= inject_Z (K * 2 ^ (- u)))%Q).
  { rewrite inject_Z_mult, HKi. apply Qmult_le_compat_r; [exact HK |].
    apply Qinv_le_0_compat. lra. }
  pose proof (nearest_even_le _ _ Hy) as Hn.
  assert (Hk0 : (0 <= Float64.nearest_even (x / Float64.pow2 u))%Z).
  { apply nearest_even_nonneg. apply Qle_shift_div_l; [exact HU | lra]. }
  set (k := Float64.nearest_even (x / Float64.pow2 u)) in *.
  assert (Hraw : (inject_Z k * Float64.pow2 u <= inject_Z K)%Q).
  { assert (E : (inject_Z K == inject_Z (K * 2 ^ (- u)) * Float64.pow2 u)%Q).
    { rewrite inject_Z_mult, HKi. field. lra. }
    rewrite E. apply Qmult_le_compat_r; [| lra]. rewrite <- Zle_Qle. exact Hn. }
  assert (Hraw0 : (0 <= inject_Z k * Float64.pow2 u)%Q).
  { apply Qmult_le_0_compat; [| lra].
    change 0%Q with (inject_Z 0). rewrite <- Zle_Qle. exact Hk0. }
  assert (E : Qle_bool (Float64.pow2 1024) (inject_Z k * Float64.pow2 u) = false).
  { apply not_true_is_false. intros H. apply Qle_bool_iff in H. lra. }
  rewrite E. eexists. split; [reflexivity |]. rewrite Qred_correct. split; assumption.
Qed.

(** For a percentile in [[0, 100]], [q / 100.0] is a number of [[0, 1]]. *)
Lemma true_divide_unit (q : Q) :
  (0 <= q)%Q -> (q <= 100)%Q ->
  exists c : Q,
    Float64.div64 (Float64.Finite q) (Float64.Finite 100) = Float64.Finite c /\
    (0 <= c)%Q /\ (c <= 1)%Q.
Proof.
  intros H0 H100.
  assert (E : Float64.div64 (Float64.Finite q) (Float64.Finite 100)
              = Float64.round64 (q / 100)).
  { unfold Float64.div64. change (100 ?= 0)%Q with Gt. reflexivity. }
  rewrite E.
  destruct (round64_unit (q / 100)) as (c & -> & Hc0 & Hc1 & _).
  - apply Qle_shift_div_l; lra.
  - apply Qle_shift_div_r; lra.
  - exists c. split; [reflexivity |]. split; assumption.
Qed.

(** For a fraction of [[0, 1]] the virtual index of a non-empty array of
    at most [2^53] entries is a finite number between 0 and [n - 1]. *)
Lemma indices_range (c : Q) (n : nat) :
  (0 <= c)%Q -> (c <= 1)%Q -> (1 <= n)%nat -> (Z.of_nat n <= 2 ^ 53)%Z ->
  exists idx : Q,
    Float64.mul64 (Float64.Finite c) (Float64.of_int (Z.of_nat n - 1))
    = Float64.Finite idx /\
    (0 <= idx)%Q /\ (idx <= inject_Z (Z.of_nat n - 1))%Q.
Proof.
  intros Hc0 Hc1 Hn Hmax.
  remember (Z.of_nat n - 1)%Z as m eqn:Em.
  assert (Hm : (0 <= m < 2 ^ 53)%Z) by lia.
  clear Em Hn Hmax.
  destruct (of_int_exact m Hm) as (f & -> & Hf).
  cbn [Float64.mul64].
  assert (Hm0 : (0 <= inject_Z m)%Q).
  { change 0%Q with (inject_Z 0). rewrite <- Zle_Qle. lia. }
  assert (Hp0 : (0 <= c * f)%Q) by (apply Qmult_le_0_compat; lra).
  assert (Hp1 : (c * f <= inject_Z m)%Q).
  { rewrite <- Hf. rewrite <- (Qmult_1_l f) at 2.
    apply Qmult_le_compat_r; lra. }
  destruct (round64_le_integer (c * f) m Hp0 Hp1 ltac:(lia)) as (idx & -> & Hi0 & Hi1).
  exists idx. split; [reflexivity |]. split; assumption.
Qed.

Lemma percentile64_returns_aux (a : list Q) (q : Q) :
  (0 <= q)%Q -> (q <= 100)%Q ->
  a <> [] -> (Z.of_nat (length a) <= 2 ^ 53)%Z ->
  exists t, Numpy64.percentile a q = Ok t.
Proof.
  intros H0 H100 Hne Hmax.
  assert (Hn : (1 <= length a)%nat).
  { destruct a; [congruence | simpl; lia]. }
  unfold Numpy64.percentile.
  destruct (true_divide_unit q H0 H100) as (c & -> & Hc0 & Hc1).
  assert (Hq : Float64.lt64 (Float64.Finite c) (Float64.Finite 0)
               || Float64.lt64 (Float64.Finite 1) (Float64.Finite c) = false).
  { cbn [Float64.lt64]. apply orb_false_iff.
    split; apply Qltb_ge; assumption. }
  rewrite Hq. cbv zeta. rewrite sort_length.
  destruct (indices_range c (length a) Hc0 Hc1 Hn Hmax) as (idx & -> & Hi0 & Hi1).
  cbn [Float64.floor_intp].
  assert (Hf0 : (0 <= Qfloor idx)%Z).
  { change 0%Z with (Qfloor 0). apply Qfloor_resp_le. exact Hi0. }
  assert (Hf1 : (Qfloor idx <= Z.of_nat (length a) - 1)%Z).
  { rewrite <- (Qfloor_Z (Z.of_nat (length a) - 1)). apply Qfloor_resp_le. exact Hi1. }
  set (i := Qfloor idx) in *.
  assert (Habove : (if (Z.of_nat (length a) - 1 <? i + 1)%Z
                    then (Z.of_nat (length a) - 1)%Z
                    else (i + 1)%Z) = Z.min (i + 1) (Z.of_nat (length a) - 1)).
  { destruct (Z.ltb_spec (Z.of_nat (length a) - 1) (i + 1)); lia. }
  rewrite Habove.
  rewrite !take_nat by (rewrite sort_length; lia).
  eexists. reflexivity.
Qed.

Lemma percentile64_empty_aux (q : Q) :
  (0 <= q)%Q -> (q <= 100)%Q -> Numpy64.percentile [] q = Raise IndexError.
Proof.
  intros H0 H100. unfold Numpy64.percentile.
  destruct (true_divide_unit q H0 H100) as (c & -> & Hc0 & Hc1).
  assert (Hq : Float64.lt64 (Float64.Finite c) (Float64.Finite 0)
               || Float64.lt64 (Float64.Finite 1) (Float64.Finite c) = false).
  { cbn [Float64.lt64]. apply orb_false_iff.
    split; apply Qltb_ge; assumption. }
  rewrite Hq. cbv zeta. cbn [Numpy.sort fold_right length].
  set (i := Float64.floor_intp _). rewrite (take_empty i). reflexivity.
Qed.

(** A percentile above 100 by a unit in the last place of 100, or below
    0 by [2^-1067], is out of range. *)
Lemma percentile64_invalid (a : list Q) (q : Q) :
  (100 + Float64.pow2 (-46) <= q)%Q \/ (q <= - Float64.pow2 (-1067))%Q ->
  Numpy64.percentile a q = Raise ValueError.
Proof.
  intros Hq. unfold Numpy64.percentile.
  assert (E : Float64.div64 (Float64.Finite q) (Float64.Finite 100)
              = Float64.round64 (q / 100)).
  { unfold Float64.div64. change (100 ?= 0)%Q with Gt. reflexivity. }
  rewrite E.
  destruct tiny_facts as (Hd0 & _ & _).
  assert (Hd : (Float64.pow2 (-1075) <= 1 # 1267650600228229401496703205376)%Q).
  { apply Qle_bool_iff. vm_compute. reflexivity. }
  assert (H46 : (Float64.pow2 (-46) == 1 # 70368744177664)%Q) by reflexivity.
  assert (H1067 : (Float64.pow2 (-1067) == 256 * Float64.pow2 (-1075))%Q).
  { replace (-1067)%Z with (8 + -1075)%Z by lia. rewrite pow2_plus. reflexivity. }
  assert (Hdiv : (q / 100 == q * (1 # 100))%Q) by (unfold Qdiv; reflexivity).
  assert (Hv : Float64.lt64 (Float64.round64 (q / 100)) (Float64.Finite 0)
               || Float64.lt64 (Float64.Finite 1) (Float64.round64 (q / 100)) = true).
  { apply orb_true_iff. destruct Hq as [Hhigh | Hlow].
    - right. rewrite H46 in Hhigh.
      assert (Hpos : (0 < q / 100)%Q) by (rewrite Hdiv; lra).
      rewrite round64_pos by exact Hpos.
      destruct (round_pos_value (q / 100) Hpos) as (v & (Hv0 & Hvlo & _) & ->).
      rewrite rounding_error_eq in Hvlo. unfold epsilon in *. rewrite Hdiv in Hvlo.
      destruct (Qle_bool (Float64.pow2 1024) v); [reflexivity |].
      cbn [Float64.lt64]. apply Qltb_lt. rewrite Qred_correct. lra.
    - left. rewrite H1067 in Hlow.
      assert (Hneg : (q / 100 < 0)%Q) by (rewrite Hdiv; lra).
      unfold Float64.round64.
      rewrite (proj1 (Qlt_alt _ _) Hneg).
      assert (Hpos : (0 < - (q / 100))%Q) by lra.
      destruct (round_pos_value (- (q / 100)) Hpos) as (v & (Hv0 & Hvlo & _) & ->).
      rewrite rounding_error_eq in Hvlo. unfold epsilon in *. rewrite Hdiv in Hvlo.
      destruct (Qle_bool (Float64.pow2 1024) v); [reflexivity |].
      cbn [Float64.lt64]. apply Qltb_lt. rewrite !Qred_correct. lra. }
  rewrite Hv. reflexivity.
Qed.

(** X1: when [np.percentile] returns, in float64 arithmetic.  For a
    percentile in [[0, 100]] it returns a value on every non-empty array
    (of at most [2^53] entries) and raises [IndexError] on an empty one.
    A percentile above 100 by at least [2^-46], so every float64 number
    above 100, or below 0 by at least [2^-1067], raises [ValueError]
    whatever the array.  The test is made on [q / 100.0]: a negative
    percentile so small that this quotient rounds to zero is accepted. *)
Theorem percentile64_returns (a : list Q) (q : Q) :
  ((0 <= q)%Q -> (q <= 100)%Q ->
   a <> [] -> (Z.of_nat (length a) <= 2 ^ 53)%Z ->
   exists t, Numpy64.percentile a q = Ok t) /\
  ((0 <= q)%Q -> (q <= 100)%Q -> a = [] ->
   Numpy64.percentile a q = Raise IndexError) /\
  ((100 + Float64.pow2 (-46) <= q)%Q \/ (q <= - Float64.pow2 (-1067))%Q ->
   Numpy64.percentile a q = Raise ValueError) /\
  Numpy64.percentile [1]%Q (- Float64.pow2 (-1074)) = Ok (Float64.Finite 1).
Proof.
  split; [| split; [| split]].
  - apply percentile64_returns_aux.
  - intros H0 H100 ->. apply percentile64_empty_aux; assumption.
  - apply percentile64_invalid.
  - vm_compute. reflexivity.
Qed.

(** X2: the 95th percentile of non-negative scores lies within the
    data, up to rounding.  On a non-empty array (of at most [2^53]
    entries) of scores between 0 and [2^1000], [np.percentile] returns a
    finite number that is at least the smallest score and at most the
    largest, up to a relative rounding error of [2^-50] (and [2^-1073]
    for subnormal scores).  No more can be said: the result can exceed
    the largest score by a unit in the last place. *)
Theorem percentile64_within_data (scores : list Q) :
  scores <> [] -> (Z.of_nat (length scores) <= 2 ^ 53)%Z ->
  (forall x, In x scores -> (0 <= x)%Q /\ (x <= Float64.pow2 1000)%Q) ->
  exists v lo hi : Q,
    Numpy64.percentile scores 95 = Ok (Float64.Finite v) /\
    In lo scores /\ In hi scores /\
    (forall x, In x scores -> (lo <= x)%Q /\ (x <= hi)%Q) /\
    (lo * (1 - Float64.pow2 (-50)) - Float64.pow2 (-1073) <= v)%Q /\
    (v <= hi * (1 + Float64.pow2 (-50)) + Float64.pow2 (-1073))%Q.
Proof.
  intros Hne Hmax Hrange.
  assert (Hn : (1 <= length scores)%nat).
  { destruct scores; [congruence | simpl; lia]. }
  rewrite percentile95_value by (try exact Hne; lia).
  unfold percentile95_64.
  pose proof (floor95_range (length scores) Hn ltac:(lia)) as Hi.
  set (n := length scores) in *.
  set (i := Float64.floor_intp (indices95 n)) in *.
  set (s := Numpy.sort scores).
  pose proof (sort_sorted scores) as Hsorted. fold s in Hsorted.
  pose proof (sort_perm scores) as Hperm. fold s in Hperm.
  assert (Hlen : length s = n) by apply sort_length.
  set (x1 := nth (Z.to_nat i) s 0%Q).
  set (x2 := nth (Z.to_nat (Z.min (i + 1) (Z.of_nat n - 1))) s 0%Q).
  set (lo := nth 0 s 0%Q). set (hi := nth (n - 1) s 0%Q).
  assert (Hin : forall k, (k < n)%nat -> In (nth k s 0%Q) scores).
  { intros k Hk. apply (Permutation_in _ Hperm). apply nth_In. lia. }
  assert (Hlo1 : (lo <= x1)%Q) by (apply sorted_nth_le; [exact Hsorted | lia | lia]).
  assert (Hx12 : (x1 <= x2)%Q) by (apply sorted_nth_le; [exact Hsorted | lia | lia]).
  assert (Hx2hi : (x2 <= hi)%Q) by (apply sorted_nth_le; [exact Hsorted | lia | lia]).
  destruct (Hrange lo (Hin 0%nat ltac:(lia))) as [Hlo0 _].
  destruct (Hrange hi (Hin (n - 1)%nat ltac:(lia))) as [_ Hhimax].
  destruct (weights95_unit n Hn Hmax) as (w & wb & -> & Hwb & Hw).
  destruct (interpolate64_between x1 x2 w wb) as (v & -> & Hvlo & Hvhi);
    [lra | lra | lra | exact Hwb | exact Hw |].
  exists v, lo, hi. split; [reflexivity |].
  split; [apply Hin; lia |]. split; [apply Hin; lia |]. split.
  - intros x Hx.
    apply (Permutation_in _ (Permutation_sym Hperm)) in Hx.
    destruct (In_nth_index s x Hx) as (k & Hk & <-).
    split; apply sorted_nth_le; try assumption; lia.
  - assert (H50 : (Float64.pow2 (-50) == 1 # 1125899906842624)%Q) by reflexivity.
    rewrite H50 in Hvlo, Hvhi |- *.
    clear - Hvlo Hvhi Hlo1 Hx12 Hx2hi Hlo0. clearbody lo hi x1 x2.
    split; lra.
Qed.

(** ** The threshold cell and the validation cell *)


Lemma cell_threshold_reaches (load_model : result (matrix -> matrix))
    (model : matrix -> matrix) (k : Autoencoder.kernel) (Xtn : matrix)
    (scores : list Q) :
  Autoencoder.K k = Some tt ->
  load_model = Ok model ->
  Autoencoder.X_train_norm k = Some Xtn ->
  reconstruction_mse model Xtn = Ok scores ->
  Autoencoder.cell_threshold load_model k
  = Autoencoder.bind_thresh_train k model scores.
Proof.
  intros HK Hl HX Hs. unfold Autoencoder.cell_threshold.
  rewrite HK, Hl, HX. simpl. rewrite Hs. reflexivity.
Qed.

Lemma autoencoder_cell_threshold_inv (load_model : result (matrix -> matrix))
    (k k1 : Autoencoder.kernel) :
  Autoencoder.cell_threshold load_model k = Ok k1 ->
  exists model Xtn scores t,
    Autoencoder.K k = Some tt /\
    load_model = Ok model /\
    Autoencoder.X_train_norm k = Some Xtn /\
    reconstruction_mse model Xtn = Ok scores /\
    Numpy64.percentile scores 95 = Ok t /\
    Autoencoder.trained_model k1 = Some model /\
    Autoencoder.train_mse k1 = Some scores /\
    Autoencoder.thresh_train k1 = Some t.
Proof.
  unfold Autoencoder.cell_threshold, Autoencoder.bind_thresh_train. intros Hc.
  apply bind_Ok_inv in Hc. destruct Hc as ([] & HK & Hc).
  apply bind_Ok_inv in Hc. destruct Hc as (model & Hl & Hc).
  apply bind_Ok_inv in Hc. destruct Hc as (Xtn & HX & Hc).
  apply bind_Ok_inv in Hc. destruct Hc as (scores & Hs & Hc).
  apply bind_Ok_inv in Hc. destruct Hc as (t & Ht & Hc).
  injection Hc as <-. apply name_Ok_inv in HK, HX.
  exists model, Xtn, scores, t. repeat split; assumption.
Qed.

Lemma autoencoder_cell_validate_inv
    (roc_curve : list Z -> list Q -> result (list num * list num * list Q))
    (auc : list num -> list num -> result num)
    (k k' : Autoencoder.kernel) :
  Autoencoder.cell_validate roc_curve auc k = Ok k' ->
  exists model Xvn scores t,
    Autoencoder.trained_model k = Some model /\
    Autoencoder.X_validation_norm k = Some Xvn /\
    reconstruction_mse model Xvn = Ok scores /\
    Autoencoder.thresh_train k = Some t /\
    Autoencoder.val_mse k' = Some scores /\
    Autoencoder.yhat k' = Some (Autoencoder.threshold_yhat t scores) /\
    Autoencoder.thresh_train k' = Some t /\
    Autoencoder.train_mse k' = Autoencoder.train_mse k /\
    Autoencoder.trained_model k' = Some model.
Proof.
  unfold Autoencoder.cell_validate. intros Hc.
  apply bind_Ok_inv in Hc. destruct Hc as (model & Hm & Hc).
  apply bind_Ok_inv in Hc. destruct Hc as (Xvn & HX & Hc).
  apply bind_Ok_inv in Hc. destruct Hc as (scores & Hs & Hc).
  apply bind_Ok_inv in Hc. destruct Hc as (labels & Hl & Hc).
  apply bind_Ok_inv in Hc. destruct Hc as (perf & _ & Hc).
  injection Hc as <-. simpl.
  apply name_Ok_inv in Hm, HX.
  destruct (reconstruction_mse_scores _ _ _ Hs) as (Hne & _).
  destruct scores as [|x scores]; [congruence |].
  apply bind_Ok_inv in Hl. destruct Hl as (t & Ht & Hl).
  injection Hl as <-. apply name_Ok_inv in Ht.
  exists model, Xvn, (x :: scores), t. repeat split; assumption.
Qed.

(** C9: the 95th percentile of an empty array of training scores raises
    [IndexError]; the statement [thresh_train = np.percentile(train_mse,
    95)] of the threshold cell, reached with an empty [train_mse], ends
    the cell with that exception, binding nothing; the cell has no
    handler: once the scores are computed, its outcome is the outcome of
    the percentile call, with the threshold bound if that returns.  On
    every non-empty array (of fewer than [2^63] entries, the most an
    array can hold) the percentile call returns a value. *)
Theorem percentile_empty_fatal_nonempty_returns :
  Numpy64.percentile [] 95 = Raise IndexError /\
  (forall k model,
      Autoencoder.bind_thresh_train k model [] = Raise IndexError) /\
  (forall load_model model k Xtn scores,
      Autoencoder.K k = Some tt ->
      load_model = Ok model ->
      Autoencoder.X_train_norm k = Some Xtn ->
      reconstruction_mse model Xtn = Ok scores ->
      Autoencoder.cell_threshold load_model k
      = (thresh ← Numpy64.percentile scores 95;
         Ok (Autoencoder.mkKernel (Autoencoder.K k) (Autoencoder.X_train_norm k)
               (Autoencoder.X_validation_norm k) (Autoencoder.y_validation k)
               (Some model) (Some scores) (Some thresh)
               (Autoencoder.val_mse k) (Autoencoder.yhat k) (Autoencoder.out k)))) /\
  (forall a : list Q,
      a <> [] -> (Z.of_nat (length a) < 2 ^ 63)%Z ->
      exists t, Numpy64.percentile a 95 = Ok t).
Proof.
  split; [apply percentile64_empty |]. split; [| split].
  - intros k model. unfold Autoencoder.bind_thresh_train.
    rewrite percentile64_empty. reflexivity.
  - intros load_model model k Xtn scores HK Hl HX Hs.
    rewrite (cell_threshold_reaches load_model model k Xtn scores) by assumption.
    reflexivity.
  - intros a Hne Hmax. eexists. apply percentile95_value; assumption.
Qed.


(** ** Five separated scores out of a hundred *)

Lemma lt64_mono (x y : Q) (t : Float64.float64) :
  (x <= y)%Q ->
  Float64.lt64 (Float64.Finite y) t = true ->
  Float64.lt64 (Float64.Finite x) t = true.
Proof.
  intros Hxy. destruct t as [q | s |]; simpl; try (intros; assumption).
  rewrite !Qltb_lt. lra.
Qed.

Lemma positives_le (f : Q -> Z) (l : list Q) :
  (positives (map f l) <= length l)%nat.
Proof.
  unfold positives. induction l as [|x l IH]; simpl; [lia |].
  destruct (Z.eq_dec (f x) 1%Z); lia.
Qed.

Lemma positives_lt (f : Q -> Z) (l : list Q) (x : Q) :
  In x l -> f x <> 1%Z -> (positives (map f l) < length l)%nat.
Proof.
  unfold positives. induction l as [|y l IH]; simpl; [tauto |].
  intros [-> | Hin] Hx.
  - destruct (Z.eq_dec (f x) 1%Z); [congruence |].
    pose proof (positives_le f l). unfold positives in *. lia.
  - specialize (IH Hin Hx). destruct (Z.eq_dec (f y) 1%Z); lia.
Qed.

Lemma positives_pos (f : Q -> Z) (l : list Q) (x : Q) :
  In x l -> f x = 1%Z -> (0 < positives (map f l))%nat.
Proof.
  unfold positives. induction l as [|y l IH]; simpl; [tauto |].
  intros [-> | Hin] Hx.
  - destruct (Z.eq_dec (f x) 1%Z); [lia | congruence].
  - specialize (IH Hin Hx). destruct (Z.eq_dec (f y) 1%Z); lia.
Qed.

(** The index and the weights for a hundred scores:
    [0.95 * 99 = 94.05], [94.05 - 94 = 0.04999999999999716] and
    [1.0 - 0.04999999999999716 = 0.9500000000000028] in float64. *)
Lemma weights_above95_100 :
  indices95 100 = Float64.Finite (6618180389909299 # 70368744177664) /\
  Float64.floor_intp (indices95 100) = 94%Z /\
  weights_above95 100 = Float64.Finite (3518437208883 # 70368744177664) /\
  Float64.sub64 (Float64.Finite 1) (weights_above95 100)
  = Float64.Finite (66850306968781 # 70368744177664).
Proof. vm_compute. repeat split; reflexivity. Qed.

Lemma percentile95_64_of_100 (scores : list Q) :
  length scores = 100%nat ->
  percentile95_64 scores
  = interpolate64 (nth 94 (Numpy.sort scores) 0%Q) (nth 95 (Numpy.sort scores) 0%Q)
      (Float64.Finite (3518437208883 # 70368744177664)).
Proof.
  intros Hlen. unfold percentile95_64. rewrite Hlen.
  destruct weights_above95_100 as (_ & -> & -> & _). reflexivity.
Qed.

(** Two scores that are further apart than the rounding error have the
    interpolated threshold between them. *)
Lemma interpolate64_separates (a b : Q) :
  (0 <= a)%Q -> (b <= Float64.pow2 1000)%Q ->
  (a + b * Float64.pow2 (-46) + Float64.pow2 (-1069) <= b)%Q ->
  exists v : Q,
    interpolate64 a b (Float64.Finite (3518437208883 # 70368744177664))
    = Float64.Finite v /\
    (a < v)%Q /\ (v <= b)%Q.
Proof.
  intros Ha Hb Hsep. unfold interpolate64.
  assert (Hwb : Float64.sub64 (Float64.Finite 1)
                  (Float64.Finite (3518437208883 # 70368744177664))
                = Float64.Finite (66850306968781 # 70368744177664)).
  { vm_compute. reflexivity. }
  rewrite Hwb. cbn [Float64.mul64].
  destruct tiny_facts as (Hd0 & Hd & _).
  assert (H46 : (Float64.pow2 (-46) == 1 # 70368744177664)%Q) by reflexivity.
  assert (H1069 : (Float64.pow2 (-1069) == 64 * Float64.pow2 (-1075))%Q).
  { replace (-1069)%Z with (6 + -1075)%Z by lia. rewrite pow2_plus. reflexivity. }
  rewrite H46, H1069 in Hsep.
  assert (HP : (Float64.pow2 1000 * 4 + 1 <= Float64.pow2 1010)%Q).
  { apply Qle_bool_iff. vm_compute. reflexivity. }
  assert (Hab : (a <= b)%Q) by lra.
  destruct (round64_nonneg (a * (66850306968781 # 70368744177664)))
    as (p1 & -> & Hp10 & Hp1lo & Hp1hi); [lra | lra |].
  destruct (round64_nonneg (b * (3518437208883 # 70368744177664)))
    as (p2 & -> & Hp20 & Hp2lo & Hp2hi); [lra | lra |].
  rewrite rounding_error_eq in Hp1lo, Hp1hi, Hp2lo, Hp2hi.
  cbn [Float64.add64]. unfold epsilon in *.
  destruct (round64_nonneg (p1 + p2)) as (v & -> & Hv0 & Hvlo & Hvhi); [lra | lra |].
  rewrite rounding_error_eq in Hvlo, Hvhi. unfold epsilon in *.
  exists v. split; [reflexivity |]. split; lra.
Qed.

(** C3, as it holds in float64 arithmetic.  Of 100 scores let 5 be
    strictly greater than each of the other 95, let [a] be the largest
    of the 95 and [b] the smallest of the 5.  [np.percentile] returns the
    threshold [a * 0.9500000000000028 + b * 0.04999999999999716], both
    products and the sum rounded, and binarizing the 100 scores against
    it gives exactly 5 labels 1 if and only if the rounded threshold is
    greater than [a] and not greater than [b].  That is the case when
    the scores are non-negative, at most [2^1000], and [b] exceeds [a]
    by more than the rounding error: by [2^-46] of [b] and [2^-1069]. *)
Theorem percentile95_positives_float64 (scores hi lo : list Q) :
  Permutation scores (hi ++ lo) ->
  length hi = 5%nat -> length lo = 95%nat ->
  (forall h x, In h hi -> In x lo -> (x < h)%Q) ->
  exists a b thresh_train,
    (In a lo /\ forall x, In x lo -> (x <= a)%Q) /\
    (In b hi /\ forall h, In h hi -> (b <= h)%Q) /\
    Numpy64.percentile scores 95 = Ok thresh_train /\
    thresh_train
    = interpolate64 a b (Float64.Finite (3518437208883 # 70368744177664)) /\
    (positives (Autoencoder.threshold_yhat thresh_train scores) = 5%nat <->
     Float64.lt64 (Float64.Finite a) thresh_train = true /\
     Float64.lt64 (Float64.Finite b) thresh_train = false) /\
    ((0 <= a)%Q -> (b <= Float64.pow2 1000)%Q ->
     (a + b * Float64.pow2 (-46) + Float64.pow2 (-1069) <= b)%Q ->
     positives (Autoencoder.threshold_yhat thresh_train scores) = 5%nat).
Proof.
  intros Hperm Hhi Hlo Hsep.
  assert (Hlen : length scores = 100%nat).
  { rewrite (Permutation_length Hperm), length_app, Hhi, Hlo. reflexivity. }
  destruct (sorted_split scores hi lo Hperm) as (Ha & Hb & Hbelow & Habove).
  { destruct lo; [discriminate | congruence]. }
  { destruct hi; [discriminate | congruence]. }
  { exact Hsep. }
  rewrite Hlo in Ha, Hb, Hbelow, Habove. simpl in Ha, Hb, Hbelow, Habove.
  set (a := nth 94 (Numpy.sort scores) 0%Q) in *.
  set (b := nth 95 (Numpy.sort scores) 0%Q) in *.
  exists a, b, (percentile95_64 scores).
  split; [split; assumption |]. split; [split; assumption |].
  split.
  { apply percentile95_value; [destruct scores; [discriminate | congruence] |].
    rewrite Hlen. reflexivity. }
  pose proof (percentile95_64_of_100 scores Hlen) as Hval. fold a b in Hval.
  split; [exact Hval |].
  revert Hval. generalize (percentile95_64 scores). intros t Hval.
  set (label := fun imse => if Float64.lt64 (Float64.Finite imse) t then 0%Z else 1%Z).
  assert (Hcount : positives (Autoencoder.threshold_yhat t scores)
                   = (positives (map label hi) + positives (map label lo))%nat).
  { unfold Autoencoder.threshold_yhat, positives. fold label.
    rewrite (proj1 (Permutation_count_occ Z.eq_dec _ _)
               (Permutation_map label Hperm) 1%Z).
    rewrite map_app. apply count_occ_app. }
  rewrite Hcount.
  pose proof (positives_le label hi) as Hhile.
  pose proof (positives_le label lo) as Hlole.
  assert (Hif : Float64.lt64 (Float64.Finite a) t = true /\
                Float64.lt64 (Float64.Finite b) t = false ->
                (positives (map label hi) + positives (map label lo))%nat = 5%nat).
  { intros [Ea Eb].
    assert (Hlo0 : positives (map label lo) = 0%nat).
    { apply count_occ_all_zero. intros x Hx. unfold label.
      rewrite (lt64_mono x a t (Hbelow x Hx) Ea). reflexivity. }
    assert (Hhi5 : positives (map label hi) = length hi).
    { apply count_occ_all_one. intros h Hh. unfold label.
      destruct (Float64.lt64 (Float64.Finite h) t) eqn:Eh; [| reflexivity].
      rewrite (lt64_mono b h t (Habove h Hh) Eh) in Eb. discriminate. }
    lia. }
  split; [split; [| exact Hif] |].
  - intros H5.
    destruct (Float64.lt64 (Float64.Finite a) t) eqn:Ea.
    + split; [reflexivity |].
      destruct (Float64.lt64 (Float64.Finite b) t) eqn:Eb; [| reflexivity].
      assert (Hlo0 : positives (map label lo) = 0%nat).
      { apply count_occ_all_zero. intros x Hx. unfold label.
        rewrite (lt64_mono x a t (Hbelow x Hx) Ea). reflexivity. }
      assert (Hhi4 : (positives (map label hi) < length hi)%nat).
      { apply (positives_lt label hi b Hb). unfold label. rewrite Eb. discriminate. }
      lia.
    + assert (Hhi5 : positives (map label hi) = length hi).
      { apply count_occ_all_one. intros h Hh. unfold label.
        destruct (Float64.lt64 (Float64.Finite h) t) eqn:Eh; [| reflexivity].
        assert (Hah : (a <= h)%Q).
        { pose proof (Hsep h a Hh Ha). lra. }
        rewrite (lt64_mono a h t Hah Eh) in Ea. discriminate. }
      assert (Hlo1 : (0 < positives (map label lo))%nat).
      { apply (positives_pos label lo a Ha). unfold label. rewrite Ea. reflexivity. }
      lia.
  - intros Ha0 Hbmax Hgap.
    destruct (interpolate64_separates a b Ha0 Hbmax Hgap) as (v & Hv & Hav & Hvb).
    apply Hif. rewrite Hval, Hv. cbn [Float64.lt64].
    split; [apply Qltb_lt; exact Hav | apply Qltb_ge; exact Hvb].
Qed.

(** X23: the cells of the autoencoder section need the names the
    earlier cells bind.  The threshold cell raises [NameError] while [K]
    is not bound (the cell that builds the model has not run), and the
    exception of [load_model] when the model file cannot be loaded; the
    validation cell raises [NameError] while [trained_model] is not
    bound.  When the threshold cell returns, [X_train_norm] was bound
    and [trained_model] and [thresh_train] are bound afterwards; the
    validation cell returns only in a kernel in which [trained_model],
    [X_validation_norm] and [thresh_train] are bound.  In a kernel in
    which only the data are loaded, the loop over a non-empty dictionary
    of unsupervised models raises [NameError], and over an empty one it
    only binds an empty result dictionary. *)
Theorem cells_need_earlier_cells
    (roc_curve : list Z -> list Q -> result (list num * list num * list Q))
    (auc : list num -> list num -> result num)
    (load_model : result (matrix -> matrix))
    {M : Type} `{Sklearn.OutlierDetector M}
    (models : list (string * M)) (k : Autoencoder.kernel)
    (Xt Xv : matrix) (yv : list Z) :
  (Autoencoder.K k = None ->
   Autoencoder.cell_threshold load_model k = Raise NameError) /\
  (forall e, Autoencoder.K k = Some tt -> load_model = Raise e ->
             Autoencoder.cell_threshold load_model k = Raise e) /\
  (Autoencoder.trained_model k = None ->
   Autoencoder.cell_validate roc_curve auc k = Raise NameError) /\
  (forall k1,
      Autoencoder.cell_threshold load_model k = Ok k1 ->
      is_Some (Autoencoder.X_train_norm k) /\
      is_Some (Autoencoder.trained_model k1) /\
      is_Some (Autoencoder.thresh_train k1)) /\
  (forall k2,
      Autoencoder.cell_validate roc_curve auc k = Ok k2 ->
      is_Some (Autoencoder.trained_model k) /\
      is_Some (Autoencoder.X_validation_norm k) /\
      is_Some (Autoencoder.thresh_train k)) /\
  (models <> [] ->
   cell_unsupervised roc_curve auc models (loaded Xt Xv yv) = Raise NameError) /\
  (exists k', cell_unsupervised roc_curve auc [] (loaded Xt Xv yv) = Ok k' /\
              results_unsupervised k' = Some ∅ /\ yhat k' = None).
Proof.
  split; [| split; [| split; [| split; [| split; [| split]]]]].
  - intros HK. unfold Autoencoder.cell_threshold. rewrite HK. reflexivity.
  - intros e HK Hl. unfold Autoencoder.cell_threshold. rewrite HK, Hl. reflexivity.
  - intros Hm. unfold Autoencoder.cell_validate. rewrite Hm. reflexivity.
  - intros k1 Hc. apply autoencoder_cell_threshold_inv in Hc.
    destruct Hc as (model & Xtn & scores & t & _ & _ & HX & _ & _ & Hm & _ & Ht).
    rewrite HX, Hm, Ht. repeat split; eauto.
  - intros k2 Hc. apply autoencoder_cell_validate_inv in Hc.
    destruct Hc as (model & Xvn & scores & t & Hm & HX & _ & Ht & _).
    rewrite Hm, HX, Ht. repeat split; eauto.
  - intros Hne. destruct models as [|[n m] models']; [congruence|]. reflexivity.
  - eexists. split; [reflexivity|]. split; reflexivity.
Qed.

(** ** The float64 threshold at concrete inputs *)

(** [np.percentile] on numpy's example 1..5 gives the float64 number
    4.8; on the training errors 0.625, 4.25, 4, 6.625 of the example it
    gives 6.268749999999999, one unit in the last place below the
    float64 number nearest to the exact 6.26875. *)
Example percentile64_values :
  Numpy64.percentile [1; 2; 3; 4; 5]%Q 95
  = Ok (Float64.Finite (5404319552844595 # 1125899906842624)) /\
  Numpy64.percentile [7]%Q 95 = Ok (Float64.Finite 7) /\
  Numpy64.percentile [5 # 8; 17 # 4; 4; 53 # 8]%Q 95
  = Ok (Float64.Finite (3528992520509849 # 562949953421312)) /\
  Float64.round64 (626875 # 100000)
  = Float64.Finite (7057985041019699 # 1125899906842624) /\
  ((3528992520509849 # 562949953421312) < (7057985041019699 # 1125899906842624))%Q.
Proof. repeat split; vm_compute; reflexivity. Qed.

(** A hundred equal scores 0.545287089768146: the rounded threshold is
    0.5452870897681461, above all of them, and no score is labelled 1. *)
Example threshold_above_equal_scores :
  let x := (4911509468579529 # 9007199254740992)%Q in
  let t := Float64.Finite (2455754734289765 # 4503599627370496) in
  Numpy64.percentile (repeat x 100) 95 = Ok t /\
  Float64.lt64 (Float64.Finite x) t = true /\
  positives (Autoencoder.threshold_yhat t (repeat x 100)) = 0%nat.
Proof. repeat split; vm_compute; reflexivity. Qed.

(** The threshold and validation cells run on the example: the training
    errors 0.625, 4.25, 4, 6.625 give the threshold 6.268749999999999,
    and the validation errors 1 and 10.25 the labels 0 and 1. *)
Example threshold_then_validate :
  exists k2,
    Autoencoder.cell_threshold (Ok Example.halve) Session.built
      ≫= Autoencoder.cell_validate Example.roc_curve Example.auc = Ok k2 /\
    Autoencoder.thresh_train k2
    = Some (Float64.Finite (3528992520509849 # 562949953421312)) /\
    Autoencoder.yhat k2 = Some [0; 1]%Z.
Proof.
  eexists. split; [vm_compute; reflexivity |]. split; reflexivity.
Qed.

Lemma percentile_empty_fatal_nonempty_returns_witness :
  Numpy64.percentile [] 95 = Raise IndexError /\
  Autoencoder.bind_thresh_train Session.built Example.halve [] = Raise IndexError /\
  (exists t, Numpy64.percentile [2; 1]%Q 95 = Ok t) /\
  (exists k1,
      Autoencoder.cell_threshold (Ok Example.halve) Session.built = Ok k1 /\
      Autoencoder.thresh_train k1
      = Some (Float64.Finite (3528992520509849 # 562949953421312))).
Proof.
  destruct percentile_empty_fatal_nonempty_returns as (Hempty & Hstmt & Hcell & Hret).
  split; [exact Hempty |]. split; [apply Hstmt |]. split.
  - apply Hret; [discriminate | vm_compute; reflexivity].
  - rewrite (Hcell (Ok Example.halve) Example.halve Session.built Example.Xt
               [20 # 32; 136 # 32; 128 # 32; 212 # 32]%Q
               eq_refl eq_refl eq_refl eq_refl).
    eexists. split; [vm_compute; reflexivity | reflexivity].
Defined.


Lemma percentile95_positives_float64_witness :
  separated Example.hi Example.lo = true /\
  exists thresh_train,
    Numpy64.percentile (Example.lo ++ Example.hi) 95 = Ok thresh_train /\
    positives (Autoencoder.threshold_yhat thresh_train (Example.lo ++ Example.hi))
    = 5%nat.
Proof.
  split; [vm_compute; reflexivity |].
  destruct (percentile95_positives_float64 (Example.lo ++ Example.hi)
              Example.hi Example.lo)
    as (a & b & t & (Ha & _) & (Hb & _) & Hp & _ & _ & Hsep).
  - apply Permutation_app_comm.
  - reflexivity.
  - reflexivity.
  - apply separated_spec. vm_compute. reflexivity.
  - exists t. split; [exact Hp |].
    assert (Hlo : forallb (fun x => Qle_bool 0 x && Qle_bool x 94) Example.lo = true).
    { vm_compute. reflexivity. }
    assert (Hhi : forallb (fun x => Qle_bool 100 x && Qle_bool x 104) Example.hi = true).
    { vm_compute. reflexivity. }
    rewrite forallb_forall in Hlo, Hhi.
    specialize (Hlo a Ha). specialize (Hhi b Hb).
    apply andb_true_iff in Hlo, Hhi.
    destruct Hlo as [Ha0 Ha94]. destruct Hhi as [Hb100 Hb104].
    apply Qle_bool_iff in Ha0, Ha94, Hb100, Hb104.
    assert (H46 : (Float64.pow2 (-46) <= 1 # 1000)%Q).
    { apply Qle_bool_iff. vm_compute. reflexivity. }
    assert (H1069 : (Float64.pow2 (-1069) <= 1 # 1000)%Q).
    { apply Qle_bool_iff. vm_compute. reflexivity. }
    assert (H1000 : (104 <= Float64.pow2 1000)%Q).
    { apply Qle_bool_iff. vm_compute. reflexivity. }
    assert (Hprod : (b * Float64.pow2 (-46) <= b * (1 # 1000))%Q).
    { rewrite !(Qmult_comm b). apply Qmult_le_compat_r; lra. }
    apply Hsep; lra.
Defined.

Lemma percentile95_five_positives_counterexample :
  (Permutation Close.scores (Close.hi ++ Close.lo) /\
   length Close.hi = 5%nat /\ length Close.lo = 95%nat /\
   separated Close.hi Close.lo = true /\
   Numpy64.percentile Close.scores 95 = Ok (Float64.Finite (inject_Z (10 ^ 16))) /\
   positives
     (Autoencoder.threshold_yhat (Float64.Finite (inject_Z (10 ^ 16))) Close.scores)
   = 6%nat) /\
  ~ (forall scores hi lo : list Q,
        Permutation scores (hi ++ lo) ->
        length hi = 5%nat -> length lo = 95%nat ->
        (forall h x, In h hi -> In x lo -> (x < h)%Q) ->
        exists thresh_train,
          Numpy64.percentile scores 95 = Ok thresh_train /\
          positives (Autoencoder.threshold_yhat thresh_train scores) = 5%nat).
Proof.
  assert (Hp : Numpy64.percentile Close.scores 95
               = Ok (Float64.Finite (inject_Z (10 ^ 16)))).
  { vm_compute. reflexivity. }
  assert (H6 : positives
                 (Autoencoder.threshold_yhat (Float64.Finite (inject_Z (10 ^ 16)))
                    Close.scores) = 6%nat).
  { vm_compute. reflexivity. }
  split.
  - split; [apply Permutation_app_comm |].
    repeat split; try assumption; vm_compute; reflexivity.
  - intros Hall.
    destruct (Hall Close.scores Close.hi Close.lo) as (t & Ht & H5).
    + apply Permutation_app_comm.
    + reflexivity.
    + reflexivity.
    + apply separated_spec. vm_compute. reflexivity.
    + rewrite Hp in Ht. injection Ht as <-. rewrite H6 in H5. discriminate.
Qed.

Lemma cells_need_earlier_cells_witness :
  Autoencoder.cell_threshold (Ok Example.halve) Session.fresh = Raise NameError /\
  Autoencoder.cell_validate Example.roc_curve Example.auc Session.built
  = Raise NameError.
Proof.
  destruct (cells_need_earlier_cells Example.roc_curve Example.auc
              (Ok Example.halve) Sample.models Session.fresh Example.Xt Example.Xv
              Example.yv) as (Hk & _).
  destruct (cells_need_earlier_cells Example.roc_curve Example.auc
              (Ok Example.halve) Sample.models Session.built Example.Xt Example.Xv
              Example.yv) as (_ & _ & Hm & _).
  split; [apply Hk; reflexivity | apply Hm; reflexivity].
Defined.

Lemma percentile64_returns_witness :
  (exists t, Numpy64.percentile [3; 1; 2]%Q 50 = Ok t) /\
  Numpy64.percentile [] 50 = Raise IndexError /\
  Numpy64.percentile [3; 1; 2]%Q 101 = Raise ValueError.
Proof.
  destruct (percentile64_returns [3; 1; 2]%Q 50) as (Hret & _).
  destruct (percentile64_returns [] 50) as (_ & Hempty & _).
  destruct (percentile64_returns [3; 1; 2]%Q 101) as (_ & _ & Hbad & _).
  split; [apply Hret; [lra | lra | discriminate | vm_compute; discriminate] |].
  split; [apply Hempty; [lra | lra | reflexivity] |].
  apply Hbad. left. apply Qle_bool_iff. vm_compute. reflexivity.
Defined.

Lemma percentile64_within_data_witness :
  exists v : Q,
    Numpy64.percentile [5 # 8; 17 # 4; 4; 53 # 8]%Q 95 = Ok (Float64.Finite v) /\
    ((5 # 8) * (1 - Float64.pow2 (-50)) - Float64.pow2 (-1073) <= v)%Q /\
    (v <= (53 # 8) * (1 + Float64.pow2 (-50)) + Float64.pow2 (-1073))%Q.
Proof.
  destruct (percentile64_within_data [5 # 8; 17 # 4; 4; 53 # 8]%Q)
    as (v & lo & hi & Hp & Hlo & Hhi & Hall & Hvlo & Hvhi).
  - discriminate.
  - vm_compute. discriminate.
  - intros x Hx.
    assert (H : forallb (fun x => Qle_bool 0 x && Qle_bool x (Float64.pow2 1000))
                  [5 # 8; 17 # 4; 4; 53 # 8]%Q = true) by (vm_compute; reflexivity).
    rewrite forallb_forall in H. specialize (H x Hx).
    apply andb_true_iff in H. destruct H as [H1 H2].
    split; apply Qle_bool_iff; assumption.
  - exists v. split; [exact Hp |].
    assert (H : forallb (fun x => Qle_bool (5 # 8) x && Qle_bool x (53 # 8))
                  [5 # 8; 17 # 4; 4; 53 # 8]%Q = true) by (vm_compute; reflexivity).
    rewrite forallb_forall in H.
    pose proof (H lo Hlo) as Hl. pose proof (H hi Hhi) as Hh.
    apply andb_true_iff in Hl, Hh.
    destruct Hl as [Hl _]. destruct Hh as [_ Hh].
    apply Qle_bool_iff in Hl, Hh.
    assert (H50 : (Float64.pow2 (-50) == 1 # 1125899906842624)%Q) by reflexivity.
    rewrite H50 in Hvlo, Hvhi |- *. split; lra.
Defined.
